(** * CargoDelivery: the models of [apps/main/models.py] and their signals

    A shallow embedding of the derived properties of [Order] and [Sending]
    ([cargo_volume], [free_volume], [days]) and of the three [post_save]
    receivers ([new_sendings_email], [application_status_email],
    [application_created_email]), together with the properties the
    specification states about them.  [Application.price] multiplies and
    rounds binary floating-point numbers: it is embedded over the
    floating-point operations it calls, which are then the binary64
    operations of [SpecFloat].

    Python values are embedded as follows:
    - [int] as [Z]; [%] is Python's floored modulo, which is [Z.modulo];
    - [str] as [string] (the bytes of the UTF-8 encoding);
    - [decimal.Decimal] as a coefficient and an exponent, under the default
      context (28 significant digits, ROUND_HALF_EVEN);
    - [float] as a binary64 number of [SpecFloat], rounded to nearest, ties
      to even;
    - [datetime.date] as a year, a month and a day, ordered by [toordinal];
    - exceptions as a [result] type; the Celery queue as a list of tasks
      threaded through the receivers. *)

From Stdlib Require Import ZArith QArith Qpower Qround Qabs.
From Stdlib Require Import List Permutation String Ascii Bool Lia.
From Stdlib Require Import DecimalString SpecFloat.
Import ListNotations.

Local Open Scope string_scope.
Local Open Scope Z_scope.

(** ** Exceptions *)

Inductive exn : Type :=
| ObjectDoesNotExist
| MultipleObjectsReturned
| IntegrityError
| InvalidOperation
| DivisionByZero
| OverflowError.

Inductive result (A : Type) : Type :=
| Ok (a : A)
| Raise (e : exn).

Arguments Ok {A} a.
Arguments Raise {A} e.

Definition rbind {A B} (r : result A) (k : A -> result B) : result B :=
  match r with
  | Ok a => k a
  | Raise e => Raise e
  end.

Declare Scope result_scope.
Delimit Scope result_scope with result.
Notation "x <-- r ;; k" := (rbind r (fun x => k))
  (at level 61, r at next level, right associativity) : result_scope.

(** ** [datetime.date] *)

Record date : Type := mkdate { year : Z; month : Z; day : Z }.

Definition date_eqb (a b : date) : bool :=
  (year a =? year b) && (month a =? month b) && (day a =? day b).

Definition is_leap (y : Z) : bool :=
  (y mod 4 =? 0) && (negb (y mod 100 =? 0) || (y mod 400 =? 0)).

Definition days_before_year (y : Z) : Z :=
  let y1 := y - 1 in
  y1 * 365 + y1 / 4 - y1 / 100 + y1 / 400.

Definition days_in_month_tbl : list Z :=
  [31; 28; 31; 30; 31; 30; 31; 31; 30; 31; 30; 31].

Definition days_before_month (y m : Z) : Z :=
  fold_right Z.add 0 (firstn (Z.to_nat (m - 1)) days_in_month_tbl)
  + (if (2 <? m) && is_leap y then 1 else 0).

Definition toordinal (d : date) : Z :=
  days_before_year (year d) + days_before_month (year d) (month d) + day d.

(** [(a - b).days] *)
Definition date_sub_days (a b : date) : Z := toordinal a - toordinal b.

(** ** [str(int)] *)

Definition str_of_int (n : Z) : string := NilZero.string_of_int (Z.to_int n).

(** ** [Sending.days] *)

Module Days.

Definition days_list : list string := ["день"; "дня"; "дней"].

(** The index [p] chosen by the [if]/[elif]/[else] of [Sending.days]. *)
Definition plural_index (num_days : Z) : nat :=
  if (num_days mod 10 =? 1) && negb (num_days mod 100 =? 11) then 0%nat
  else if ((2 <=? num_days mod 10) && (num_days mod 10 <=? 4))
          && ((num_days mod 100 <? 10) || (num_days mod 100 >=? 20)) then 1%nat
  else 2%nat.

Definition days_label (num_days : Z) : string :=
  str_of_int num_days ++ " " ++ nth (plural_index num_days) days_list "".

Definition days (arrival_date departure_date : date) : string :=
  days_label (date_sub_days arrival_date departure_date).

End Days.

(** ** [decimal.Decimal] under the default context

    A finite decimal is a signed coefficient and an exponent, standing for
    [coef * 10 ^ dexp]; the sign of a zero is not tracked.  The default
    context rounds every arithmetic result to [prec] = 28 significant digits
    with ROUND_HALF_EVEN and traps [InvalidOperation] and [DivisionByZero].
    The exponent limits of the context (Emax = 999999) are out of reach of
    the fields of this schema and are left out, and so are NaN and the
    infinities, which no column holds. *)

Module Dec.

Record t : Type := mk { coef : Z; dexp : Z }.

Definition prec : Z := 28.

(** [len(str(abs(n)))] *)
Fixpoint digits_fuel (f : nat) (n : Z) : Z :=
  match f with
  | O => 1
  | S f' => if n <? 10 then 1 else 1 + digits_fuel f' (n / 10)
  end.

Definition ndigits (n : Z) : Z :=
  digits_fuel (Z.to_nat (Z.log2 (Z.abs n))) (Z.abs n).

(** [n / d] rounded to the nearest integer, ties to even ([0 < d]). *)
Definition div_half_even (n d : Z) : Z :=
  let q := n / d in
  let r := n mod d in
  match 2 * r ?= d with
  | Lt => q
  | Gt => q + 1
  | Eq => if Z.even q then q else q + 1
  end.

(** [Decimal._fix]: round to the precision of the context. *)
Definition fix_ (x : t) : t :=
  let nd := ndigits (coef x) in
  if nd <=? prec then x
  else
    let k := nd - prec in
    let q := div_half_even (coef x) (10 ^ k) in
    if ndigits q <=? prec then mk q (dexp x + k)
    else mk (q / 10) (dexp x + k + 1).

Definition of_int (n : Z) : t := mk n 0.

Definition neg (a : t) : t := mk (- coef a) (dexp a).

Definition mul (a b : t) : t :=
  fix_ (mk (coef a * coef b) (dexp a + dexp b)).

Definition add (a b : t) : t :=
  let e := Z.min (dexp a) (dexp b) in
  fix_ (mk (coef a * 10 ^ (dexp a - e) + coef b * 10 ^ (dexp b - e)) e).

Definition sub (a b : t) : t := add a (neg b).

(** [Decimal._rescale] with ROUND_HALF_EVEN *)
Definition rescale (x : t) (e : Z) : t :=
  if e <=? dexp x then mk (coef x * 10 ^ (dexp x - e)) e
  else mk (div_half_even (coef x) (10 ^ (e - dexp x))) e.

(** [Decimal.quantize]: the one operation that refuses to lose precision. *)
Definition quantize (x : t) (e : Z) : result t :=
  if coef x =? 0 then Ok (mk 0 e)
  else if ndigits (coef x) + dexp x - e >? prec then Raise InvalidOperation
  else
    let ans := rescale x e in
    if ndigits (coef ans) >? prec then Raise InvalidOperation else Ok ans.

(** [round(x, n)] is [x.quantize(Decimal((0, (1,), -n)))]. *)
Definition round (x : t) (n : Z) : result t := quantize x (- n).

(** The loop of [__truediv__] that brings an exact quotient as close to
    the ideal exponent as its trailing zeros allow. *)
Fixpoint strip (n : nat) (q e : Z) : Z * Z :=
  match n with
  | O => (q, e)
  | S n' => if q mod 10 =? 0 then strip n' (q / 10) (e + 1) else (q, e)
  end.

Definition truediv (a b : t) : result t :=
  if coef b =? 0 then
    Raise (if coef a =? 0 then InvalidOperation else DivisionByZero)
  else if coef a =? 0 then Ok (fix_ (mk 0 (dexp a - dexp b)))
  else
    let shift := ndigits (coef b) - ndigits (coef a) + prec + 1 in
    let e := dexp a - dexp b - shift in
    let n := if 0 <=? shift then Z.abs (coef a) * 10 ^ shift
             else Z.abs (coef a) in
    let d := if 0 <=? shift then Z.abs (coef b)
             else Z.abs (coef b) * 10 ^ (- shift) in
    let q := n / d in
    let r := n mod d in
    let sgn := Z.sgn (coef a) * Z.sgn (coef b) in
    if r =? 0 then
      let '(q', e') := strip (Z.to_nat (dexp a - dexp b - e)) q e in
      Ok (fix_ (mk (sgn * q') e'))
    else
      Ok (fix_ (mk (sgn * (if q mod 5 =? 0 then q + 1 else q)) e)).

(** The rational a decimal stands for. *)
Definition val (x : t) : Q := (inject_Z (coef x) * Qpower (10 # 1) (dexp x))%Q.

End Dec.

(** ** Python numbers that meet in [sum], [round] and [-] *)

Inductive pynum : Type :=
| PInt (n : Z)
| PDec (d : Dec.t).

Definition to_dec (x : pynum) : Dec.t :=
  match x with
  | PInt n => Dec.of_int n
  | PDec d => d
  end.

(** [x + y] where at least one side is a [Decimal]; [int + int] stays [int]. *)
Definition py_add (x y : pynum) : pynum :=
  match x, y with
  | PInt a, PInt b => PInt (a + b)
  | _, _ => PDec (Dec.add (to_dec x) (to_dec y))
  end.

(** [sum(xs)]: a left fold of [+] from the [int] 0. *)
Definition py_sum (xs : list Dec.t) : pynum :=
  fold_left (fun acc v => py_add acc (PDec v)) xs (PInt 0).

(** [round(x, n)]: an [int] is returned as it is for [0 <= n]. *)
Definition py_round (x : pynum) (n : Z) : result pynum :=
  match x with
  | PInt a => Ok (PInt a)
  | PDec d => rbind (Dec.round d n) (fun r => Ok (PDec r))
  end.

(** ** The schema of [apps/company/models.py] and [apps/main/models.py]

    A row is a record; a [ForeignKey] or [OneToOneField] column holds the
    primary key of the row it points to, as the [_id] attribute does. *)

Module User.
Record t : Type := mk { id : Z; username : string; email : string }.
End User.

Module Company.
Record t : Type := mk { id : Z; name : string; info : string }.
End Company.

Module WorkerProfile.
Record t : Type := mk { id : Z; user : Z; company : Z; position : string }.
End WorkerProfile.

Module Country.
Record t : Type := mk { id : Z; name : string }.
End Country.

Module City.
Record t : Type := mk { id : Z; name : string; country : Z }.
End City.

Module Warehouse.
Record t : Type := mk { id : Z; address : string; company : Z; city : Z }.
End Warehouse.

Module Order.

Record t : Type := mk {
  id : Z;
  user : Z;
  departure_city : Z;
  arrival_city : Z;
  sender_fullname : string;
  recipient_fullname : string;
  direct_take : bool;
  direct_take_address : string;
  direct_deliver : bool;
  direct_deliver_address : string;
  departure_date : date;
  cargo_type : string;
  cargo_len : Dec.t;
  cargo_width : Dec.t;
  cargo_depth : Dec.t;
  cargo_weight : Dec.t;
  insurance_price : Dec.t;
  additional_info : string
}.

(** [round(self.cargo_len * self.cargo_width * self.cargo_depth, 2) / 1000000] *)
Definition cargo_volume (self : t) : result Dec.t :=
  (r <-- Dec.round (Dec.mul (Dec.mul (cargo_len self) (cargo_width self))
                            (cargo_depth self)) 2 ;;
   Dec.truediv r (Dec.of_int 1000000))%result.

End Order.

Module Transport.
Record t : Type :=
  mk { id : Z; transport_type : string; number : string; company : Z }.
End Transport.

Module Sending.

Record t : Type := mk {
  id : Z;
  company : Z;
  departure_warehouse : Z;
  departure_date : date;
  arrival_warehouse : Z;
  arrival_date : date;
  total_volume : Dec.t;
  transport : Z;
  price_for_m3 : Dec.t
}.

Definition days (self : t) : string :=
  Days.days (arrival_date self) (departure_date self).

End Sending.

Module Application.

Record t : Type := mk {
  id : Z;
  order : Z;
  sending : Z;
  status : string;
  info : string
}.

Definition STATUS_SET : list (string * string) :=
  [("WAIT", "Ожидается подтверждение");
   ("CONF", "Подтверждено");
   ("DECL", "Отклонено")].

End Application.

(** ** The store

    One list of rows per table.  [sending_orders] is the table behind the
    [ManyToManyField] [Sending.orders]: pairs (sending id, order id). *)

Record Store : Type := mkStore {
  users : list User.t;
  companies : list Company.t;
  workers : list WorkerProfile.t;
  cities : list City.t;
  warehouses : list Warehouse.t;
  orders : list Order.t;
  sendings : list Sending.t;
  sending_orders : list (Z * Z);
  applications : list Application.t
}.

(** [QuerySet.get] on the rows a query selects. *)
Definition get {A} (rows : list A) : result A :=
  match rows with
  | [] => Raise ObjectDoesNotExist
  | [x] => Ok x
  | _ => Raise MultipleObjectsReturned
  end.

Definition by_pk {A} (pk : A -> Z) (k : Z) (rows : list A) : list A :=
  filter (fun r => pk r =? k) rows.

(** Forward relations: [warehouse.city], [order.user], [worker.user],
    [instance.order], [instance.departure_warehouse]. *)
Definition get_user (st : Store) (k : Z) : result User.t :=
  get (by_pk User.id k (users st)).
Definition get_city (st : Store) (k : Z) : result City.t :=
  get (by_pk City.id k (cities st)).
Definition get_warehouse (st : Store) (k : Z) : result Warehouse.t :=
  get (by_pk Warehouse.id k (warehouses st)).
Definition get_order (st : Store) (k : Z) : result Order.t :=
  get (by_pk Order.id k (orders st)).

(** The reverse side of the one-to-one field, [order.application]. *)
Definition order_application (st : Store) (o : Order.t)
  : result Application.t :=
  get (filter (fun a => Application.order a =? Order.id o) (applications st)).

(** [sending.orders.all()]: the orders joined through [sending_orders].
    SQL leaves the order of the rows open; they are taken in the order of
    the join table. *)
Definition sending_orders_all (st : Store) (s : Sending.t) : list Order.t :=
  flat_map
    (fun so => if fst so =? Sending.id s
               then by_pk Order.id (snd so) (orders st) else [])
    (sending_orders st).

(** The list comprehension [[order.cargo_volume for order in ...]]. *)
Fixpoint cargo_volumes (os : list Order.t) : result (list Dec.t) :=
  match os with
  | [] => Ok []
  | o :: os' =>
      (v <-- Order.cargo_volume o ;;
       vs <-- cargo_volumes os' ;;
       Ok (v :: vs))%result
  end.

(** [Sending.free_volume] *)
Definition free_volume (st : Store) (self : Sending.t) : result Dec.t :=
  (vs <-- cargo_volumes (sending_orders_all st self) ;;
   let summ := py_sum vs in
   r <-- py_round summ 2 ;;
   Ok (Dec.sub (Sending.total_volume self) (to_dec r)))%result.

(** ** Celery tasks and the signal monad

    [send_email_celery.delay(...)] and [send_many_email_celery.delay(...)]
    append a task to the queue.  A receiver is a computation over the queue
    that may raise; what was queued before a raise stays queued. *)

Inductive task : Type :=
| send_email_celery
    (subject plain_message from_email : string) (to : string)
    (html_message : string)
| send_many_email_celery
    (subject plain_message from_email : string) (to : list string)
    (html_message : string).

Definition Sig (A : Type) : Type := list task -> result A * list task.

Definition ret {A} (a : A) : Sig A := fun q => (Ok a, q).

Definition bind {A B} (m : Sig A) (k : A -> Sig B) : Sig B :=
  fun q =>
    match m q with
    | (Ok a, q') => k a q'
    | (Raise e, q') => (Raise e, q')
    end.

Definition lift {A} (r : result A) : Sig A := fun q => (r, q).

Definition delay (t : task) : Sig unit := fun q => (Ok tt, (q ++ [t])%list).

(** [try: body / except ObjectDoesNotExist: handler / else: orelse] *)
Definition try_except_else {A B}
  (body : Sig A) (handler : Sig B) (orelse : A -> Sig B) : Sig B :=
  fun q =>
    match body q with
    | (Ok a, q') => orelse a q'
    | (Raise ObjectDoesNotExist, q') => handler q'
    | (Raise e, q') => (Raise e, q')
    end.

Declare Scope sig_scope.
Delimit Scope sig_scope with sig.
Notation "x <- m ;; k" := (bind m (fun x => k))
  (at level 61, m at next level, right associativity) : sig_scope.
Notation "m ;;; k" := (bind m (fun _ => k))
  (at level 61, right associativity) : sig_scope.

Fixpoint for_each {A} (xs : list A) (body : A -> Sig unit) : Sig unit :=
  match xs with
  | [] => ret tt
  | x :: xs' => (body x ;;; for_each xs' body)%sig
  end.

(** Values a template context carries. *)
Inductive ctxval : Type :=
| CStr (s : string)
| COrder (o : Order.t)
| CSending (s : Sending.t)
| CApplication (a : Application.t).

Definition context : Type := list (string * ctxval).

(** ** Queries of the receivers *)

(** [Order.objects.filter(departure_city=c1, arrival_city=c2,
    departure_date=d)] *)
Definition filter_orders (st : Store) (c1 c2 : City.t) (d : date)
  : list Order.t :=
  filter (fun o => (Order.departure_city o =? City.id c1)
                   && (Order.arrival_city o =? City.id c2)
                   && date_eqb (Order.departure_date o) d)
         (orders st).

(** [Order.objects.filter(application=instance)]: orders joined with the
    application rows whose primary key is the instance's. *)
Definition orders_of_application (st : Store) (a : Application.t)
  : list Order.t :=
  flat_map
    (fun o => map (fun _ => o)
       (filter (fun a' => (Application.order a' =? Order.id o)
                          && (Application.id a' =? Application.id a))
               (applications st)))
    (orders st).

(** [Sending.objects.filter(application=instance)] *)
Definition sendings_of_application (st : Store) (a : Application.t)
  : list Sending.t :=
  flat_map
    (fun s => map (fun _ => s)
       (filter (fun a' => (Application.sending a' =? Sending.id s)
                          && (Application.id a' =? Application.id a))
               (applications st)))
    (sendings st).

(** [WorkerProfile.objects.filter(company__sending__application=instance)]:
    worker JOIN company JOIN sending JOIN application. *)
Definition workers_of_application (st : Store) (a : Application.t)
  : list WorkerProfile.t :=
  flat_map
    (fun w =>
       flat_map
         (fun c =>
            flat_map
              (fun s => map (fun _ => w)
                 (filter (fun a' => (Application.sending a' =? Sending.id s)
                                    && (Application.id a' =? Application.id a))
                         (applications st)))
              (filter (fun s => Sending.company s =? Company.id c)
                      (sendings st)))
         (by_pk Company.id (WorkerProfile.company w) (companies st)))
    (workers st).

(** ** The receivers *)

Section Signals.

(** The template engine and [CargoDelivery.settings]. *)
Variable render_to_string : string -> context -> string.
Variable strip_tags : string -> string.
Variable SITE_URL : string.
Variable DEFAULT_FROM_EMAIL : string.

(** The body of the [try]/[except]/[else] of [new_sendings_email]. *)
Definition need_send (st : Store) (order : Order.t) : Sig bool :=
  try_except_else
    (lift (order_application st order))
    (ret true)
    (fun _ =>
       (app <- lift (order_application st order) ;;
        ret (negb (Application.status app =? "CONF")%string))%sig).

Definition new_sending_task (order : Order.t) (instance : Sending.t)
  (user_email : string) : task :=
  let subject := "Для вашего заказа доступно новое отправление" in
  let html_message :=
    render_to_string "emails/new_sending.html"
      [("order", COrder order); ("sending", CSending instance);
       ("SITE_URL", CStr SITE_URL)] in
  let plain_message := strip_tags html_message in
  let from_email := DEFAULT_FROM_EMAIL in
  send_email_celery subject plain_message from_email user_email html_message.

(** The tasks of one run: one for each order paired with its owner. *)
Definition notifications (instance : Sending.t)
  (os : list Order.t) (us : list User.t) : list task :=
  map (fun ou => new_sending_task (fst ou) instance (User.email (snd ou)))
      (combine os us).

Definition new_sendings_email (st : Store) (instance : Sending.t)
  (created : bool) : Sig unit :=
  if created then
    (dw <- lift (get_warehouse st (Sending.departure_warehouse instance)) ;;
     dc <- lift (get_city st (Warehouse.city dw)) ;;
     aw <- lift (get_warehouse st (Sending.arrival_warehouse instance)) ;;
     ac <- lift (get_city st (Warehouse.city aw)) ;;
     for_each
       (filter_orders st dc ac (Sending.departure_date instance))
       (fun order =>
          ns <- need_send st order ;;
          if ns then
            u <- lift (get_user st (Order.user order)) ;;
            delay (new_sending_task order instance (User.email u))
          else ret tt))%sig
  else ret tt.

Definition status_label (instance : Application.t) : string :=
  if (Application.status instance =? "CONF")%string then "Подтверждено"
  else if (Application.status instance =? "DECL")%string then "Отклонено"
  else "".

Definition application_status_task (status : string) (order : Order.t)
  (sending : Sending.t) (user_email : string) : task :=
  let subject := "Обновлён статус заявки" in
  let html_message :=
    render_to_string "emails/application_status.html"
      [("status", CStr status); ("order", COrder order);
       ("sending", CSending sending); ("SITE_URL", CStr SITE_URL)] in
  let plain_message := strip_tags html_message in
  let from_email := DEFAULT_FROM_EMAIL in
  send_email_celery subject plain_message from_email user_email html_message.

Definition application_status_email (st : Store) (instance : Application.t)
  (created : bool) : Sig unit :=
  let status := status_label instance in
  if (status =? "")%string then ret tt
  else
    (o <- lift (get_order st (Application.order instance)) ;;
     u <- lift (get_user st (Order.user o)) ;;
     order <- lift (get (orders_of_application st instance)) ;;
     sending <- lift (get (sendings_of_application st instance)) ;;
     delay (application_status_task status order sending (User.email u)))%sig.

Definition application_created_task (order : Order.t) (sending : Sending.t)
  (instance : Application.t) (emails : list string) : task :=
  let subject := "Появилась новая заявка для вашей компании" in
  let html_message :=
    render_to_string "emails/application_created.html"
      [("order", COrder order); ("sending", CSending sending);
       ("application", CApplication instance); ("SITE_URL", CStr SITE_URL)] in
  let plain_message := strip_tags html_message in
  let from_email := DEFAULT_FROM_EMAIL in
  send_many_email_celery subject plain_message from_email emails html_message.

(** The loop [for worker in workers_list: emails.append(worker.user.email)]. *)
Fixpoint worker_emails (st : Store) (ws : list WorkerProfile.t)
  (emails : list string) : result (list string) :=
  match ws with
  | [] => Ok emails
  | w :: ws' =>
      (u <-- get_user st (WorkerProfile.user w) ;;
       worker_emails st ws' (emails ++ [User.email u])%list)%result
  end.

Definition application_created_email (st : Store) (instance : Application.t)
  (created : bool) : Sig unit :=
  if created then
    (emails <- lift (worker_emails st (workers_of_application st instance) []) ;;
     order <- lift (get (orders_of_application st instance)) ;;
     sending <- lift (get (sendings_of_application st instance)) ;;
     delay (application_created_task order sending instance emails))%sig
  else ret tt.

End Signals.

(** Does [new_sendings_email] owe the owner of [order] a message?  Read off
    [need_send] on an empty queue. *)
Definition owed (st : Store) (order : Order.t) : bool :=
  match fst (need_send st order []) with
  | Ok b => b
  | Raise _ => false
  end.

(** ** Constraints the database enforces

    Primary keys are unique, a foreign key points to a row that exists, and a
    [OneToOneField] column is unique.  They are decidable, so a concrete
    store is checked by evaluation. *)

Inductive field_kind : Type := ForeignKey | OneToOneField.

Definition is_unique (k : field_kind) : bool :=
  match k with
  | OneToOneField => true
  | ForeignKey => false
  end.

(** The two relations declared by [Application] and [WorkerProfile.user]. *)
Definition application_order_field : field_kind := OneToOneField.
Definition application_sending_field : field_kind := ForeignKey.
Definition worker_user_field : field_kind := OneToOneField.

Fixpoint nodupb (l : list Z) : bool :=
  match l with
  | [] => true
  | x :: l' => negb (existsb (Z.eqb x) l') && nodupb l'
  end.

Definition unique_pk {A} (pk : A -> Z) (rows : list A) : bool :=
  nodupb (map pk rows).

Definition has_pk {A} (pk : A -> Z) (k : Z) (rows : list A) : bool :=
  existsb (fun r => pk r =? k) rows.

(** The unique index a [OneToOneField] puts on its column. *)
Definition unique_column (k : field_kind) {A} (col : A -> Z) (rows : list A)
  : bool :=
  if is_unique k then nodupb (map col rows) else true.

Definition integrity (st : Store) : bool :=
  unique_pk User.id (users st)
  && unique_pk Company.id (companies st)
  && unique_pk WorkerProfile.id (workers st)
  && unique_pk City.id (cities st)
  && unique_pk Warehouse.id (warehouses st)
  && unique_pk Order.id (orders st)
  && unique_pk Sending.id (sendings st)
  && unique_pk Application.id (applications st)
  && forallb (fun w => has_pk User.id (WorkerProfile.user w) (users st)
                       && has_pk Company.id (WorkerProfile.company w)
                                 (companies st))
             (workers st)
  && forallb (fun w => has_pk City.id (Warehouse.city w) (cities st))
             (warehouses st)
  && forallb (fun o => has_pk User.id (Order.user o) (users st)) (orders st)
  && forallb (fun s => has_pk Warehouse.id (Sending.departure_warehouse s)
                              (warehouses st)
                       && has_pk Warehouse.id (Sending.arrival_warehouse s)
                                 (warehouses st)
                       && has_pk Company.id (Sending.company s) (companies st))
             (sendings st)
  && forallb (fun a => has_pk Order.id (Application.order a) (orders st)
                       && has_pk Sending.id (Application.sending a)
                                 (sendings st))
             (applications st)
  && unique_column worker_user_field WorkerProfile.user (workers st)
  && unique_column application_order_field Application.order (applications st).

(** [DecimalField(max_digits, decimal_places)]: what the column can hold. *)
Definition decimal_field (max_digits decimal_places : Z) (x : Dec.t) : bool :=
  (Dec.dexp x =? - decimal_places) && (Z.abs (Dec.coef x) <? 10 ^ max_digits).

(** ** Writes to the [Application] table

    [save_application] is [Model.save]: an UPDATE when a row with the primary
    key exists, an INSERT otherwise.  Either is refused with
    [IntegrityError] when a foreign key dangles or a unique column would
    hold a value twice.  Each write is checked on its own, as it is outside
    a transaction. *)

Definition set_applications (st : Store) (apps : list Application.t) : Store :=
  mkStore (users st) (companies st) (workers st) (cities st) (warehouses st)
          (orders st) (sendings st) (sending_orders st) apps.

(** Would [a] break a constraint next to the rows [others]? *)
Definition conflicts (st : Store) (others : list Application.t)
  (a : Application.t) : bool :=
  negb (has_pk Order.id (Application.order a) (orders st))
  || negb (has_pk Sending.id (Application.sending a) (sendings st))
  || (is_unique application_order_field
      && existsb (fun a' => Application.order a' =? Application.order a) others)
  || (is_unique application_sending_field
      && existsb (fun a' => Application.sending a' =? Application.sending a)
                 others).

Definition save_application (st : Store) (a : Application.t) : result Store :=
  let others :=
    filter (fun a' => negb (Application.id a' =? Application.id a))
           (applications st) in
  if conflicts st others a then Raise IntegrityError
  else if has_pk Application.id (Application.id a) (applications st) then
    Ok (set_applications st
          (map (fun a' => if Application.id a' =? Application.id a
                          then a else a')
               (applications st)))
  else Ok (set_applications st (applications st ++ [a])%list).

(** A primary key for the next row: one past the largest in the table. *)
Definition next_pk (apps : list Application.t) : Z :=
  1 + fold_right Z.max 0 (map Application.id apps).

(** [Application.objects.create(order=..., sending=..., status=..., info=...)] *)
Definition create_application (st : Store) (order sending : Z)
  (status info : string) : result Store :=
  save_application st
    (Application.mk (next_pk (applications st)) order sending status info).

(** One write to the store.  Rows of [Application] come and change through
    [save_application]; they go by a delete, their own or the cascade of a
    deleted order or sending ([on_delete=CASCADE]); a write to another table
    leaves them as they are. *)
Inductive step : Store -> Store -> Prop :=
| step_save st a st' :
    save_application st a = Ok st' -> step st st'
| step_delete st (keep : Application.t -> bool) :
    step st (set_applications st (filter keep (applications st)))
| step_other st st' :
    applications st' = applications st -> step st st'.

Definition empty_store : Store := mkStore [] [] [] [] [] [] [] [] [].

Inductive reachable : Store -> Prop :=
| reachable_empty : reachable empty_store
| reachable_step st st' : reachable st -> step st st' -> reachable st'.

(** ** The specification's arithmetic, over the rationals *)

Local Open Scope Q_scope.

(** The nearest integer, ties to even. *)
Definition Qround_half_even (x : Q) : Z :=
  let f := Qfloor x in
  match Qcompare (x - inject_Z f) (1 # 2) with
  | Lt => f
  | Gt => (f + 1)%Z
  | Eq => if Z.even f then f else (f + 1)%Z
  end.

(** [round(x, 2)] *)
Definition Qround2 (x : Q) : Q := inject_Z (Qround_half_even (x * 100)) / 100.

(** "Computes round(len*width*depth, 2), then divides by 1,000,000". *)
Definition spec_cargo_volume (len width depth : Q) : Q :=
  Qround2 (len * width * depth) / 1000000.

Definition Qsum (xs : list Q) : Q := fold_right Qplus 0 xs.

Local Close Scope Q_scope.

(** ** Exact results

    [exact_at x e n]: the decimal [x] stands for [n * 10 ^ e] and its own
    exponent is not below [e]. *)

Definition exact_at (x : Dec.t) (e n : Z) : Prop :=
  e <= Dec.dexp x /\ Dec.coef x * 10 ^ (Dec.dexp x - e) = n.

(** The product of three one-decimal dimensions, in thousandths of cm^3. *)
Definition product_milli (o : Order.t) : Z :=
  Dec.coef (Order.cargo_len o) * Dec.coef (Order.cargo_width o)
  * Dec.coef (Order.cargo_depth o).

(** A decimal in units of 10^-8, the grain of a cargo volume. *)
Definition units8 (v : Dec.t) : Z := Dec.coef v * 10 ^ (Dec.dexp v + 8).

Definition Zsum (l : list Z) : Z := fold_right Z.add 0 l.

(** "every order attached to the sending (via its applications)": the
    orders some application links to the sending. *)
Definition orders_via_applications (st : Store) (s : Sending.t)
  : list Order.t :=
  filter
    (fun o => existsb (fun a => (Application.order a =? Order.id o)
                                && (Application.sending a =? Sending.id s))
                      (applications st))
    (orders st).

(** ** Sample rows *)

Definition sample_order (id user departure_city arrival_city : Z)
  (departure_date : date) (len width depth : Dec.t) : Order.t :=
  Order.mk id user departure_city arrival_city "A. Sender" "B. Recipient"
           false "" false "" departure_date "PACK" len width depth
           (Dec.mk 1000 (-2)) (Dec.mk 0 (-2)) "".

(** 100.0 x 50.0 x 20.0 cm, 10.0 x 10.0 x 10.0 cm, and the largest box the
    three columns can hold. *)
Definition order_100_50_20 : Order.t :=
  sample_order 1 1 1 2 (mkdate 2024 1 1)
               (Dec.mk 1000 (-1)) (Dec.mk 500 (-1)) (Dec.mk 200 (-1)).

Definition order_10_10_10 : Order.t :=
  sample_order 2 1 1 2 (mkdate 2024 1 1)
               (Dec.mk 100 (-1)) (Dec.mk 100 (-1)) (Dec.mk 100 (-1)).

Definition order_huge : Order.t :=
  sample_order 3 1 1 2 (mkdate 2024 1 1)
               (Dec.mk 9999999999 (-1)) (Dec.mk 9999999999 (-1))
               (Dec.mk 9999999999 (-1)).

(** A store after the specification's scenario: sending 1 leaves city 1 for
    city 2 on 2024-03-01 with 10.00 m^3; orders 1, 2 and 3 match its route
    and date, order 4 leaves a day later; order 2 has an application that
    waits, order 3 one that is confirmed; orders 1 and 2 are in
    [sending.orders]; the company has three workers, two of them with the
    same address. *)
Definition the_day : date := mkdate 2024 3 1.

Definition order_1 : Order.t :=
  sample_order 1 1 1 2 the_day
               (Dec.mk 1000 (-1)) (Dec.mk 500 (-1)) (Dec.mk 200 (-1)).
Definition order_2 : Order.t :=
  sample_order 2 2 1 2 the_day
               (Dec.mk 1000 (-1)) (Dec.mk 500 (-1)) (Dec.mk 400 (-1)).
Definition order_3 : Order.t :=
  sample_order 3 1 1 2 the_day
               (Dec.mk 100 (-1)) (Dec.mk 100 (-1)) (Dec.mk 100 (-1)).
Definition order_4 : Order.t :=
  sample_order 4 2 1 2 (mkdate 2024 3 2)
               (Dec.mk 100 (-1)) (Dec.mk 100 (-1)) (Dec.mk 100 (-1)).

Definition sending_1 : Sending.t :=
  Sending.mk 1 1 1 the_day 2 (mkdate 2024 3 4) (Dec.mk 1000 (-2)) 1
             (Dec.mk 50000 (-2)).

Definition application_2 : Application.t := Application.mk 1 2 1 "WAIT" "".
Definition application_3 : Application.t := Application.mk 2 3 1 "CONF" "".

Definition shop : Store :=
  mkStore
    [User.mk 1 "alice" "alice@example.com"; User.mk 2 "bob" "bob@example.com";
     User.mk 3 "w1" "desk@carrier.example"; User.mk 4 "w2" "desk@carrier.example";
     User.mk 5 "w3" "boss@carrier.example"; User.mk 6 "x" "x@other.example"]
    [Company.mk 1 "Carrier" ""; Company.mk 2 "Other" ""]
    [WorkerProfile.mk 1 3 1 "clerk"; WorkerProfile.mk 2 4 1 "clerk";
     WorkerProfile.mk 3 6 2 "clerk"; WorkerProfile.mk 4 5 1 "head"]
    [City.mk 1 "A" 1; City.mk 2 "B" 1]
    [Warehouse.mk 1 "Dock 1" 1 1; Warehouse.mk 2 "Dock 2" 1 2]
    [order_1; order_2; order_3; order_4]
    [sending_1]
    [(1, 1); (1, 2)]
    [application_2; application_3].

(** A sending with a confirmed application for order 1 and nothing in
    [sending.orders]. *)
Definition shop_unlinked : Store :=
  mkStore (users shop) (companies shop) (workers shop) (cities shop)
          (warehouses shop) [order_1] [sending_1] []
          [Application.mk 1 1 1 "CONF" ""].

(** A sending of 0.10 m^3 that carries order 2 (0.2 m^3). *)
Definition sending_small : Sending.t :=
  Sending.mk 1 1 1 the_day 2 (mkdate 2024 3 4) (Dec.mk 10 (-2)) 1
             (Dec.mk 50000 (-2)).

Definition shop_overbooked : Store :=
  mkStore (users shop) (companies shop) (workers shop) (cities shop)
          (warehouses shop) [order_2] [sending_small] [(1, 2)] [].

(** The constraints of [integrity], one by one. *)
Record constraints (st : Store) : Prop := {
  c_users : unique_pk User.id (users st) = true;
  c_companies : unique_pk Company.id (companies st) = true;
  c_cities : unique_pk City.id (cities st) = true;
  c_warehouses : unique_pk Warehouse.id (warehouses st) = true;
  c_orders : unique_pk Order.id (orders st) = true;
  c_sendings : unique_pk Sending.id (sendings st) = true;
  c_applications : unique_pk Application.id (applications st) = true;
  c_worker_user :
    forall w, In w (workers st) ->
              has_pk User.id (WorkerProfile.user w) (users st) = true;
  c_worker_company :
    forall w, In w (workers st) ->
              has_pk Company.id (WorkerProfile.company w) (companies st) = true;
  c_warehouse_city :
    forall w, In w (warehouses st) ->
              has_pk City.id (Warehouse.city w) (cities st) = true;
  c_order_user :
    forall o, In o (orders st) ->
              has_pk User.id (Order.user o) (users st) = true;
  c_sending_departure :
    forall s, In s (sendings st) ->
              has_pk Warehouse.id (Sending.departure_warehouse s)
                     (warehouses st) = true;
  c_sending_arrival :
    forall s, In s (sendings st) ->
              has_pk Warehouse.id (Sending.arrival_warehouse s)
                     (warehouses st) = true;
  c_application_order :
    forall a, In a (applications st) ->
              has_pk Order.id (Application.order a) (orders st) = true;
  c_application_sending :
    forall a, In a (applications st) ->
              has_pk Sending.id (Application.sending a) (sendings st) = true;
  c_one_to_one : unique_pk Application.order (applications st) = true
}.

(** The two unique indexes of the [Application] table. *)
Definition indexes_hold (st : Store) : Prop :=
  NoDup (map Application.id (applications st))
  /\ NoDup (map Application.order (applications st)).

(** A template engine to run the receivers with. *)
Definition sample_render (template : string) (c : context) : string :=
  "<p>" ++ template ++ "</p>".

Definition sample_strip_tags (html : string) : string := html.

(** ** The rest of the models

    [get_FOO_display], [Application.price] and the dispatch of [post_save]
    to the two receivers of [Application]. *)

(** [dict(choices).get(key)]: of two pairs with one key the later counts. *)
Fixpoint dict_get (d : list (string * string)) (key : string)
  : option string :=
  match d with
  | [] => None
  | (k, v) :: rest =>
      match dict_get rest key with
      | Some v' => Some v'
      | None => if (k =? key)%string then Some v else None
      end
  end.

(** [Model._get_FIELD_display]: the label of the value, or the value itself
    when the choices do not list it. *)
Definition get_display (choices : list (string * string)) (value : string)
  : string :=
  match dict_get choices value with
  | Some label => label
  | None => value
  end.

Definition get_status_display (self : Application.t) : string :=
  get_display Application.STATUS_SET (Application.status self).

Definition TRANSPORT_TYPE_SET : list (string * string) :=
  [("CAR", "Грузовик"); ("TRAIN", "Поезд"); ("PLANE", "Самолёт");
   ("SHIP", "Корабль")].

Definition get_transport_type_display (self : Transport.t) : string :=
  get_display TRANSPORT_TYPE_SET (Transport.transport_type self).

(** [instance.sending] *)
Definition get_sending (st : Store) (k : Z) : result Sending.t :=
  get (by_pk Sending.id k (sendings st)).

(** [Application.price].  The binary floating-point numbers of Python stay
    abstract: [float(x)] of a decimal, [*] and [round(x, ndigits)], which
    may raise. *)
Section Price.

Variable float : Type.
Variable float_of_decimal : Dec.t -> float.
Variable float_mul : float -> float -> float.
Variable float_round : float -> Z -> result float.

Definition price (st : Store) (self : Application.t) : result float :=
  (o <-- get_order st (Application.order self) ;;
   cv <-- Order.cargo_volume o ;;
   s <-- get_sending st (Application.sending self) ;;
   float_round (float_mul (float_of_decimal cv)
                          (float_of_decimal (Sending.price_for_m3 s))) 2)%result.

End Price.

(** ** Python's [float]: binary64

    A [float] is a binary64 number of [SpecFloat]; every operation rounds
    to the nearest double, ties to even. *)

Module Float.

Definition prec : Z := 53.
Definition emax : Z := 1024.

Definition t : Type := spec_float.

(** [float(s)] of a decimal numeral that stands for [n / d] under the sign
    [s]: the double nearest to it ([0 <= n], [0 < d]); past the largest
    double it is an infinity. *)
Definition nearest (s : bool) (n d : Z) : t :=
  match n, d with
  | Zpos n', Zpos d' =>
      SFdiv prec emax (S754_finite s n' 0) (S754_finite false d' 0)
  | _, _ => S754_zero s
  end.

(** [Decimal.__float__] is [float(str(self))].  A zero comes out positive,
    [Dec.t] having no sign for it. *)
Definition of_decimal (x : Dec.t) : t :=
  let s := Dec.coef x <? 0 in
  if 0 <=? Dec.dexp x
  then nearest s (Z.abs (Dec.coef x) * 10 ^ Dec.dexp x) 1
  else nearest s (Z.abs (Dec.coef x)) (10 ^ (- Dec.dexp x)).

(** [x * y] *)
Definition mul : t -> t -> t := SFmul prec emax.

(** [float.__round__(ndigits)]: zeros, infinities and NaN round to
    themselves; a finite [x] is written out with [ndigits] decimals,
    correctly rounded, ties to even, and the numeral is read back as a
    double, which raises [OverflowError] when it is out of range.  Past
    323 decimals [x] is returned as it is, and before the 308th digit left
    of the point a zero of its sign. *)
Definition round (x : t) (ndigits : Z) : result t :=
  match x with
  | S754_finite s m e =>
      if ndigits >? 323 then Ok x
      else if ndigits <? -308 then Ok (S754_zero s)
      else
        let up := 10 ^ Z.max ndigits 0 in
        let down := 10 ^ Z.max (- ndigits) 0 in
        let r := Dec.div_half_even (Zpos m * 2 ^ Z.max e 0 * up)
                                   (2 ^ Z.max (- e) 0 * down) in
        match nearest s (r * down) up with
        | S754_infinity _ => Raise OverflowError
        | y => Ok y
        end
  | _ => Ok x
  end.

(** The rational a finite double stands for. *)
Definition val (x : t) : Q :=
  match x with
  | S754_finite s m e =>
      ((if s then inject_Z (Zneg m) else inject_Z (Zpos m))
       * Qpower (2 # 1) e)%Q
  | _ => 0%Q
  end.

End Float.

(** [Application.price] as Python runs it. *)
Definition price_binary64 (st : Store) (self : Application.t)
  : result Float.t :=
  price Float.t Float.of_decimal Float.mul Float.round st self.

(** [post_save.send(sender=Application, instance=..., created=...)]: the
    receivers run in the order the module connects them, and the first to
    raise ends the dispatch. *)
Section Dispatch.

Variable render_to_string : string -> context -> string.
Variable strip_tags : string -> string.
Variable SITE_URL : string.
Variable DEFAULT_FROM_EMAIL : string.

Definition post_save_application (st : Store) (instance : Application.t)
  (created : bool) : Sig unit :=
  (application_status_email render_to_string strip_tags SITE_URL
                            DEFAULT_FROM_EMAIL st instance created ;;;
   application_created_email render_to_string strip_tags SITE_URL
                             DEFAULT_FROM_EMAIL st instance created)%sig.

End Dispatch.

(** More sample rows: order 1 of the 100 x 50 x 20 box laid on another
    side, a speck of 0.1 x 0.1 x 0.5 cm, [shop] with the rows of
    [sending.orders] the other way round, and a sending that carries the
    largest box. *)
Definition order_20_100_50 : Order.t :=
  sample_order 9 1 1 2 the_day
               (Dec.mk 200 (-1)) (Dec.mk 1000 (-1)) (Dec.mk 500 (-1)).

Definition order_speck : Order.t :=
  sample_order 9 1 1 2 the_day
               (Dec.mk 1 (-1)) (Dec.mk 1 (-1)) (Dec.mk 5 (-1)).

Definition shop_reordered : Store :=
  mkStore (users shop) (companies shop) (workers shop) (cities shop)
          (warehouses shop) (orders shop) (sendings shop) [(1, 2); (1, 1)]
          (applications shop).

Definition shop_huge : Store :=
  mkStore (users shop) (companies shop) (workers shop) (cities shop)
          (warehouses shop) [order_1; order_huge] [sending_1]
          [(1, 1); (1, 3)] [].

(** [shop] after every worker has left. *)
Definition shop_unstaffed : Store :=
  mkStore (users shop) (companies shop) [] (cities shop) (warehouses shop)
          (orders shop) (sendings shop) (sending_orders shop)
          (applications shop).

(** The confirmed application of [shop_unlinked]: order 1 (0.1 m^3) on
    sending 1 (500.00 per m^3). *)
Definition application_1 : Application.t := Application.mk 1 1 1 "CONF" "".

(** A sending at 205.00 per m^3, and a store where order 3 (0.001 m^3) has
    applied for it. *)
Definition sending_205 : Sending.t :=
  Sending.mk 1 1 1 the_day 2 (mkdate 2024 3 4) (Dec.mk 1000 (-2)) 1
             (Dec.mk 20500 (-2)).

Definition shop_205 : Store :=
  mkStore (users shop) (companies shop) (workers shop) (cities shop)
          (warehouses shop) [order_3] [sending_205] [] [application_3].

(** Exact rationals to run [price] with, in place of binary floats. *)
Definition sample_float_round (x : Q) (ndigits : Z) : result Q :=
  Ok (Qround2 x).

(** A longer box than [order_1], and [shop] before order 2 joined the
    [orders] relation of sending 1. *)
Definition order_120_50_20 : Order.t :=
  sample_order 9 1 1 2 the_day
               (Dec.mk 1200 (-1)) (Dec.mk 500 (-1)) (Dec.mk 200 (-1)).

Definition shop_before : Store :=
  mkStore (users shop) (companies shop) (workers shop) (cities shop)
          (warehouses shop) (orders shop) (sendings shop) [(1, 2)]
          (applications shop).

(** * Properties *)

(** ** Dates and the day count *)

Example ord_2024 : toordinal (mkdate 2024 1 1) = 738886.
Proof. reflexivity. Qed.

Lemma date_eqb_eq (a b : date) : date_eqb a b = true <-> a = b.
Proof.
  unfold date_eqb. destruct a as [y m d], b as [y' m' d']; simpl.
  rewrite !andb_true_iff, !Z.eqb_eq. split.
  - intros [[-> ->] ->]. reflexivity.
  - intros H. injection H as -> -> ->. auto.
Qed.

Example days_1 :
  Days.days (mkdate 2024 1 2) (mkdate 2024 1 1) = "1 день".
Proof. reflexivity. Qed.

(** ** Sanity checks of the decimal arithmetic *)

Example dec_round_ties :
  Dec.round (Dec.mk 125 (-3)) 2 = Ok (Dec.mk 12 (-2)) /\
  Dec.round (Dec.mk 135 (-3)) 2 = Ok (Dec.mk 14 (-2)) /\
  Dec.round (Dec.mk (-125) (-3)) 2 = Ok (Dec.mk (-12) (-2)).
Proof. repeat split. Qed.

Example dec_div_examples :
  Dec.truediv (Dec.mk 10000000 (-2)) (Dec.of_int 1000000) = Ok (Dec.mk 10 (-2)) /\
  Dec.truediv (Dec.mk 12 (-2)) (Dec.of_int 1000000) = Ok (Dec.mk 12 (-8)) /\
  Dec.truediv (Dec.mk 1 0) (Dec.of_int 3)
    = Ok (Dec.mk 3333333333333333333333333333 (-28)) /\
  Dec.truediv (Dec.mk 2 0) (Dec.of_int 3)
    = Ok (Dec.mk 6666666666666666666666666667 (-28)).
Proof. repeat split; vm_compute; reflexivity. Qed.

Example dec_mul_big :
  Dec.mul (Dec.mul (Dec.mk 9999999999 (-1)) (Dec.mk 9999999999 (-1)))
          (Dec.mk 9999999999 (-1))
  = Dec.mk 9999999997000000000300000000 (-1).
Proof. vm_compute. reflexivity. Qed.

(** ** Sanity checks of the binary64 arithmetic

    [float(Decimal('0.1'))], [float(Decimal('-12.5'))],
    [float(Decimal('1E+400'))] and the two sides of the smallest double;
    [0.1 * 3.0]; [round(0.125, 2)], [round(0.375, 2)], [round(2.675, 2)],
    [round(-0.001, 2)] and [round(1.7976931348623157e308, -308)]. *)

Example float_of_decimal_examples :
  Float.of_decimal (Dec.mk 1 (-1)) = S754_finite false 7205759403792794 (-56)
  /\ Float.of_decimal (Dec.mk (-125) (-1))
     = S754_finite true 7036874417766400 (-49)
  /\ Float.of_decimal (Dec.mk 1 400) = S754_infinity false
  /\ Float.of_decimal (Dec.mk 5 (-324)) = S754_finite false 1 (-1074)
  /\ Float.of_decimal (Dec.mk 2 (-324)) = S754_zero false.
Proof. repeat split; vm_compute; reflexivity. Qed.

Example float_mul_inexact :
  Float.mul (S754_finite false 7205759403792794 (-56))
            (S754_finite false 6755399441055744 (-51))
  = S754_finite false 5404319552844596 (-54)
  /\ Float.of_decimal (Dec.mk 3 (-1))
     = S754_finite false 5404319552844595 (-54).
Proof. split; vm_compute; reflexivity. Qed.

Example float_round_examples :
  Float.round (S754_finite false 4503599627370496 (-55)) 2
  = Ok (S754_finite false 8646911284551352 (-56))
  /\ Float.round (S754_finite false 6755399441055744 (-54)) 2
     = Ok (S754_finite false 6845471433603154 (-54))
  /\ Float.round (S754_finite false 6023564501608038 (-51)) 2
     = Ok (S754_finite false 6012305502539612 (-51))
  /\ Float.round (S754_finite true 4611686018427388 (-62)) 2
     = Ok (S754_zero true)
  /\ Float.round (S754_finite false 9007199254740991 971) (-308)
     = Raise OverflowError.
Proof. repeat split; vm_compute; reflexivity. Qed.

(** ** [Sending.days] *)

Lemma plural_index_cases (n : Z) :
  (Days.plural_index n = 0%nat /\ n mod 10 = 1 /\ n mod 100 <> 11)
  \/ (Days.plural_index n = 1%nat
      /\ (2 <= n mod 10 <= 4) /\ ~ (10 <= n mod 100 < 20))
  \/ (Days.plural_index n = 2%nat
      /\ ~ (n mod 10 = 1 /\ n mod 100 <> 11)
      /\ ~ ((2 <= n mod 10 <= 4) /\ ~ (10 <= n mod 100 < 20))).
Proof.
  unfold Days.plural_index.
  destruct (n mod 10 =? 1) eqn:E1; destruct (n mod 100 =? 11) eqn:E2;
    destruct (2 <=? n mod 10) eqn:E3; destruct (n mod 10 <=? 4) eqn:E4;
    destruct (n mod 100 <? 10) eqn:E5; destruct (n mod 100 >=? 20) eqn:E6;
    simpl;
    rewrite ?Z.eqb_eq, ?Z.eqb_neq, ?Z.leb_le, ?Z.leb_gt, ?Z.ltb_lt,
      ?Z.ltb_ge, ?Z.geb_leb, ?Z.leb_le, ?Z.leb_gt in *;
    try rewrite Z.geb_leb in E6;
    rewrite ?Z.leb_le, ?Z.leb_gt in *;
    first [ left; split; [reflexivity | lia]
          | right; left; split; [reflexivity | lia]
          | right; right; split; [reflexivity | lia] ].
Qed.

Ltac form_iff :=
  split;
  [ let E := fresh "E" in
    intros E; first [discriminate E | tauto | lia]
  | let C := fresh "C" in
    intros C; first [reflexivity | exfalso; first [tauto | lia]] ].

(** C4. [Sending.days] renders the day difference [n] between arrival and
    departure followed by the plural form of the three-way Russian rule,
    with [%] as Python's modulo: "день" when [n % 10 = 1] and
    [n % 100 <> 11]; "дня" when [2 <= n % 10 <= 4] and [n % 100] is outside
    [10, 20); "дней" otherwise.  So 1, 11, 22 and 25 days read "1 день",
    "11 дней", "22 дня" and "25 дней". *)
Theorem days_plural_rule :
  (forall self : Sending.t,
      let n := date_sub_days (Sending.arrival_date self)
                             (Sending.departure_date self) in
      exists form,
        Sending.days self = str_of_int n ++ " " ++ form
        /\ (form = "день" <-> n mod 10 = 1 /\ n mod 100 <> 11)
        /\ (form = "дня"
            <-> (2 <= n mod 10 <= 4) /\ ~ (10 <= n mod 100 < 20))
        /\ (form = "дней"
            <-> ~ (n mod 10 = 1 /\ n mod 100 <> 11)
                /\ ~ ((2 <= n mod 10 <= 4) /\ ~ (10 <= n mod 100 < 20))))
  /\ Days.days (mkdate 2024 1 2) (mkdate 2024 1 1) = "1 день"
  /\ Days.days (mkdate 2024 1 12) (mkdate 2024 1 1) = "11 дней"
  /\ Days.days (mkdate 2024 1 23) (mkdate 2024 1 1) = "22 дня"
  /\ Days.days (mkdate 2024 1 26) (mkdate 2024 1 1) = "25 дней".
Proof.
  split; [| repeat split].
  intros self n. unfold Sending.days, Days.days, Days.days_label. fold n.
  destruct (plural_index_cases n) as [(-> & H) | [(-> & H) | (-> & H)]].
  - exists "день". simpl nth. split; [reflexivity |].
    split; [form_iff | split; form_iff].
  - exists "дня". simpl nth. split; [reflexivity |].
    split; [form_iff | split; form_iff].
  - exists "дней". simpl nth. split; [reflexivity |].
    split; [form_iff | split; form_iff].
Qed.


(** ** Counting digits *)

Lemma digits_fuel_pos (f : nat) : forall n, 1 <= Dec.digits_fuel f n.
Proof.
  induction f as [| f IH]; intros n; cbn [Dec.digits_fuel]; [lia |].
  destruct (n <? 10); [lia |]. specialize (IH (n / 10)). lia.
Qed.

Lemma pow10_succ (k : Z) : 1 <= k -> 10 ^ k = 10 * 10 ^ (k - 1).
Proof.
  intros Hk. rewrite <- Z.pow_succ_r by lia. f_equal. lia.
Qed.

Lemma pow10_ge_10 (k : Z) : 1 <= k -> 10 <= 10 ^ k.
Proof.
  intros Hk. change 10 with (10 ^ 1) at 1. apply Z.pow_le_mono_r; lia.
Qed.

Lemma digits_fuel_le (f : nat) :
  forall n k, 0 <= n < 2 ^ (Z.of_nat f + 1) -> 1 <= k ->
              (Dec.digits_fuel f n <= k <-> n < 10 ^ k).
Proof.
  induction f as [| f IH]; intros n k Hn Hk.
  - pose proof (pow10_ge_10 k Hk). simpl in *. lia.
  - cbn [Dec.digits_fuel]. destruct (n <? 10) eqn:E.
    + apply Z.ltb_lt in E. pose proof (pow10_ge_10 k Hk). lia.
    + apply Z.ltb_ge in E.
      assert (Hpow : 2 ^ (Z.of_nat (S f) + 1) = 2 * 2 ^ (Z.of_nat f + 1)).
      { rewrite <- Z.pow_succ_r by lia. f_equal. lia. }
      assert (Hdiv : 0 <= n / 10 < 2 ^ (Z.of_nat f + 1)).
      { split; [apply Z.div_pos; lia |].
        apply Z.div_lt_upper_bound; lia. }
      pose proof (digits_fuel_pos f (n / 10)) as Hpos.
      destruct (Z.eq_dec k 1) as [-> | Hk1].
      * change (10 ^ 1) with 10. lia.
      * specialize (IH (n / 10) (k - 1) Hdiv ltac:(lia)).
        rewrite (pow10_succ k Hk).
        pose proof (Z.div_mod n 10 ltac:(lia)) as Hdm.
        pose proof (Z.mod_pos_bound n 10 ltac:(lia)) as Hmb.
        split; intros H.
        -- assert (n / 10 < 10 ^ (k - 1)) by (apply IH; lia). lia.
        -- assert (H0 : n / 10 < 10 ^ (k - 1))
             by (apply Z.div_lt_upper_bound; lia).
           apply IH in H0. lia.
Qed.

Lemma ndigits_le (n k : Z) :
  1 <= k -> (Dec.ndigits n <= k <-> Z.abs n < 10 ^ k).
Proof.
  intros Hk. unfold Dec.ndigits. apply digits_fuel_le; [| exact Hk].
  rewrite Z2Nat.id by apply Z.log2_nonneg.
  split; [lia |].
  destruct (Z.eq_dec (Z.abs n) 0) as [-> | Hn]; [reflexivity |].
  replace (Z.log2 (Z.abs n) + 1) with (Z.succ (Z.log2 (Z.abs n))) by lia.
  apply Z.log2_spec. lia.
Qed.

Lemma ndigits_pos (n : Z) : 1 <= Dec.ndigits n.
Proof. apply digits_fuel_pos. Qed.

Lemma ndigits_gt (n k : Z) :
  1 <= k -> (k < Dec.ndigits n <-> 10 ^ k <= Z.abs n).
Proof.
  intros Hk. pose proof (ndigits_le n k Hk). lia.
Qed.

(** ** Rounding a quotient half to even *)

Lemma dhe_cases (n d : Z) :
  0 < d ->
  let q := n / d in
  let r := n mod d in
  n = d * q + r /\ 0 <= r < d
  /\ ((Dec.div_half_even n d = q /\ 2 * r <= d)
      \/ (Dec.div_half_even n d = q + 1 /\ d <= 2 * r)).
Proof.
  intros Hd q r. split; [apply Z.div_mod; lia |].
  split; [apply Z.mod_pos_bound; lia |].
  unfold Dec.div_half_even. fold q r.
  destruct (2 * r ?= d) eqn:E.
  - apply Z.compare_eq in E. destruct (Z.even q); [left | right]; lia.
  - rewrite Z.compare_lt_iff in E. left. lia.
  - rewrite Z.compare_gt_iff in E. right. lia.
Qed.

Lemma dhe_exact (q d : Z) : 0 < d -> Dec.div_half_even (q * d) d = q.
Proof.
  intros Hd. unfold Dec.div_half_even.
  rewrite Z.div_mul by lia. rewrite Z.mod_mul by lia.
  replace (2 * 0) with 0 by lia.
  destruct (0 ?= d) eqn:E; [apply Z.compare_eq in E; lia | reflexivity |].
  rewrite Z.compare_gt_iff in E. lia.
Qed.

Lemma dhe_scale (n d m : Z) :
  0 < d -> 0 < m ->
  Dec.div_half_even (n * m) (d * m) = Dec.div_half_even n d.
Proof.
  intros Hd Hm. unfold Dec.div_half_even.
  rewrite Z.div_mul_cancel_r by lia.
  rewrite Z.mul_mod_distr_r by lia.
  replace (2 * (n mod d * m)) with (2 * (n mod d) * m) by ring.
  rewrite <- (Zmult_compare_compat_r (2 * (n mod d)) d m) by lia.
  reflexivity.
Qed.

Lemma dhe_abs_le (n d : Z) : 0 < d -> Z.abs (Dec.div_half_even n d) <= Z.abs n.
Proof.
  intros Hd. destruct (dhe_cases n d Hd) as (Hn & Hr & Hc).
  set (q := n / d) in *. set (r := n mod d) in *.
  destruct (Z.eq_dec d 1) as [-> | Hd1]; [lia |].
  assert (Hq : q < 0 \/ q = 0 \/ 0 < q) by lia.
  destruct Hq as [Hq | [Hq | Hq]]; destruct Hc as [[-> H] | [-> H]]; nia.
Qed.

(** A quotient of magnitude at least [B] rounds to magnitude at least [B]. *)
Lemma dhe_abs_ge (n d B : Z) :
  0 < d -> 0 <= B -> B * d <= Z.abs n -> B <= Z.abs (Dec.div_half_even n d).
Proof.
  intros Hd HB Hn. destruct (dhe_cases n d Hd) as (Hnq & Hr & Hc).
  set (q := n / d) in *. set (r := n mod d) in *.
  destruct (Z_le_gt_dec 0 n) as [Hpos | Hneg].
  - assert (B <= q) by nia. destruct Hc as [[-> _] | [-> _]]; lia.
  - assert (Hq : q <= - B) by nia.
    destruct (Z.eq_dec q (- B)) as [Hq' | Hq'].
    + assert (r = 0) by nia. destruct Hc as [[-> _] | [-> ?]]; lia.
    + destruct Hc as [[-> _] | [-> _]]; lia.
Qed.

(** ** The context leaves short coefficients alone *)

Lemma fix_id (x : Dec.t) :
  Z.abs (Dec.coef x) < 10 ^ 28 -> Dec.fix_ x = x.
Proof.
  intros H. unfold Dec.fix_.
  apply (ndigits_le (Dec.coef x) 28) in H; [| lia].
  unfold Dec.prec. destruct (Dec.ndigits (Dec.coef x) <=? 28) eqn:E.
  - reflexivity.
  - apply Z.leb_gt in E. lia.
Qed.

Lemma pow10_pos (k : Z) : 0 <= k -> 1 <= 10 ^ k.
Proof.
  intros Hk. change 1 with (10 ^ 0) at 1. apply Z.pow_le_mono_r; lia.
Qed.

Lemma pow10_add (a b : Z) : 0 <= a -> 0 <= b -> 10 ^ (a + b) = 10 ^ a * 10 ^ b.
Proof. intros. apply Z.pow_add_r; assumption. Qed.

Lemma exact_at_abs (x : Dec.t) (e n : Z) :
  exact_at x e n -> Z.abs (Dec.coef x) <= Z.abs n.
Proof.
  intros [He <-]. rewrite Z.abs_mul.
  pose proof (pow10_pos (Dec.dexp x - e) ltac:(lia)).
  rewrite (Z.abs_eq (10 ^ _)) by lia. nia.
Qed.

Lemma exact_at_lower (x : Dec.t) (e e' n : Z) :
  exact_at x e n -> e' <= e -> exact_at x e' (n * 10 ^ (e - e')).
Proof.
  intros [He <-] He'. split; [lia |].
  replace (Dec.dexp x - e') with ((Dec.dexp x - e) + (e - e')) by lia.
  rewrite pow10_add by lia. ring.
Qed.

Lemma exact_at_neg (x : Dec.t) (e n : Z) :
  exact_at x e n -> exact_at (Dec.neg x) e (- n).
Proof.
  intros [He <-]. split; simpl; [exact He | ring].
Qed.

Lemma add_exact (a b : Dec.t) (e x y : Z) :
  exact_at a e x -> exact_at b e y -> Z.abs (x + y) < 10 ^ 28 ->
  exact_at (Dec.add a b) e (x + y).
Proof.
  intros [Ha <-] [Hb <-] Hxy. unfold Dec.add.
  set (m := Z.min (Dec.dexp a) (Dec.dexp b)) in *.
  assert (Hm : e <= m) by (unfold m; lia).
  assert (Hma : m <= Dec.dexp a) by (unfold m; lia).
  assert (Hmb : m <= Dec.dexp b) by (unfold m; lia).
  set (c := Dec.coef a * 10 ^ (Dec.dexp a - m)
            + Dec.coef b * 10 ^ (Dec.dexp b - m)).
  assert (Hc : c * 10 ^ (m - e)
               = Dec.coef a * 10 ^ (Dec.dexp a - e)
                 + Dec.coef b * 10 ^ (Dec.dexp b - e)).
  { unfold c.
    replace (Dec.dexp a - e) with ((Dec.dexp a - m) + (m - e)) by lia.
    replace (Dec.dexp b - e) with ((Dec.dexp b - m) + (m - e)) by lia.
    rewrite !pow10_add by lia. ring. }
  assert (Habs : Z.abs c < 10 ^ 28).
  { pose proof (pow10_pos (m - e) ltac:(lia)) as Hp.
    rewrite <- Hc in Hxy. rewrite Z.abs_mul in Hxy.
    rewrite (Z.abs_eq (10 ^ _)) in Hxy by lia. nia. }
  rewrite fix_id by exact Habs.
  split; simpl; [exact Hm | exact Hc].
Qed.

Lemma sub_exact (a b : Dec.t) (e x y : Z) :
  exact_at a e x -> exact_at b e y -> Z.abs (x - y) < 10 ^ 28 ->
  exact_at (Dec.sub a b) e (x - y).
Proof.
  intros Ha Hb Hxy. unfold Dec.sub.
  replace (x - y) with (x + - y) in * by lia.
  apply add_exact; [exact Ha | apply exact_at_neg; exact Hb | exact Hxy].
Qed.

(** ** [quantize] of an exact value *)

Lemma quantize_exact (x : Dec.t) (e t n : Z) :
  exact_at x e n -> e <= t -> Z.abs n < 10 ^ 28 ->
  Dec.quantize x t = Ok (Dec.mk (Dec.div_half_even n (10 ^ (t - e))) t).
Proof.
  intros Hx Het Hn. pose proof (exact_at_abs _ _ _ Hx) as Hc.
  destruct Hx as [He Hx]. unfold Dec.quantize.
  assert (Hd : 0 < 10 ^ (t - e)) by (apply Z.pow_pos_nonneg; lia).
  destruct (Dec.coef x =? 0) eqn:E0.
  { apply Z.eqb_eq in E0. rewrite E0 in Hx. simpl in Hx. subst n.
    change 0 with (0 * 10 ^ (t - e)) at 2. rewrite dhe_exact by exact Hd.
    reflexivity. }
  apply Z.eqb_neq in E0.
  (* the value the rescale computes *)
  assert (Hres : Dec.rescale x t
                 = Dec.mk (Dec.div_half_even n (10 ^ (t - e))) t).
  { unfold Dec.rescale. destruct (t <=? Dec.dexp x) eqn:Et.
    - apply Z.leb_le in Et. f_equal.
      assert (n = Dec.coef x * 10 ^ (Dec.dexp x - t) * 10 ^ (t - e)).
      { rewrite <- Hx.
        replace (Dec.dexp x - e) with ((Dec.dexp x - t) + (t - e)) by lia.
        rewrite pow10_add by lia. ring. }
      rewrite H at 1. rewrite dhe_exact by exact Hd. reflexivity.
    - apply Z.leb_gt in Et. f_equal.
      assert (Hp : 0 < 10 ^ (Dec.dexp x - e))
        by (apply Z.pow_pos_nonneg; lia).
      assert (Hp' : 0 < 10 ^ (t - Dec.dexp x))
        by (apply Z.pow_pos_nonneg; lia).
      rewrite <- Hx.
      replace (t - e) with ((t - Dec.dexp x) + (Dec.dexp x - e)) by lia.
      rewrite pow10_add by lia.
      rewrite dhe_scale by assumption. reflexivity. }
  assert (Hq : Z.abs (Dec.div_half_even n (10 ^ (t - e))) < 10 ^ 28).
  { pose proof (dhe_abs_le n _ Hd). lia. }
  (* the check before the rescale *)
  assert (Hpre : Dec.ndigits (Dec.coef x) + Dec.dexp x - t <= 28).
  { destruct (Z_le_gt_dec (Dec.dexp x) t) as [Hle | Hgt].
    - assert (Dec.ndigits (Dec.coef x) <= 28)
        by (apply ndigits_le; lia). lia.
    - set (j := Dec.dexp x - t) in *.
      assert (Hj : 0 < j) by (unfold j; lia).
      assert (Hcj : Z.abs (Dec.coef x) * 10 ^ j <= Z.abs n).
      { rewrite <- Hx. rewrite Z.abs_mul.
        rewrite (Z.abs_eq (10 ^ _))
          by (apply Z.pow_nonneg; lia).
        apply Z.mul_le_mono_nonneg_l; [lia |].
        apply Z.pow_le_mono_r; unfold j; lia. }
      assert (Hj28 : j < 28).
      { apply (Z.pow_lt_mono_r_iff 10); [lia | lia |].
        assert (1 <= Z.abs (Dec.coef x)) by lia.
        pose proof (pow10_pos j ltac:(lia)). nia. }
      assert (Dec.ndigits (Dec.coef x) <= 28 - j).
      { apply ndigits_le; [lia |].
        assert (10 ^ 28 = 10 ^ (28 - j) * 10 ^ j).
        { rewrite <- pow10_add by lia. f_equal. lia. }
        pose proof (pow10_pos j ltac:(lia)).
        pose proof (pow10_pos (28 - j) ltac:(lia)). nia. }
      unfold j in *. lia. }
  unfold Dec.prec.
  destruct (Dec.ndigits (Dec.coef x) + Dec.dexp x - t >? 28) eqn:E1.
  { rewrite Z.gtb_ltb in E1. apply Z.ltb_lt in E1. lia. }
  rewrite Hres. cbn [Dec.coef].
  destruct (Dec.ndigits (Dec.div_half_even n (10 ^ (t - e))) >? 28) eqn:E2.
  { rewrite Z.gtb_ltb in E2. apply Z.ltb_lt in E2.
    apply (ndigits_le _ 28) in Hq; lia. }
  reflexivity.
Qed.

(** What [round(x, 2)] returns has exponent -2 and fits the context. *)
Lemma round_shape (x r : Dec.t) (n : Z) :
  Dec.round x n = Ok r ->
  Dec.dexp r = - n /\ Z.abs (Dec.coef r) < 10 ^ 28.
Proof.
  unfold Dec.round, Dec.quantize, Dec.prec.
  destruct (Dec.coef x =? 0).
  { intros H. injection H as <-. simpl. split; [reflexivity | lia]. }
  destruct (_ >? 28); [discriminate |].
  destruct (Dec.ndigits (Dec.coef (Dec.rescale x (- n))) >? 28) eqn:E;
    [discriminate |].
  intros H. injection H as <-.
  rewrite Z.gtb_ltb in E. apply Z.ltb_ge in E.
  split.
  - unfold Dec.rescale. destruct (_ <=? _); reflexivity.
  - apply ndigits_le; lia.
Qed.

(** ** Division by 1000000 *)

Lemma strip_spec (n : nat) :
  forall q e q' e',
    Dec.strip n q e = (q', e') ->
    exists j, 0 <= j <= Z.of_nat n /\ e' = e + j /\ q = q' * 10 ^ j
              /\ (j < Z.of_nat n -> q' mod 10 <> 0).
Proof.
  induction n as [| n IH]; intros q e q' e' H; cbn [Dec.strip] in H.
  - injection H as <- <-. exists 0. simpl. repeat split; lia.
  - destruct (q mod 10 =? 0) eqn:E.
    + apply Z.eqb_eq in E.
      destruct (IH _ _ _ _ H) as (j & Hj & -> & Hq & Hlast).
      exists (j + 1). repeat split; try lia.
      rewrite pow10_add by lia. change (10 ^ 1) with 10.
      pose proof (Z.div_mod q 10 ltac:(lia)). lia.
    + apply Z.eqb_neq in E. injection H as <- <-.
      exists 0. simpl. repeat split; lia.
Qed.

Lemma truediv_million (r : Dec.t) :
  Z.abs (Dec.coef r) < 10 ^ 28 ->
  exists v, Dec.truediv r (Dec.of_int 1000000) = Ok v
            /\ exact_at v (Dec.dexp r - 6) (Dec.coef r).
Proof.
  intros Hr. destruct r as [c e]. cbn [Dec.coef Dec.dexp] in *.
  unfold Dec.truediv. cbn [Dec.coef Dec.dexp Dec.of_int].
  change (1000000 =? 0) with false. cbv iota.
  destruct (c =? 0) eqn:E0.
  { apply Z.eqb_eq in E0. subst c. eexists. split; [reflexivity |].
    rewrite fix_id by (simpl; lia). split; simpl; lia. }
  apply Z.eqb_neq in E0.
  change (Dec.ndigits 1000000) with 7. unfold Dec.prec.
  assert (Hnd : Dec.ndigits c <= 28) by (apply ndigits_le; lia).
  pose proof (ndigits_pos c) as Hnd1.
  set (shift := 7 - Dec.ndigits c + 28 + 1).
  assert (Hshift : 8 <= shift) by (unfold shift; lia).
  replace (0 <=? shift) with true by (symmetry; apply Z.leb_le; lia).
  change (Z.abs 1000000) with (10 ^ 6).
  assert (Hsplit : 10 ^ shift = 10 ^ (shift - 6) * 10 ^ 6).
  { rewrite <- pow10_add by lia. f_equal. lia. }
  assert (Hmod : (Z.abs c * 10 ^ shift) mod 10 ^ 6 = 0).
  { rewrite Hsplit, Z.mul_assoc. apply Z.mod_mul. lia. }
  assert (Hdiv : (Z.abs c * 10 ^ shift) / 10 ^ 6 = Z.abs c * 10 ^ (shift - 6)).
  { rewrite Hsplit, Z.mul_assoc. apply Z.div_mul. lia. }
  rewrite Hmod, Hdiv. cbv beta zeta. change (0 =? 0) with true. cbv iota.
  replace (e - 0 - (e - 0 - shift)) with shift by lia.
  destruct (Dec.strip (Z.to_nat shift) (Z.abs c * 10 ^ (shift - 6))
              (e - 0 - shift)) as [q' e'] eqn:Es.
  destruct (strip_spec _ _ _ _ _ Es) as (j & Hj & -> & Hq & Hlast).
  rewrite Z2Nat.id in * by lia.
  assert (Hj6 : shift - 6 <= j).
  { destruct (Z_le_gt_dec (shift - 6) j) as [? | Hgt]; [assumption |].
    exfalso. apply Hlast; [lia |].
    assert (Hq' : q' = Z.abs c * 10 ^ (shift - 6 - j)).
    { replace (shift - 6) with ((shift - 6 - j) + j) in Hq at 1 by lia.
      rewrite pow10_add in Hq by lia.
      pose proof (pow10_pos j ltac:(lia)). nia. }
    rewrite Hq', (pow10_succ (shift - 6 - j)) by lia.
    replace (Z.abs c * (10 * 10 ^ (shift - 6 - j - 1)))
      with (Z.abs c * 10 ^ (shift - 6 - j - 1) * 10) by ring.
    apply Z.mod_mul. lia. }
  assert (Hc : Z.abs c = q' * 10 ^ (j - (shift - 6))).
  { replace j with ((j - (shift - 6)) + (shift - 6)) in Hq at 1 by lia.
    rewrite pow10_add in Hq by lia.
    pose proof (pow10_pos (shift - 6) ltac:(lia)). nia. }
  assert (Hq'pos : 0 <= q').
  { pose proof (pow10_pos (j - (shift - 6)) ltac:(lia)). nia. }
  assert (Hq'le : q' <= Z.abs c).
  { pose proof (pow10_pos (j - (shift - 6)) ltac:(lia)). nia. }
  change (Z.sgn 1000000) with 1.
  eexists. split; [reflexivity |].
  rewrite fix_id.
  - split; cbn [Dec.coef Dec.dexp]; [lia |].
    replace (e - 0 - shift + j - (e - 6)) with (j - (shift - 6)) by lia.
    replace (Z.sgn c * 1 * q' * 10 ^ (j - (shift - 6)))
      with (Z.sgn c * (q' * 10 ^ (j - (shift - 6)))) by ring.
    rewrite <- Hc. lia.
  - cbn [Dec.coef]. lia.
Qed.

(** ** From decimals to rationals *)

Lemma Qround_half_even_comp (x y : Q) :
  (x == y)%Q -> Qround_half_even x = Qround_half_even y.
Proof.
  intros H. unfold Qround_half_even.
  rewrite (Qfloor_comp x y H).
  assert (Hc : Qcompare (x - inject_Z (Qfloor y)) (1 # 2)
               = Qcompare (y - inject_Z (Qfloor y)) (1 # 2)).
  { apply Qcompare_comp; [rewrite H |]; reflexivity. }
  rewrite Hc. reflexivity.
Qed.

Lemma Qround_half_even_make (n : Z) (d : positive) :
  Qround_half_even (n # d) = Dec.div_half_even n (Z.pos d).
Proof.
  unfold Qround_half_even, Dec.div_half_even.
  change (Qfloor (n # d)) with (n / Z.pos d).
  assert (Hc : Qcompare ((n # d) - inject_Z (n / Z.pos d)) (1 # 2)
               = (2 * (n mod Z.pos d) ?= Z.pos d)).
  { unfold Qcompare, Qminus, Qplus, Qopp, inject_Z. cbn [Qnum Qden].
    rewrite Pos.mul_1_r. rewrite Z.mod_eq by lia. f_equal; ring. }
  rewrite Hc. reflexivity.
Qed.

Lemma Qround_half_even_div (n d : Z) :
  0 < d ->
  Qround_half_even (inject_Z n / inject_Z d) = Dec.div_half_even n d.
Proof.
  intros Hd. destruct d as [| p | p]; try lia.
  rewrite <- Qround_half_even_make.
  apply Qround_half_even_comp. symmetry. apply Qmake_Qdiv.
Qed.

Lemma ten_neq_0 : ~ (10 # 1 == 0)%Q.
Proof. discriminate. Qed.

Lemma inject_pow10 (k : Z) : 0 <= k -> (inject_Z (10 ^ k) == (10 # 1) ^ k)%Q.
Proof. intros Hk. apply (Zpower_Qpower 10 k Hk). Qed.

Lemma val_exact (x : Dec.t) (e n : Z) :
  exact_at x e n -> (Dec.val x == inject_Z n * (10 # 1) ^ e)%Q.
Proof.
  intros [He <-]. unfold Dec.val.
  rewrite inject_Z_mult, inject_pow10 by lia.
  rewrite <- Qmult_assoc. rewrite <- Qpower_plus by apply ten_neq_0.
  replace (Dec.dexp x - e + e) with (Dec.dexp x) by lia. reflexivity.
Qed.

Lemma exact_at_self (x : Dec.t) : exact_at x (Dec.dexp x) (Dec.coef x).
Proof.
  split; [lia |]. rewrite Z.sub_diag. simpl. lia.
Qed.

(** [round(x, 2)] of [n * 10 ^ (-2 - k)] is [n / 10 ^ k] rounded half to
    even, in hundredths. *)
Lemma Qround2_scaled (x : Q) (n k : Z) :
  0 <= k ->
  (x == inject_Z n * (10 # 1) ^ (-2 - k))%Q ->
  (Qround2 x == inject_Z (Dec.div_half_even n (10 ^ k)) * (10 # 1) ^ (-2))%Q.
Proof.
  intros Hk Hx. unfold Qround2.
  assert (Hd : 0 < 10 ^ k) by (apply Z.pow_pos_nonneg; lia).
  assert (Hs : (x * 100 == inject_Z n / inject_Z (10 ^ k))%Q).
  { rewrite Hx. rewrite inject_pow10 by lia.
    replace (-2 - k) with (-2 + - k) by lia.
    rewrite Qpower_plus by apply ten_neq_0.
    rewrite Qpower_opp. unfold Qdiv.
    change ((10 # 1) ^ (-2))%Q with (1 # 100)%Q.
    setoid_replace (inject_Z n * ((1 # 100) * / (10 # 1) ^ k) * 100)%Q
      with (inject_Z n * / (10 # 1) ^ k * ((1 # 100) * 100))%Q by ring.
    setoid_replace ((1 # 100) * 100)%Q with 1%Q by reflexivity.
    ring. }
  rewrite (Qround_half_even_comp _ _ Hs).
  rewrite Qround_half_even_div by exact Hd.
  change ((10 # 1) ^ (-2))%Q with (1 # 100)%Q. unfold Qdiv.
  change (/ 100)%Q with (1 # 100)%Q. reflexivity.
Qed.

(** ** [Order.cargo_volume] *)

Lemma decimal_field_spec (md dp : Z) (x : Dec.t) :
  decimal_field md dp x = true ->
  Dec.dexp x = - dp /\ Z.abs (Dec.coef x) < 10 ^ md.
Proof.
  unfold decimal_field. rewrite andb_true_iff, Z.eqb_eq, Z.ltb_lt. tauto.
Qed.

(** Whatever [cargo_volume] returns is a whole number of 10^-8 m^3 that
    fits the context. *)
Lemma cargo_volume_shape (o : Order.t) (v : Dec.t) :
  Order.cargo_volume o = Ok v ->
  exists q, Z.abs q < 10 ^ 28 /\ exact_at v (-8) q.
Proof.
  unfold Order.cargo_volume, rbind.
  destruct (Dec.round _ 2) as [r |] eqn:Er; [| discriminate].
  destruct (round_shape _ _ _ Er) as [He Hc].
  destruct (truediv_million r Hc) as (v' & Hv' & Hex).
  rewrite Hv'. intros H. injection H as <-.
  exists (Dec.coef r). split; [exact Hc |].
  replace (-8) with (Dec.dexp r - 6) by lia. exact Hex.
Qed.

Lemma dhe_one (n : Z) : Dec.div_half_even n 1 = n.
Proof.
  replace n with (n * 1) at 1 by lia. apply dhe_exact. lia.
Qed.

Lemma cargo_volume_exact (o : Order.t) :
  decimal_field 10 1 (Order.cargo_len o) = true ->
  decimal_field 10 1 (Order.cargo_width o) = true ->
  decimal_field 10 1 (Order.cargo_depth o) = true ->
  Z.abs (Dec.div_half_even (product_milli o) 10) < 10 ^ 28 ->
  exists v, Order.cargo_volume o = Ok v
            /\ exact_at v (-8) (Dec.div_half_even (product_milli o) 10).
Proof.
  intros Hl Hw Hd Hq.
  apply decimal_field_spec in Hl, Hw, Hd.
  destruct Hl as [El Hl], Hw as [Ew Hw], Hd as [Ed Hd].
  unfold product_milli in *.
  set (cl := Dec.coef (Order.cargo_len o)) in *.
  set (cw := Dec.coef (Order.cargo_width o)) in *.
  set (cd := Dec.coef (Order.cargo_depth o)) in *.
  set (P := cl * cw * cd) in *.
  assert (Hlw : Dec.mul (Order.cargo_len o) (Order.cargo_width o)
                = Dec.mk (cl * cw) (-2)).
  { unfold Dec.mul. rewrite El, Ew. fold cl cw.
    apply fix_id. cbn [Dec.coef]. rewrite Z.abs_mul.
    change (10 ^ 10) with 10000000000 in *.
    change (10 ^ 28) with 10000000000000000000000000000. nia. }
  assert (HP : Z.abs P < 10 ^ 29).
  { destruct (Z_lt_ge_dec (Z.abs P) (10 ^ 29)) as [? | Hge]; [assumption |].
    pose proof (dhe_abs_ge P 10 (10 ^ 28) ltac:(lia) ltac:(lia)) as H.
    change (10 ^ 28 * 10) with (10 ^ 29) in H. specialize (H ltac:(lia)).
    lia. }
  (* the rounded product, whichever way the context treats it *)
  assert (Hround :
    Dec.round (Dec.mul (Dec.mul (Order.cargo_len o) (Order.cargo_width o))
                       (Order.cargo_depth o)) 2
    = Ok (Dec.mk (Dec.div_half_even P 10) (-2))).
  { rewrite Hlw. unfold Dec.mul. cbn [Dec.coef Dec.dexp]. rewrite Ed.
    fold cd. fold P. change (-2 + - (1)) with (-3).
    destruct (Z_lt_ge_dec (Z.abs P) (10 ^ 28)) as [Hsmall | Hbig].
    - rewrite fix_id by exact Hsmall. unfold Dec.round.
      change (- (2)) with (-2).
      rewrite (quantize_exact (Dec.mk P (-3)) (-3) (-2) P);
        [reflexivity | apply (exact_at_self (Dec.mk P (-3))) | lia
        | exact Hsmall].
    - assert (Hfix : Dec.fix_ (Dec.mk P (-3))
                     = Dec.mk (Dec.div_half_even P 10) (-2)).
      { unfold Dec.fix_, Dec.prec. cbn [Dec.coef Dec.dexp].
        assert (H29 : Dec.ndigits P = 29).
        { pose proof (proj2 (ndigits_le P 29 ltac:(lia)) HP).
          pose proof (proj2 (ndigits_gt P 28 ltac:(lia)) ltac:(lia)). lia. }
        rewrite H29. change (29 <=? 28) with false. cbv iota.
        change (10 ^ (29 - 28)) with 10.
        apply (ndigits_le _ 28) in Hq; [| lia].
        replace (Dec.ndigits (Dec.div_half_even P 10) <=? 28) with true
          by (symmetry; apply Z.leb_le; exact Hq).
        reflexivity. }
      rewrite Hfix. unfold Dec.round. change (- (2)) with (-2).
      rewrite (quantize_exact _ (-2) (-2) (Dec.div_half_even P 10));
        [| apply (exact_at_self (Dec.mk _ (-2))) | lia | exact Hq].
      change (10 ^ (-2 - -2)) with 1. rewrite dhe_one. reflexivity. }
  unfold Order.cargo_volume. rewrite Hround. cbn [rbind].
  destruct (truediv_million (Dec.mk (Dec.div_half_even P 10) (-2)) Hq)
    as (v & Hv & Hex).
  exists v. split; [exact Hv | exact Hex].
Qed.

Lemma ndigits_eq (n k : Z) :
  2 <= k -> 10 ^ (k - 1) <= Z.abs n < 10 ^ k -> Dec.ndigits n = k.
Proof.
  intros Hk [Hlo Hhi].
  pose proof (proj2 (ndigits_le n k ltac:(lia)) Hhi).
  pose proof (proj2 (ndigits_gt n (k - 1) ltac:(lia)) Hlo). lia.
Qed.

(** Past the bound of [cargo_volume_exact] the context refuses to round. *)
Lemma cargo_volume_overflow (o : Order.t) :
  decimal_field 10 1 (Order.cargo_len o) = true ->
  decimal_field 10 1 (Order.cargo_width o) = true ->
  decimal_field 10 1 (Order.cargo_depth o) = true ->
  10 ^ 28 <= Z.abs (Dec.div_half_even (product_milli o) 10) ->
  Order.cargo_volume o = Raise InvalidOperation.
Proof.
  intros Hl Hw Hd Hq.
  apply decimal_field_spec in Hl, Hw, Hd.
  destruct Hl as [El Hl], Hw as [Ew Hw], Hd as [Ed Hd].
  unfold product_milli in *.
  set (cl := Dec.coef (Order.cargo_len o)) in *.
  set (cw := Dec.coef (Order.cargo_width o)) in *.
  set (cd := Dec.coef (Order.cargo_depth o)) in *.
  set (P := cl * cw * cd) in *.
  change (10 ^ 10) with 10000000000 in *.
  assert (Hlw : Dec.mul (Order.cargo_len o) (Order.cargo_width o)
                = Dec.mk (cl * cw) (-2)).
  { unfold Dec.mul. rewrite El, Ew. fold cl cw.
    apply fix_id. cbn [Dec.coef]. rewrite Z.abs_mul.
    change (10 ^ 28) with 10000000000000000000000000000. nia. }
  assert (HP30 : Z.abs P < 10 ^ 30).
  { unfold P. rewrite !Z.abs_mul.
    change (10 ^ 30) with (10000000000 * 10000000000 * 10000000000).
    assert (Z.abs cl * Z.abs cw < 10000000000 * 10000000000) by nia.
    nia. }
  assert (HP28 : 10 ^ 28 <= Z.abs P).
  { pose proof (dhe_abs_le P 10 ltac:(lia)). lia. }
  unfold Order.cargo_volume. rewrite Hlw. unfold Dec.mul.
  cbn [Dec.coef Dec.dexp]. rewrite Ed. fold cd. fold P.
  change (-2 + - (1)) with (-3).
  assert (Hraise : forall c e,
             c <> 0 -> 28 < Dec.ndigits c + e + 2 ->
             Dec.round (Dec.mk c e) 2 = Raise InvalidOperation).
  { intros c e Hc Hn. unfold Dec.round, Dec.quantize, Dec.prec.
    cbn [Dec.coef Dec.dexp].
    replace (c =? 0) with false by (symmetry; apply Z.eqb_neq; exact Hc).
    replace (Dec.ndigits c + e - - (2) >? 28) with true; [reflexivity |].
    symmetry. rewrite Z.gtb_ltb. apply Z.ltb_lt. lia. }
  unfold Dec.fix_, Dec.prec. cbn [Dec.coef Dec.dexp].
  replace (Dec.ndigits P <=? 28) with false
    by (symmetry; apply Z.leb_gt; apply ndigits_gt; lia).
  destruct (Z_lt_ge_dec (Z.abs P) (10 ^ 29)) as [H29 | H29].
  - (* 29 digits: the product rounds up to 10^28 *)
    rewrite (ndigits_eq P 29) by (change (10 ^ (29 - 1)) with (10 ^ 28); lia).
    change (10 ^ (29 - 28)) with 10.
    set (q := Dec.div_half_even P 10) in *.
    assert (Hq' : Z.abs q <= 10 ^ 28).
    { destruct (dhe_cases P 10 ltac:(lia)) as (Hn & Hr & Hc).
      fold q in Hc. change (10 ^ 29) with (10 * 10 ^ 28) in H29.
      destruct Hc as [[Hc _] | [Hc _]]; rewrite Hc; lia. }
    replace (Dec.ndigits q <=? 28) with false
      by (symmetry; apply Z.leb_gt; apply ndigits_gt; lia).
    assert (Hq10 : Z.abs (q / 10) = 10 ^ 27).
    { change (10 ^ 28) with (10 * 10 ^ 27) in Hq, Hq'.
      assert (q = 10 * 10 ^ 27 \/ q = - (10 * 10 ^ 27)) as [-> | ->] by lia;
        reflexivity. }
    rewrite Hraise; [reflexivity | lia |].
    rewrite (ndigits_eq (q / 10) 28); [lia | lia |].
    rewrite Hq10. change (10 ^ (28 - 1)) with (10 ^ 27). lia.
  - (* 30 digits *)
    rewrite (ndigits_eq P 30) by (change (10 ^ (30 - 1)) with (10 ^ 29); lia).
    change (10 ^ (30 - 28)) with 100.
    set (q := Dec.div_half_even P 100).
    assert (Hlo : 10 ^ 27 <= Z.abs q).
    { apply dhe_abs_ge; [lia | lia |].
      change (10 ^ 27 * 100) with (10 ^ 29). lia. }
    assert (Hhi : Z.abs q <= 10 ^ 28).
    { destruct (dhe_cases P 100 ltac:(lia)) as (Hn & Hr & Hc).
      fold q in Hc. change (10 ^ 30) with (100 * 10 ^ 28) in HP30.
      destruct Hc as [[Hc _] | [Hc _]]; rewrite Hc; lia. }
    destruct (Dec.ndigits q <=? 28) eqn:E.
    + apply Z.leb_le in E. apply (ndigits_le q 28) in E; [| lia].
      rewrite Hraise; [reflexivity | lia |].
      rewrite (ndigits_eq q 28); [lia | lia |].
      change (10 ^ (28 - 1)) with (10 ^ 27). lia.
    + apply Z.leb_gt in E. apply (ndigits_gt q 28) in E; [| lia].
      assert (Hq10 : Z.abs (q / 10) = 10 ^ 27).
      { change (10 ^ 28) with (10 * 10 ^ 27) in E, Hhi.
        assert (q = 10 * 10 ^ 27 \/ q = - (10 * 10 ^ 27)) as [-> | ->] by lia;
          reflexivity. }
      rewrite Hraise; [reflexivity | lia |].
      rewrite (ndigits_eq (q / 10) 28); [lia | lia |].
      rewrite Hq10. change (10 ^ (28 - 1)) with (10 ^ 27). lia.
Qed.

Lemma Qabs_hundredths_lt (q B : Z) :
  (Qabs (inject_Z q * (10 # 1) ^ (-2)) < inject_Z B)%Q ->
  Z.abs q < B * 100.
Proof.
  change ((10 # 1) ^ (-2))%Q with (1 # 100)%Q.
  unfold Qlt, Qabs, Qmult, inject_Z. cbn [Qnum Qden].
  rewrite Z.mul_1_r. change (Z.pos (1 * 100)) with 100. lia.
Qed.

Lemma dims_product (o : Order.t) :
  Dec.dexp (Order.cargo_len o) = -1 ->
  Dec.dexp (Order.cargo_width o) = -1 ->
  Dec.dexp (Order.cargo_depth o) = -1 ->
  (Dec.val (Order.cargo_len o) * Dec.val (Order.cargo_width o)
   * Dec.val (Order.cargo_depth o)
   == inject_Z (product_milli o) * (10 # 1) ^ (-2 - 1))%Q.
Proof.
  intros El Ew Ed. unfold Dec.val, product_milli. rewrite El, Ew, Ed.
  rewrite !inject_Z_mult.
  change ((10 # 1) ^ (-1))%Q with (1 # 10)%Q.
  change ((10 # 1) ^ (-2 - 1))%Q with (1 # 1000)%Q.
  setoid_replace (1 # 1000)%Q with ((1 # 10) * (1 # 10) * (1 # 10))%Q
    by reflexivity.
  ring.
Qed.

(** C3 (as amended).  For an order whose three dimensions are values of
    their one-decimal columns and whose rounded product has at most 28
    significant digits (below 10^26 cm^3), [cargo_volume] is
    round(len * width * depth, 2) / 1000000, the product being rounded to
    two decimals, half to even, before the division.  Dimensions
    (100, 50, 20) give 0.1; for (10, 10, 10) rounding after the division
    would give another value. *)
Theorem cargo_volume_rounds_then_scales (self : Order.t)
  (Hlen : decimal_field 10 1 (Order.cargo_len self) = true)
  (Hwidth : decimal_field 10 1 (Order.cargo_width self) = true)
  (Hdepth : decimal_field 10 1 (Order.cargo_depth self) = true)
  (Hfit : (Qabs (Qround2 (Dec.val (Order.cargo_len self)
                          * Dec.val (Order.cargo_width self)
                          * Dec.val (Order.cargo_depth self)))
           < inject_Z (10 ^ 26))%Q) :
  (exists v,
      Order.cargo_volume self = Ok v
      /\ (Dec.val v == spec_cargo_volume (Dec.val (Order.cargo_len self))
                                         (Dec.val (Order.cargo_width self))
                                         (Dec.val (Order.cargo_depth self)))%Q)
  /\ (Order.cargo_volume order_100_50_20 = Ok (Dec.mk 10 (-2))
      /\ (Dec.val (Dec.mk 10 (-2)) == 1 # 10)%Q)
  /\ (Order.cargo_volume order_10_10_10 = Ok (Dec.mk 1 (-3))
      /\ ~ (Dec.val (Dec.mk 1 (-3))
            == Qround2 (Dec.val (Order.cargo_len order_10_10_10)
                        * Dec.val (Order.cargo_width order_10_10_10)
                        * Dec.val (Order.cargo_depth order_10_10_10)
                        / 1000000))%Q).
Proof.
  split; [| split; [split; [vm_compute; reflexivity | reflexivity] |
                    split; [vm_compute; reflexivity | vm_compute; discriminate]]].
  destruct (decimal_field_spec _ _ _ Hlen) as [El _].
  destruct (decimal_field_spec _ _ _ Hwidth) as [Ew _].
  destruct (decimal_field_spec _ _ _ Hdepth) as [Ed _].
  pose proof (dims_product self El Ew Ed) as Hprod.
  pose proof (Qround2_scaled _ _ 1 ltac:(lia) Hprod) as Hr2.
  change (10 ^ 1) with 10 in Hr2.
  rewrite Hr2 in Hfit. apply Qabs_hundredths_lt in Hfit.
  change (10 ^ 26 * 100) with (10 ^ 28) in Hfit.
  destruct (cargo_volume_exact self Hlen Hwidth Hdepth Hfit) as (v & Hv & Hex).
  exists v. split; [exact Hv |].
  rewrite (val_exact _ _ _ Hex). unfold spec_cargo_volume. rewrite Hr2.
  change ((10 # 1) ^ (-2))%Q with (1 # 100)%Q.
  change ((10 # 1) ^ (-8))%Q with (1 # 100000000)%Q.
  unfold Qdiv. change (/ 1000000)%Q with (1 # 1000000)%Q.
  rewrite <- Qmult_assoc.
  setoid_replace ((1 # 100) * (1 # 1000000))%Q with (1 # 100000000)%Q
    by reflexivity.
  reflexivity.
Qed.

Lemma cargo_volume_rounds_then_scales_witness :
  decimal_field 10 1 (Order.cargo_len order_100_50_20) = true
  /\ decimal_field 10 1 (Order.cargo_width order_100_50_20) = true
  /\ decimal_field 10 1 (Order.cargo_depth order_100_50_20) = true
  /\ (Qabs (Qround2 (Dec.val (Order.cargo_len order_100_50_20)
                     * Dec.val (Order.cargo_width order_100_50_20)
                     * Dec.val (Order.cargo_depth order_100_50_20)))
      < inject_Z (10 ^ 26))%Q
  /\ exists v,
      Order.cargo_volume order_100_50_20 = Ok v
      /\ (Dec.val v
          == spec_cargo_volume (Dec.val (Order.cargo_len order_100_50_20))
                               (Dec.val (Order.cargo_width order_100_50_20))
                               (Dec.val (Order.cargo_depth order_100_50_20)))%Q.
Proof.
  repeat (split; [vm_compute; reflexivity |]).
  apply (cargo_volume_rounds_then_scales order_100_50_20);
    vm_compute; reflexivity.
Defined.

(** C3 does not hold of every order: the largest box the columns can hold
    (999999999.9 cm each way) has a volume [cargo_volume] does not return;
    rounding its product to two decimals takes 29 digits and the context
    raises [InvalidOperation]. *)
Lemma cargo_volume_huge_raises :
  decimal_field 10 1 (Order.cargo_len order_huge) = true
  /\ decimal_field 10 1 (Order.cargo_width order_huge) = true
  /\ decimal_field 10 1 (Order.cargo_depth order_huge) = true
  /\ Order.cargo_volume order_huge = Raise InvalidOperation
  /\ ~ (exists v,
          Order.cargo_volume order_huge = Ok v
          /\ (Dec.val v
              == spec_cargo_volume (Dec.val (Order.cargo_len order_huge))
                                   (Dec.val (Order.cargo_width order_huge))
                                   (Dec.val (Order.cargo_depth order_huge)))%Q).
Proof.
  assert (H : Order.cargo_volume order_huge = Raise InvalidOperation)
    by (vm_compute; reflexivity).
  repeat split; try (vm_compute; reflexivity).
  intros (v & Hv & _). rewrite H in Hv. discriminate.
Qed.

(** ** [Sending.free_volume] *)

Lemma exact_units8 (v : Dec.t) :
  -8 <= Dec.dexp v -> exact_at v (-8) (units8 v).
Proof.
  intros H. split; [exact H |]. unfold units8. do 2 f_equal; lia.
Qed.

Lemma exact_at_units8 (v : Dec.t) (n : Z) :
  exact_at v (-8) n -> -8 <= Dec.dexp v /\ units8 v = n.
Proof.
  intros [H <-]. split; [exact H |]. unfold units8. do 2 f_equal; lia.
Qed.

Lemma py_add_dec (acc : pynum) (v : Dec.t) :
  py_add acc (PDec v) = PDec (Dec.add (to_dec acc) v).
Proof. destruct acc; reflexivity. Qed.

Lemma py_sum_exact (vs : list Dec.t) :
  forall acc n,
    exact_at (to_dec acc) (-8) n ->
    Forall (fun v => -8 <= Dec.dexp v) vs ->
    Z.abs n + Zsum (map (fun v => Z.abs (units8 v)) vs) < 10 ^ 28 ->
    exact_at (to_dec (fold_left (fun acc v => py_add acc (PDec v)) vs acc))
             (-8) (n + Zsum (map units8 vs)).
Proof.
  induction vs as [| v vs IH]; intros acc n Hacc Hvs Hb.
  - simpl. replace (n + 0) with n by lia. exact Hacc.
  - inversion Hvs as [| ? ? Hv Hvs']; subst. cbn [fold_left map Zsum fold_right] in *.
    fold (Zsum (map units8 vs)). fold (Zsum (map (fun v => Z.abs (units8 v)) vs)) in Hb.
    assert (Hnn : 0 <= Zsum (map (fun v => Z.abs (units8 v)) vs)).
    { clear. unfold Zsum. induction vs; simpl; lia. }
    rewrite py_add_dec.
    replace (n + (units8 v + Zsum (map units8 vs)))
      with ((n + units8 v) + Zsum (map units8 vs)) by lia.
    apply IH; [| exact Hvs' | lia].
    cbn [to_dec]. apply add_exact; [exact Hacc | apply exact_units8; exact Hv | lia].
Qed.

Lemma Zsum_abs (l : list Z) : Z.abs (Zsum l) <= Zsum (map Z.abs l).
Proof.
  unfold Zsum. induction l as [| x l IH]; simpl; lia.
Qed.

Lemma py_round_exact (x : pynum) (n : Z) :
  exact_at (to_dec x) (-8) n -> Z.abs n < 10 ^ 28 ->
  exists r, py_round x 2 = Ok r
            /\ exact_at (to_dec r) (-2) (Dec.div_half_even n (10 ^ 6)).
Proof.
  intros Hx Hn. destruct x as [k | d]; cbn [py_round to_dec] in *.
  - exists (PInt k). split; [reflexivity |].
    destruct Hx as [_ Hx]. cbn [Dec.of_int Dec.coef Dec.dexp] in Hx.
    change (10 ^ (0 - -8)) with (100 * 10 ^ 6) in Hx. subst n.
    rewrite Z.mul_assoc, dhe_exact by lia.
    split; cbn [to_dec Dec.of_int Dec.coef Dec.dexp]; [lia | reflexivity].
  - unfold Dec.round. change (- (2)) with (-2).
    rewrite (quantize_exact d (-8) (-2) n Hx ltac:(lia) Hn). cbn [rbind].
    eexists. split; [reflexivity |]. cbn [to_dec].
    change (-2 - -8) with 6.
    apply (exact_at_self (Dec.mk _ (-2))).
Qed.

Lemma cargo_volumes_shape (os : list Order.t) :
  forall vs, cargo_volumes os = Ok vs ->
             Forall (fun v => -8 <= Dec.dexp v) vs.
Proof.
  induction os as [| o os IH]; intros vs H; cbn [cargo_volumes] in H.
  - injection H as <-. constructor.
  - unfold rbind in H.
    destruct (Order.cargo_volume o) as [v |] eqn:Ev; [| discriminate].
    destruct (cargo_volumes os) as [vs' |]; [| discriminate].
    injection H as <-. constructor; [| apply IH; reflexivity].
    destruct (cargo_volume_shape o v Ev) as (q & _ & Hq).
    apply exact_at_units8 in Hq. tauto.
Qed.

Lemma Qsum_vals (vs : list Dec.t) :
  Forall (fun v => -8 <= Dec.dexp v) vs ->
  (Qsum (map Dec.val vs)
   == inject_Z (Zsum (map units8 vs)) * (10 # 1) ^ (-8))%Q.
Proof.
  induction 1 as [| v vs Hv _ IH]; unfold Qsum, Zsum in *;
    cbn [map fold_right].
  - reflexivity.
  - rewrite IH, inject_Z_plus.
    rewrite (val_exact v (-8) (units8 v)) by (apply exact_units8; exact Hv).
    ring.
Qed.

Lemma Qabs_val8 (v : Dec.t) :
  -8 <= Dec.dexp v ->
  (Qabs (Dec.val v) == inject_Z (Z.abs (units8 v)) * (10 # 1) ^ (-8))%Q.
Proof.
  intros Hv.
  rewrite (val_exact v (-8) (units8 v)) by (apply exact_units8; exact Hv).
  rewrite Qabs_Qmult. apply Qmult_comp; reflexivity.
Qed.

Lemma Qsum_abs_vals (vs : list Dec.t) :
  Forall (fun v => -8 <= Dec.dexp v) vs ->
  (Qsum (map (fun v => Qabs (Dec.val v)) vs)
   == inject_Z (Zsum (map (fun v => Z.abs (units8 v)) vs))
      * (10 # 1) ^ (-8))%Q.
Proof.
  induction 1 as [| v vs Hv _ IH]; unfold Qsum, Zsum in *;
    cbn [map fold_right].
  - reflexivity.
  - rewrite IH, inject_Z_plus, (Qabs_val8 v Hv). ring.
Qed.

Lemma Q8_lt (a b : Z) :
  (inject_Z a * (10 # 1) ^ (-8) < inject_Z b)%Q -> a < b * 10 ^ 8.
Proof.
  change ((10 # 1) ^ (-8))%Q with (1 # 100000000)%Q.
  unfold Qlt, Qmult, inject_Z. cbn [Qnum Qden].
  change (Z.pos (1 * 100000000)) with 100000000.
  change (10 ^ 8) with 100000000. lia.
Qed.

Lemma sending_orders_all_in (st : Store) (s : Sending.t) (o : Order.t) :
  In o (sending_orders_all st s)
  <-> In o (orders st) /\ In (Sending.id s, Order.id o) (sending_orders st).
Proof.
  unfold sending_orders_all, by_pk. rewrite in_flat_map. split.
  - intros ([sid oid] & Hin & Ho). cbn [fst snd] in Ho.
    destruct (sid =? Sending.id s) eqn:E; [| destruct Ho].
    apply Z.eqb_eq in E. apply filter_In in Ho. destruct Ho as [Ho Hk].
    apply Z.eqb_eq in Hk. subst. split; assumption.
  - intros [Ho Hin]. exists (Sending.id s, Order.id o).
    split; [exact Hin |]. cbn [fst snd]. rewrite Z.eqb_refl.
    apply filter_In. split; [exact Ho | apply Z.eqb_refl].
Qed.

Lemma dhe_near (n d : Z) :
  0 < d -> d * Z.abs (Dec.div_half_even n d) <= Z.abs n + d.
Proof.
  intros Hd. destruct (dhe_cases n d Hd) as (Hn & Hr & Hc).
  set (q := n / d) in *. set (r := n mod d) in *.
  destruct Hc as [[-> _] | [-> _]]; nia.
Qed.

(** C7 (as amended).  [free_volume] is [total_volume] minus round(S, 2),
    where S is the sum of [cargo_volume] over the orders of the sending's
    own [orders] relation (the rows of [sending_orders], whatever the
    applications say), as long as the volumes add up to less than 10^20 m^3
    so that the 28-digit context keeps the sum exact.  A negative result is
    returned like any other.  A total of 10 with volumes 0.1 and 0.2 gives
    9.7. *)
Theorem free_volume_over_sending_orders (st : Store) (self : Sending.t)
  (vs : list Dec.t)
  (Htotal : decimal_field 10 2 (Sending.total_volume self) = true)
  (Hvs : cargo_volumes (sending_orders_all st self) = Ok vs)
  (Hfit : (Qsum (map (fun v => Qabs (Dec.val v)) vs) < inject_Z (10 ^ 20))%Q) :
  (forall o, In o (sending_orders_all st self)
             <-> In o (orders st)
                 /\ In (Sending.id self, Order.id o) (sending_orders st))
  /\ (exists v,
         free_volume st self = Ok v
         /\ (Dec.val v == Dec.val (Sending.total_volume self)
                          - Qround2 (Qsum (map Dec.val vs)))%Q)
  /\ (free_volume shop sending_1 = Ok (Dec.mk 970 (-2))
      /\ (Dec.val (Dec.mk 970 (-2)) == 97 # 10)%Q)
  /\ free_volume shop_overbooked sending_small = Ok (Dec.mk (-10) (-2)).
Proof.
  split; [intros o; apply sending_orders_all_in |].
  split; [| split; [split; [vm_compute; reflexivity | reflexivity]
                   | vm_compute; reflexivity]].
  pose proof (cargo_volumes_shape _ _ Hvs) as Hshape.
  destruct (decimal_field_spec _ _ _ Htotal) as [Et Ht].
  set (N := Zsum (map units8 vs)).
  set (A := Zsum (map (fun v => Z.abs (units8 v)) vs)).
  assert (HA : A < 10 ^ 28).
  { rewrite (Qsum_abs_vals vs Hshape) in Hfit. apply Q8_lt in Hfit.
    exact Hfit. }
  assert (HN : Z.abs N < 10 ^ 28).
  { pose proof (Zsum_abs (map units8 vs)) as H.
    rewrite map_map in H. fold N A in H. lia. }
  assert (Hsum : exact_at (to_dec (py_sum vs)) (-8) N).
  { replace N with (0 + N) by lia. unfold N, py_sum.
    apply py_sum_exact; [split; simpl; lia | exact Hshape |].
    fold A. simpl Z.abs. lia. }
  destruct (py_round_exact _ _ Hsum HN) as (r & Hr & Hrx).
  set (R := Dec.div_half_even N (10 ^ 6)) in *.
  assert (HR : Z.abs R <= 10 ^ 22 + 1).
  { pose proof (dhe_near N (10 ^ 6) ltac:(lia)) as H. fold R in H.
    change (10 ^ 28) with (10 ^ 22 * 10 ^ 6) in HN. lia. }
  assert (Hsub : exact_at (Dec.sub (Sending.total_volume self) (to_dec r))
                          (-2) (Dec.coef (Sending.total_volume self) - R)).
  { apply sub_exact; [| exact Hrx |].
    - pose proof (exact_at_self (Sending.total_volume self)) as H.
      rewrite Et in H. exact H.
    - change (10 ^ 10) with 10000000000 in Ht.
      change (10 ^ 22) with 10000000000000000000000 in HR.
      change (10 ^ 28) with 10000000000000000000000000000. lia. }
  exists (Dec.sub (Sending.total_volume self) (to_dec r)). split.
  - unfold free_volume. rewrite Hvs. cbn [rbind]. rewrite Hr. reflexivity.
  - rewrite (val_exact _ _ _ Hsub).
    pose proof (Qsum_vals vs Hshape) as Hq. fold N in Hq.
    change (-8) with (-2 - 6) in Hq.
    rewrite (Qround2_scaled _ _ 6 ltac:(lia) Hq). fold R.
    unfold Dec.val. rewrite Et.
    unfold Z.sub at 1. rewrite inject_Z_plus, inject_Z_opp.
    change (- (2)) with (-2). ring.
Qed.

Lemma free_volume_over_sending_orders_witness :
  decimal_field 10 2 (Sending.total_volume sending_1) = true
  /\ cargo_volumes (sending_orders_all shop sending_1)
     = Ok [Dec.mk 10 (-2); Dec.mk 20 (-2)]
  /\ (Qsum (map (fun v => Qabs (Dec.val v)) [Dec.mk 10 (-2); Dec.mk 20 (-2)])
      < inject_Z (10 ^ 20))%Q
  /\ exists v,
      free_volume shop sending_1 = Ok v
      /\ (Dec.val v
          == Dec.val (Sending.total_volume sending_1)
             - Qround2 (Qsum (map Dec.val [Dec.mk 10 (-2); Dec.mk 20 (-2)])))%Q.
Proof.
  repeat (split; [vm_compute; reflexivity |]).
  apply (free_volume_over_sending_orders shop sending_1
           [Dec.mk 10 (-2); Dec.mk 20 (-2)]);
    vm_compute; reflexivity.
Defined.

(** C7 does not hold of the applications: sending 1 of [shop_unlinked] has a
    confirmed application for order 1 (0.1 m^3) and an empty [orders]
    relation; its free volume is the whole 10.00, not 10 - 0.1. *)
Lemma free_volume_ignores_applications :
  orders_via_applications shop_unlinked sending_1 = [order_1]
  /\ cargo_volumes (orders_via_applications shop_unlinked sending_1)
     = Ok [Dec.mk 10 (-2)]
  /\ free_volume shop_unlinked sending_1 = Ok (Dec.mk 1000 (-2))
  /\ ~ (Dec.val (Dec.mk 1000 (-2))
        == Dec.val (Sending.total_volume sending_1)
           - Qround2 (Qsum (map Dec.val [Dec.mk 10 (-2)])))%Q.
Proof.
  repeat split; try (vm_compute; reflexivity).
  vm_compute. discriminate.
Qed.

(** ** Looking rows up under the constraints *)

Lemma by_pk_none {A} (pk : A -> Z) (k : Z) (rows : list A) :
  (forall r, In r rows -> pk r <> k) -> by_pk pk k rows = [].
Proof.
  unfold by_pk. induction rows as [| x rows IH]; intros H; simpl.
  - reflexivity.
  - destruct (pk x =? k) eqn:E.
    + apply Z.eqb_eq in E. exfalso. apply (H x); [left; reflexivity | exact E].
    + apply IH. intros r Hr. apply H. right. exact Hr.
Qed.

Lemma existsb_eqb_false {A} (pk : A -> Z) (k : Z) (rows : list A) :
  existsb (Z.eqb k) (map pk rows) = false ->
  forall r, In r rows -> pk r <> k.
Proof.
  intros H r Hr Heq.
  assert (existsb (Z.eqb k) (map pk rows) = true).
  { apply existsb_exists. exists (pk r). split.
    - apply in_map. exact Hr.
    - apply Z.eqb_eq. symmetry. exact Heq. }
  congruence.
Qed.

Lemma by_pk_unique {A} (pk : A -> Z) (rows : list A) (r : A) :
  unique_pk pk rows = true -> In r rows -> by_pk pk (pk r) rows = [r].
Proof.
  unfold unique_pk, by_pk.
  induction rows as [| x rows IH]; intros Hu Hin; [destruct Hin |].
  cbn [map nodupb] in Hu. apply andb_true_iff in Hu. destruct Hu as [Hx Hu].
  apply negb_true_iff in Hx. pose proof (existsb_eqb_false _ _ _ Hx) as Hne.
  cbn [filter]. destruct Hin as [-> | Hin].
  - rewrite Z.eqb_refl. f_equal. apply (by_pk_none pk (pk r) rows). exact Hne.
  - replace (pk x =? pk r) with false.
    + apply IH; assumption.
    + symmetry. apply Z.eqb_neq. intros Heq. apply (Hne r Hin). congruence.
Qed.

Lemma has_pk_in {A} (pk : A -> Z) (k : Z) (rows : list A) :
  has_pk pk k rows = true -> exists r, In r rows /\ pk r = k.
Proof.
  unfold has_pk. intros H. apply existsb_exists in H.
  destruct H as (r & Hr & Hk). apply Z.eqb_eq in Hk. exists r. tauto.
Qed.

Lemma in_has_pk {A} (pk : A -> Z) (rows : list A) (r : A) :
  In r rows -> has_pk pk (pk r) rows = true.
Proof.
  intros H. unfold has_pk. apply existsb_exists. exists r.
  split; [exact H | apply Z.eqb_refl].
Qed.

(** A key that is there selects its one row. *)
Lemma by_pk_found {A} (pk : A -> Z) (k : Z) (rows : list A) :
  unique_pk pk rows = true -> has_pk pk k rows = true ->
  exists r, In r rows /\ pk r = k /\ by_pk pk k rows = [r].
Proof.
  intros Hu Hk. destruct (has_pk_in _ _ _ Hk) as (r & Hr & <-).
  exists r. repeat split; [exact Hr |]. apply by_pk_unique; assumption.
Qed.

(** A unique column selects no row or one. *)
Lemma by_pk_cases {A} (pk : A -> Z) (k : Z) (rows : list A) :
  unique_pk pk rows = true ->
  (by_pk pk k rows = [] /\ forall r, In r rows -> pk r <> k)
  \/ (exists r, In r rows /\ pk r = k /\ by_pk pk k rows = [r]).
Proof.
  intros Hu. destruct (has_pk pk k rows) eqn:E.
  - right. apply by_pk_found; assumption.
  - left. assert (H : forall r, In r rows -> pk r <> k).
    { intros r Hr Heq. rewrite <- Heq, in_has_pk in E by exact Hr.
      discriminate. }
    split; [apply by_pk_none; exact H | exact H].
Qed.

Lemma filter_andb {A} (p q : A -> bool) (l : list A) :
  filter (fun x => p x && q x) l = filter p (filter q l).
Proof.
  induction l as [| x l IH]; simpl; [reflexivity |].
  destruct (q x); simpl; destruct (p x); simpl; rewrite ?IH; reflexivity.
Qed.

Lemma flat_map_select {A B} (p : A -> bool) (b : B) (l : list A) :
  flat_map (fun x => if p x then [b] else []) l
  = map (fun _ => b) (filter p l).
Proof.
  induction l as [| x l IH]; simpl; [reflexivity |].
  destruct (p x); simpl; rewrite IH; reflexivity.
Qed.

Lemma flat_map_filter {A} (p : A -> bool) (l : list A) :
  flat_map (fun x => if p x then [x] else []) l = filter p l.
Proof.
  induction l as [| x l IH]; simpl; [reflexivity |].
  destruct (p x); simpl; rewrite IH; reflexivity.
Qed.

Lemma flat_map_ext_in {A B} (f g : A -> list B) (l : list A) :
  (forall x, In x l -> f x = g x) -> flat_map f l = flat_map g l.
Proof.
  induction l as [| x l IH]; intros H; simpl; [reflexivity |].
  rewrite (H x) by (left; reflexivity). f_equal.
  apply IH. intros y Hy. apply H. right. exact Hy.
Qed.

(** The rows of a join that pins the application to [a]. *)
Lemma join_application {B} (col : Application.t -> Z) (k : Z) (b : B)
  (apps : list Application.t) (a : Application.t) :
  unique_pk Application.id apps = true -> In a apps ->
  map (fun _ => b)
      (filter (fun a' => (col a' =? k)
                         && (Application.id a' =? Application.id a)) apps)
  = if col a =? k then [b] else [].
Proof.
  intros Hu Ha. rewrite filter_andb.
  change (filter (fun x => Application.id x =? Application.id a) apps)
    with (by_pk Application.id (Application.id a) apps).
  rewrite (by_pk_unique _ _ _ Hu Ha). simpl.
  destruct (col a =? k); reflexivity.
Qed.

Lemma integrity_constraints (st : Store) :
  integrity st = true -> constraints st.
Proof.
  unfold integrity. intros H.
  repeat (apply andb_true_iff in H;
          let H' := fresh "H" in destruct H as [H H']).
  repeat match goal with
         | Hf : forallb _ _ = true |- _ =>
             rewrite forallb_forall in Hf
         end.
  constructor; try assumption;
    try (intros x Hx;
         match goal with
         | Hf : forall _, In _ _ -> _ = true |- _ =>
             specialize (Hf x Hx);
             repeat (apply andb_true_iff in Hf;
                     let H' := fresh "H" in destruct Hf as [Hf H']);
             assumption
         end).
Qed.

(** ** The joins of the receivers *)

Lemma orders_of_application_one (st : Store) (a : Application.t) :
  constraints st -> In a (applications st) ->
  exists o, In o (orders st) /\ Order.id o = Application.order a
            /\ orders_of_application st a = [o].
Proof.
  intros C Ha.
  destruct (by_pk_found Order.id (Application.order a) (orders st)
              (c_orders st C) (c_application_order st C a Ha))
    as (o & Ho & Hid & Hsel).
  exists o. repeat split; [exact Ho | exact Hid |].
  unfold orders_of_application.
  rewrite (flat_map_ext_in _
             (fun o => if Order.id o =? Application.order a then [o] else [])).
  - rewrite flat_map_filter. exact Hsel.
  - intros x _.
    rewrite (join_application Application.order (Order.id x) x _ a
               (c_applications st C) Ha).
    rewrite Z.eqb_sym. reflexivity.
Qed.

Lemma sendings_of_application_one (st : Store) (a : Application.t) :
  constraints st -> In a (applications st) ->
  exists s, In s (sendings st) /\ Sending.id s = Application.sending a
            /\ sendings_of_application st a = [s].
Proof.
  intros C Ha.
  destruct (by_pk_found Sending.id (Application.sending a) (sendings st)
              (c_sendings st C) (c_application_sending st C a Ha))
    as (s & Hs & Hid & Hsel).
  exists s. repeat split; [exact Hs | exact Hid |].
  unfold sendings_of_application.
  rewrite (flat_map_ext_in _
             (fun s => if Sending.id s =? Application.sending a
                       then [s] else [])).
  - rewrite flat_map_filter. exact Hsel.
  - intros x _.
    rewrite (join_application Application.sending (Sending.id x) x _ a
               (c_applications st C) Ha).
    rewrite Z.eqb_sym. reflexivity.
Qed.

(** The workers the join selects are the workers of the company of the
    application's sending, each once, in table order. *)
Lemma workers_of_application_company (st : Store) (a : Application.t)
  (s : Sending.t) :
  constraints st -> In a (applications st) ->
  In s (sendings st) -> Sending.id s = Application.sending a ->
  workers_of_application st a
  = filter (fun w => WorkerProfile.company w =? Sending.company s)
           (workers st).
Proof.
  intros C Ha Hs Hid. unfold workers_of_application.
  rewrite <- flat_map_filter. apply flat_map_ext_in. intros w Hw.
  destruct (by_pk_found Company.id (WorkerProfile.company w) (companies st)
              (c_companies st C) (c_worker_company st C w Hw))
    as (c & Hc & Hcid & Hsel).
  rewrite Hsel. cbn [flat_map]. rewrite app_nil_r.
  rewrite (flat_map_ext_in _
             (fun s' => if Sending.id s' =? Application.sending a
                        then [w] else [])).
  2:{ intros x _.
      rewrite (join_application Application.sending (Sending.id x) w _ a
                 (c_applications st C) Ha).
      rewrite Z.eqb_sym. reflexivity. }
  rewrite flat_map_select.
  rewrite <- filter_andb.
  rewrite (filter_ext _ (fun x => (Sending.company x =? Company.id c)
                                  && (Sending.id x =? Sending.id s))).
  2:{ intros x. rewrite Hid. apply andb_comm. }
  rewrite filter_andb.
  change (filter (fun x => Sending.id x =? Sending.id s) (sendings st))
    with (by_pk Sending.id (Sending.id s) (sendings st)).
  rewrite (by_pk_unique _ _ _ (c_sendings st C) Hs). cbn [filter].
  rewrite Hcid. rewrite (Z.eqb_sym (Sending.company s)).
  destruct (WorkerProfile.company w =? Sending.company s); reflexivity.
Qed.

Lemma worker_emails_ok (st : Store) (ws : list WorkerProfile.t) :
  constraints st -> (forall w, In w ws -> In w (workers st)) ->
  forall emails,
  exists us,
    Forall2 (fun w u => In u (users st) /\ User.id u = WorkerProfile.user w)
            ws us
    /\ worker_emails st ws emails = Ok (emails ++ map User.email us)%list.
Proof.
  intros C. induction ws as [| w ws IH]; intros Hws emails.
  - exists []. split; [constructor |]. simpl. rewrite app_nil_r. reflexivity.
  - destruct (by_pk_found User.id (WorkerProfile.user w) (users st)
                (c_users st C)
                (c_worker_user st C w (Hws w (or_introl eq_refl))))
      as (u & Hu & Huid & Hsel).
    destruct (IH (fun x Hx => Hws x (or_intror Hx))
                 (emails ++ [User.email u])%list) as (us & Hus & Hrun).
    exists (u :: us). split; [constructor; [split |]; assumption |].
    cbn [worker_emails]. unfold get_user. rewrite Hsel. cbn [get rbind].
    rewrite Hrun. rewrite <- app_assoc. reflexivity.
Qed.

(** ** [need_send] *)

Lemma need_send_cases (st : Store) (o : Order.t) :
  unique_pk Application.order (applications st) = true ->
  ((forall a, In a (applications st) -> Application.order a <> Order.id o)
   /\ order_application st o = Raise ObjectDoesNotExist
   /\ forall q, need_send st o q = (Ok true, q))
  \/ (exists a,
         In a (applications st) /\ Application.order a = Order.id o
         /\ order_application st o = Ok a
         /\ forall q,
             need_send st o q
             = (Ok (negb (Application.status a =? "CONF")%string), q)).
Proof.
  intros Hu.
  assert (Hget : order_application st o
                 = get (by_pk Application.order (Order.id o)
                              (applications st))) by reflexivity.
  destruct (by_pk_cases Application.order (Order.id o) (applications st) Hu)
    as [[Hsel Hnone] | (a & Ha & Hid & Hsel)]; rewrite Hsel in Hget.
  - left. repeat split; [exact Hnone | exact Hget |].
    intros q. unfold need_send, try_except_else, lift.
    rewrite Hget. reflexivity.
  - right. exists a. repeat split; [exact Ha | exact Hid | exact Hget |].
    intros q. unfold need_send, try_except_else, lift, bind, ret.
    rewrite Hget. reflexivity.
Qed.

Lemma need_send_owed (st : Store) (o : Order.t) :
  unique_pk Application.order (applications st) = true ->
  forall q, need_send st o q = (Ok (owed st o), q).
Proof.
  intros Hu q. unfold owed.
  destruct (need_send_cases st o Hu) as [(_ & _ & H) | (a & _ & _ & _ & H)];
    rewrite (H q), (H []); reflexivity.
Qed.

(** C2. For any order, under the one-to-one constraint, [need_send] comes
    out true exactly when the order has no application or its application's
    status is not CONF, and false exactly when the status is CONF; among the
    statuses of [STATUS_SET], "not CONF" is WAIT or DECL.  The
    [ObjectDoesNotExist] of a missing application is caught and turned into
    [need_send = True]: the receiver does not raise and the queue is as it
    was.  In [shop], order 1 (no application) and order 2 (WAIT) are owed a
    message, order 3 (CONF) is not. *)
Theorem need_send_folds_missing_application (st : Store) (order : Order.t)
  (Hone : unique_column application_order_field Application.order
                        (applications st) = true) :
  (forall q,
      exists b,
        need_send st order q = (Ok b, q)
        /\ (b = true
            <-> (forall a, In a (applications st) ->
                           Application.order a <> Order.id order)
                \/ (exists a, In a (applications st)
                              /\ Application.order a = Order.id order
                              /\ Application.status a <> "CONF"))
        /\ (b = false
            <-> exists a, In a (applications st)
                          /\ Application.order a = Order.id order
                          /\ Application.status a = "CONF"))
  /\ (order_application st order = Raise ObjectDoesNotExist ->
      forall q, need_send st order q = (Ok true, q))
  /\ (forall s, In s (map fst Application.STATUS_SET) ->
                (s <> "CONF" <-> s = "WAIT" \/ s = "DECL"))
  /\ (need_send shop order_1 [] = (Ok true, [])
      /\ order_application shop order_1 = Raise ObjectDoesNotExist)
  /\ need_send shop order_2 [] = (Ok true, [])
  /\ need_send shop order_3 [] = (Ok false, []).
Proof.
  change (unique_pk Application.order (applications st) = true) in Hone.
  split; [| split; [| split; [| repeat split]]].
  - intros q.
    destruct (need_send_cases st order Hone)
      as [(Hnone & _ & H) | (a & Ha & Hid & _ & H)].
    + exists true. split; [apply H |]. split.
      * split; [intros _; left; exact Hnone | reflexivity].
      * split; [discriminate |].
        intros (a & Ha & Hid & _). exfalso. exact (Hnone a Ha Hid).
    + exists (negb (Application.status a =? "CONF")%string).
      split; [apply H |].
      assert (Hsame : forall a', In a' (applications st) ->
                                 Application.order a' = Order.id order ->
                                 a' = a).
      { intros a' Ha' Hid'.
        pose proof (by_pk_unique _ _ _ Hone Ha) as H1.
        pose proof (by_pk_unique _ _ _ Hone Ha') as H2.
        rewrite Hid in H1. rewrite Hid' in H2. congruence. }
      destruct (Application.status a =? "CONF")%string eqn:E; simpl.
      * apply String.eqb_eq in E. split.
        -- split; [discriminate |].
           intros [Hnone | (a' & Ha' & Hid' & Hs)].
           ++ exfalso. exact (Hnone a Ha Hid).
           ++ rewrite (Hsame a' Ha' Hid') in Hs. contradiction.
        -- split; [intros _ | reflexivity]. exists a. tauto.
      * apply String.eqb_neq in E. split.
        -- split; [intros _ | reflexivity]. right. exists a. tauto.
        -- split; [discriminate |].
           intros (a' & Ha' & Hid' & Hs).
           rewrite (Hsame a' Ha' Hid') in Hs. contradiction.
  - intros Hraise q.
    destruct (need_send_cases st order Hone)
      as [(_ & _ & H) | (a & _ & _ & Hok & _)]; [apply H | congruence].
  - intros s Hs. simpl in Hs.
    destruct Hs as [<- | [<- | [<- | []]]]; split; intros H.
    + left. reflexivity.
    + discriminate.
    + exfalso. apply H. reflexivity.
    + destruct H as [H | H]; discriminate H.
    + right. reflexivity.
    + discriminate.
Qed.

Lemma nodupb_NoDup (l : list Z) : nodupb l = true -> NoDup l.
Proof.
  induction l as [| x l IH]; intros H; [constructor |].
  cbn [nodupb] in H. apply andb_true_iff in H. destruct H as [Hx Hl].
  constructor; [| apply IH; exact Hl].
  apply negb_true_iff in Hx. intros Hin.
  assert (existsb (Z.eqb x) l = true).
  { apply existsb_exists. exists x. split; [exact Hin | apply Z.eqb_refl]. }
  congruence.
Qed.

Lemma unique_pk_NoDup {A} (pk : A -> Z) (rows : list A) :
  unique_pk pk rows = true -> NoDup rows.
Proof.
  intros H. apply (NoDup_map_inv pk). apply nodupb_NoDup. exact H.
Qed.

Lemma owner_of_application (st : Store) (a : Application.t) :
  constraints st -> In a (applications st) ->
  exists o u,
    In o (orders st) /\ Order.id o = Application.order a
    /\ In u (users st) /\ User.id u = Order.user o
    /\ get_order st (Application.order a) = Ok o
    /\ get_user st (Order.user o) = Ok u
    /\ orders_of_application st a = [o].
Proof.
  intros C Ha.
  destruct (orders_of_application_one st a C Ha) as (o & Ho & Hoid & Hosel).
  destruct (by_pk_found User.id (Order.user o) (users st) (c_users st C)
              (c_order_user st C o Ho)) as (u & Hu & Huid & Husel).
  exists o, u. repeat split; try assumption.
  - unfold get_order. rewrite <- Hoid.
    rewrite (by_pk_unique _ _ _ (c_orders st C) Ho). reflexivity.
  - unfold get_user. rewrite Husel. reflexivity.
Qed.

(** ** The receivers *)

Section SignalProperties.

Variable render_to_string : string -> context -> string.
Variable strip_tags : string -> string.
Variable SITE_URL : string.
Variable DEFAULT_FROM_EMAIL : string.

Local Abbreviation created_email :=
  (application_created_email render_to_string strip_tags SITE_URL
                             DEFAULT_FROM_EMAIL).
Local Abbreviation created_task :=
  (application_created_task render_to_string strip_tags SITE_URL
                            DEFAULT_FROM_EMAIL).
Local Abbreviation status_email :=
  (application_status_email render_to_string strip_tags SITE_URL
                            DEFAULT_FROM_EMAIL).
Local Abbreviation status_task :=
  (application_status_task render_to_string strip_tags SITE_URL
                           DEFAULT_FROM_EMAIL).
Local Abbreviation sendings_email :=
  (new_sendings_email render_to_string strip_tags SITE_URL
                      DEFAULT_FROM_EMAIL).
Local Abbreviation sending_task :=
  (new_sending_task render_to_string strip_tags SITE_URL DEFAULT_FROM_EMAIL).
Local Abbreviation notifications :=
  (notifications render_to_string strip_tags SITE_URL DEFAULT_FROM_EMAIL).

(** C6. For a saved, newly created application of any status,
    [application_created_email] queues exactly one
    [send_many_email_celery] task.  Its recipients are the addresses of the
    workers of the company that owns the application's sending, one address
    per worker in table order, equal addresses kept; its body is the
    template of the new application, rendered with the order, the sending
    and the application.  A save that is not a creation queues nothing.  In
    [shop] the company has three workers and the one task carries three
    addresses, two of them equal. *)
Theorem application_created_broadcast (st : Store) (instance : Application.t)
  (Hst : integrity st = true) (Hin : In instance (applications st)) :
  (forall q, created_email st instance false q = (Ok tt, q))
  /\ (exists order sending us,
         In order (orders st)
         /\ Order.id order = Application.order instance
         /\ In sending (sendings st)
         /\ Sending.id sending = Application.sending instance
         /\ Forall2 (fun w u => In u (users st)
                                /\ User.id u = WorkerProfile.user w)
                    (filter (fun w => WorkerProfile.company w
                                      =? Sending.company sending)
                            (workers st))
                    us
         /\ forall q,
             let html_message :=
               render_to_string "emails/application_created.html"
                 [("order", COrder order); ("sending", CSending sending);
                  ("application", CApplication instance);
                  ("SITE_URL", CStr SITE_URL)] in
             created_email st instance true q
             = (Ok tt,
                (q ++ [send_many_email_celery
                         "Появилась новая заявка для вашей компании"
                         (strip_tags html_message) DEFAULT_FROM_EMAIL
                         (map User.email us) html_message])%list))
  /\ (let html_message :=
        render_to_string "emails/application_created.html"
          [("order", COrder order_2); ("sending", CSending sending_1);
           ("application", CApplication application_2);
           ("SITE_URL", CStr SITE_URL)] in
      created_email shop application_2 true []
      = (Ok tt,
         [send_many_email_celery
            "Появилась новая заявка для вашей компании"
            (strip_tags html_message) DEFAULT_FROM_EMAIL
            ["desk@carrier.example"; "desk@carrier.example";
             "boss@carrier.example"]
            html_message])).
Proof.
  split; [reflexivity |]. split; [| reflexivity].
  pose proof (integrity_constraints st Hst) as C.
  destruct (orders_of_application_one st instance C Hin)
    as (o & Ho & Hoid & Hosel).
  destruct (sendings_of_application_one st instance C Hin)
    as (s & Hs & Hsid & Hssel).
  pose proof (workers_of_application_company st instance s C Hin Hs Hsid)
    as Hws.
  destruct (worker_emails_ok st (workers_of_application st instance) C)
    with (emails := @nil string) as (us & Hus & Hrun).
  { intros w Hw. rewrite Hws in Hw. apply filter_In in Hw. tauto. }
  exists o, s, us. rewrite <- Hws.
  repeat split; try assumption.
  intros q. cbv zeta. unfold application_created_email, bind, lift, delay.
  rewrite Hrun, Hosel, Hssel. reflexivity.
Qed.

(** C5. Every save of an application, the first one included, makes
    [application_status_email] queue exactly one [send_email_celery] task
    when the status is CONF or DECL, and nothing for any other status; the
    [created] flag plays no part.  The task is addressed to the owner of
    the order, and its body is the status template rendered with the label
    "Подтверждено" for CONF and "Отклонено" for DECL, the order and the
    sending.  In [shop] an application created with CONF notifies the owner
    of its order at once, and one created with WAIT notifies nobody. *)
Theorem application_status_notifies (st : Store) (instance : Application.t)
  (Hst : integrity st = true) (Hin : In instance (applications st)) :
  (exists order sending u,
      In order (orders st)
      /\ Order.id order = Application.order instance
      /\ In sending (sendings st)
      /\ Sending.id sending = Application.sending instance
      /\ In u (users st)
      /\ User.id u = Order.user order
      /\ forall created q,
          let html_message (label : string) :=
            render_to_string "emails/application_status.html"
              [("status", CStr label); ("order", COrder order);
               ("sending", CSending sending); ("SITE_URL", CStr SITE_URL)] in
          (Application.status instance = "CONF" ->
           status_email st instance created q
           = (Ok tt,
              (q ++ [send_email_celery
                       "Обновлён статус заявки"
                       (strip_tags (html_message "Подтверждено"))
                       DEFAULT_FROM_EMAIL (User.email u)
                       (html_message "Подтверждено")])%list))
          /\ (Application.status instance = "DECL" ->
              status_email st instance created q
              = (Ok tt,
                 (q ++ [send_email_celery
                          "Обновлён статус заявки"
                          (strip_tags (html_message "Отклонено"))
                          DEFAULT_FROM_EMAIL (User.email u)
                          (html_message "Отклонено")])%list))
          /\ (Application.status instance <> "CONF" ->
              Application.status instance <> "DECL" ->
              status_email st instance created q = (Ok tt, q)))
  /\ (let html_message :=
        render_to_string "emails/application_status.html"
          [("status", CStr "Подтверждено"); ("order", COrder order_3);
           ("sending", CSending sending_1); ("SITE_URL", CStr SITE_URL)] in
      status_email shop application_3 true []
      = (Ok tt,
         [send_email_celery "Обновлён статус заявки"
                            (strip_tags html_message) DEFAULT_FROM_EMAIL
                            "alice@example.com" html_message]))
  /\ status_email shop application_2 true [] = (Ok tt, []).
Proof.
  split; [| split; reflexivity].
  pose proof (integrity_constraints st Hst) as C.
  destruct (owner_of_application st instance C Hin)
    as (o & u & Ho & Hoid & Hu & Huid & Hgo & Hgu & Hosel).
  destruct (sendings_of_application_one st instance C Hin)
    as (s & Hs & Hsid & Hssel).
  exists o, s, u. repeat split; try assumption.
  - intros Hc. unfold application_status_email, status_label.
    rewrite Hc. cbn [String.eqb Ascii.eqb Bool.eqb andb].
    unfold bind, lift, delay. rewrite Hgo, Hgu, Hosel, Hssel. reflexivity.
  - intros Hd. unfold application_status_email, status_label.
    rewrite Hd. cbn [String.eqb Ascii.eqb Bool.eqb andb].
    unfold bind, lift, delay. rewrite Hgo, Hgu, Hosel, Hssel. reflexivity.
  - intros Hc Hd. unfold application_status_email, status_label.
    apply String.eqb_neq in Hc, Hd. rewrite Hc, Hd. reflexivity.
Qed.

Lemma for_each_notifies (st : Store) (instance : Sending.t)
  (os : list Order.t) :
  constraints st -> (forall o, In o os -> In o (orders st)) ->
  exists us,
    Forall2 (fun o u => In u (users st) /\ User.id u = Order.user o)
            (filter (owed st) os) us
    /\ forall q,
        for_each os
          (fun order =>
             (ns <- need_send st order ;;
              if ns then
                u <- lift (get_user st (Order.user order)) ;;
                delay (sending_task order instance (User.email u))
              else ret tt)%sig) q
        = (Ok tt, (q ++ notifications instance (filter (owed st) os) us)%list).
Proof.
  intros C. induction os as [| o os IH]; intros Hos.
  - exists []. split; [constructor |]. intros q. simpl.
    unfold ret. rewrite app_nil_r. reflexivity.
  - destruct (IH (fun x Hx => Hos x (or_intror Hx))) as (us & Hus & Hrun).
    cbn [filter for_each]. destruct (owed st o) eqn:Eo.
    + destruct (by_pk_found User.id (Order.user o) (users st)
                  (c_users st C)
                  (c_order_user st C o (Hos o (or_introl eq_refl))))
        as (u & Hu & Huid & Hsel).
      exists (u :: us). split; [constructor; [split |]; assumption |].
      intros q. unfold bind at 1.
      unfold bind at 1. rewrite (need_send_owed st o (c_one_to_one st C) q).
      rewrite Eo. unfold bind at 1. unfold lift, get_user. rewrite Hsel.
      cbn [get]. unfold delay. rewrite Hrun.
      unfold notifications. cbn [combine map fst snd].
      rewrite <- app_assoc. reflexivity.
    + exists us. split; [exact Hus |].
      intros q. unfold bind at 1.
      unfold bind at 1. rewrite (need_send_owed st o (c_one_to_one st C) q).
      rewrite Eo. unfold ret. apply Hrun.
Qed.

(** C1. Saving a sending that already existed queues nothing.  Creating
    one makes [new_sendings_email] look at exactly the orders whose
    departure city is the city of the sending's departure warehouse, whose
    arrival city is the city of its arrival warehouse and whose departure
    date is the sending's, each once; it queues one [send_email_celery]
    task, to the owner, for each of them that is owed one, and no other.
    In [shop], orders 1 and 2 are notified, order 3 (confirmed) and order 4
    (another date) are not. *)
Theorem new_sendings_email_matches (st : Store) (instance : Sending.t)
  (Hst : integrity st = true) (Hin : In instance (sendings st)) :
  (forall q, sendings_email st instance false q = (Ok tt, q))
  /\ (exists dw aw evaluated us,
         In dw (warehouses st)
         /\ Warehouse.id dw = Sending.departure_warehouse instance
         /\ In aw (warehouses st)
         /\ Warehouse.id aw = Sending.arrival_warehouse instance
         /\ (forall o,
                In o evaluated
                <-> In o (orders st)
                    /\ Order.departure_city o = Warehouse.city dw
                    /\ Order.arrival_city o = Warehouse.city aw
                    /\ Order.departure_date o
                       = Sending.departure_date instance)
         /\ NoDup evaluated
         /\ Forall2 (fun o u => In u (users st)
                                /\ User.id u = Order.user o)
                    (filter (owed st) evaluated) us
         /\ forall q,
             sendings_email st instance true q
             = (Ok tt,
                (q ++ notifications instance (filter (owed st) evaluated)
                        us)%list))
  /\ sendings_email shop sending_1 true []
     = (Ok tt, [sending_task order_1 sending_1 "alice@example.com";
                sending_task order_2 sending_1 "bob@example.com"]).
Proof.
  split; [reflexivity |]. split; [| reflexivity].
  pose proof (integrity_constraints st Hst) as C.
  destruct (by_pk_found Warehouse.id (Sending.departure_warehouse instance)
              (warehouses st) (c_warehouses st C)
              (c_sending_departure st C instance Hin))
    as (dw & Hdw & Hdwid & Hdwsel).
  destruct (by_pk_found Warehouse.id (Sending.arrival_warehouse instance)
              (warehouses st) (c_warehouses st C)
              (c_sending_arrival st C instance Hin))
    as (aw & Haw & Hawid & Hawsel).
  destruct (by_pk_found City.id (Warehouse.city dw) (cities st)
              (c_cities st C) (c_warehouse_city st C dw Hdw))
    as (dc & Hdc & Hdcid & Hdcsel).
  destruct (by_pk_found City.id (Warehouse.city aw) (cities st)
              (c_cities st C) (c_warehouse_city st C aw Haw))
    as (ac & Hac & Hacid & Hacsel).
  set (evaluated := filter_orders st dc ac (Sending.departure_date instance)).
  destruct (for_each_notifies st instance evaluated C) as (us & Hus & Hrun).
  { intros o Ho. apply filter_In in Ho. tauto. }
  exists dw, aw, evaluated, us.
  repeat split; try assumption.
  - apply filter_In in H. tauto.
  - apply filter_In in H. destruct H as [_ H].
    rewrite !andb_true_iff, !Z.eqb_eq in H. rewrite <- Hdcid. tauto.
  - apply filter_In in H. destruct H as [_ H].
    rewrite !andb_true_iff, !Z.eqb_eq in H. rewrite <- Hacid. tauto.
  - apply filter_In in H. destruct H as [_ H].
    rewrite !andb_true_iff, date_eqb_eq in H. tauto.
  - intros (Ho & H1 & H2 & H3). apply filter_In. split; [exact Ho |].
    rewrite !andb_true_iff, !Z.eqb_eq, date_eqb_eq.
    rewrite Hdcid, Hacid. tauto.
  - apply NoDup_filter. apply (unique_pk_NoDup Order.id). exact (c_orders st C).
  - intros q. unfold new_sendings_email, get_warehouse, get_city.
    unfold bind at 1. unfold lift at 1. rewrite Hdwsel. cbn [get].
    unfold bind at 1. unfold lift at 1. rewrite Hdcsel. cbn [get].
    unfold bind at 1. unfold lift at 1. rewrite Hawsel. cbn [get].
    unfold bind at 1. unfold lift at 1. rewrite Hacsel. cbn [get].
    apply Hrun.
Qed.

End SignalProperties.

(** ** One application per order *)

Lemma NoDup_nodupb (l : list Z) : NoDup l -> nodupb l = true.
Proof.
  induction 1 as [| x l Hx _ IH]; [reflexivity |].
  cbn [nodupb]. rewrite IH, andb_true_r. apply negb_true_iff.
  destruct (existsb (Z.eqb x) l) eqn:E; [| reflexivity].
  apply existsb_exists in E. destruct E as (y & Hy & Hxy).
  apply Z.eqb_eq in Hxy. subst y. contradiction.
Qed.

Lemma filter_all {A} (p : A -> bool) (l : list A) :
  (forall x, In x l -> p x = true) -> filter p l = l.
Proof.
  induction l as [| x l IH]; intros H; simpl; [reflexivity |].
  rewrite (H x) by (left; reflexivity). f_equal.
  apply IH. intros y Hy. apply H. right. exact Hy.
Qed.

Lemma NoDup_map_filter {A} (f : A -> Z) (p : A -> bool) (l : list A) :
  NoDup (map f l) -> NoDup (map f (filter p l)).
Proof.
  induction l as [| x l IH]; intros H; simpl; [constructor |].
  inversion H as [| ? ? Hx Hl]; subst.
  destruct (p x); [| apply IH; exact Hl].
  simpl. constructor; [| apply IH; exact Hl].
  intros Hin. apply Hx. apply in_map_iff in Hin.
  destruct Hin as (y & Hy & Hin). apply filter_In in Hin.
  apply in_map_iff. exists y. tauto.
Qed.

Lemma existsb_order_false (others : list Application.t) (k : Z) :
  existsb (fun a' => Application.order a' =? k) others = false ->
  ~ In k (map Application.order others).
Proof.
  intros H Hin. apply in_map_iff in Hin. destruct Hin as (x & Hx & Hin).
  assert (existsb (fun a' => Application.order a' =? k) others = true).
  { apply existsb_exists. exists x. split; [exact Hin |].
    apply Z.eqb_eq. exact Hx. }
  congruence.
Qed.

Lemma save_keeps_indexes (st st' : Store) (a : Application.t) :
  indexes_hold st -> save_application st a = Ok st' -> indexes_hold st'.
Proof.
  intros [Hid Hord]. unfold save_application.
  destruct (conflicts st _ a) eqn:Ec; [discriminate |].
  unfold conflicts in Ec. cbn [application_order_field is_unique
                               application_sending_field andb] in Ec.
  rewrite orb_false_r in Ec.
  apply orb_false_iff in Ec. destruct Ec as [_ Ec].
  apply existsb_order_false in Ec.
  destruct (has_pk Application.id (Application.id a) (applications st)) eqn:Eh;
    intros H; injection H as <-; unfold indexes_hold, set_applications;
    cbn [applications].
  - (* UPDATE *)
    destruct (has_pk_in _ _ _ Eh) as (a0 & Ha0 & Hid0).
    destruct (in_split _ _ Ha0) as (l1 & l2 & Hsplit).
    rewrite Hsplit in *. clear Ha0 Eh.
    rewrite map_app in Hid, Hord. cbn [map] in Hid, Hord.
    pose proof (NoDup_remove_2 _ _ _ Hid) as Hfresh.
    rewrite <- map_app in Hfresh.
    assert (Hne : forall x, In x (l1 ++ l2) ->
                            (Application.id x =? Application.id a) = false).
    { intros x Hx. apply Z.eqb_neq. intros Heq. apply Hfresh.
      rewrite Hid0, <- Heq. apply in_map. exact Hx. }
    assert (Hothers :
      filter (fun a' => negb (Application.id a' =? Application.id a))
             (l1 ++ a0 :: l2) = (l1 ++ l2)%list).
    { rewrite filter_app. cbn [filter]. rewrite Hid0, Z.eqb_refl. cbn [negb].
      rewrite <- filter_app. apply filter_all.
      intros x Hx. rewrite (Hne x Hx). reflexivity. }
    rewrite Hothers in Ec.
    assert (Hmap :
      map (fun a' => if Application.id a' =? Application.id a then a else a')
          (l1 ++ a0 :: l2) = (l1 ++ a :: l2)%list).
    { rewrite map_app. cbn [map]. rewrite Hid0, Z.eqb_refl.
      assert (Hsame : forall l, (forall x, In x l -> In x (l1 ++ l2)) ->
        map (fun a' => if Application.id a' =? Application.id a
                       then a else a') l = l).
      { induction l as [| x l IH]; intros Hl; simpl; [reflexivity |].
        rewrite (Hne x) by (apply Hl; left; reflexivity). f_equal.
        apply IH. intros y Hy. apply Hl. right. exact Hy. }
      rewrite !Hsame; [reflexivity | |];
        intros x Hx; apply in_or_app; tauto. }
    rewrite Hmap, !map_app. cbn [map]. split.
    + rewrite <- Hid0. exact Hid.
    + apply NoDup_remove_1 in Hord.
      rewrite map_app in Ec.
      apply (NoDup_Add (Add_app (Application.order a) _ _)).
      split; assumption.
  - (* INSERT *)
    assert (Hall :
      filter (fun a' => negb (Application.id a' =? Application.id a))
             (applications st) = applications st).
    { apply filter_all. intros x Hx. apply negb_true_iff, Z.eqb_neq.
      intros Heq. rewrite <- Heq, in_has_pk in Eh by exact Hx. discriminate. }
    rewrite Hall in Ec. rewrite !map_app. cbn [map]. split.
    + apply (NoDup_Add (Add_app (Application.id a) _ [])).
      rewrite app_nil_r. split; [exact Hid |].
      intros Hin. apply in_map_iff in Hin. destruct Hin as (x & Hx & Hin).
      rewrite <- Hx, in_has_pk in Eh by exact Hin. discriminate.
    + apply (NoDup_Add (Add_app (Application.order a) _ [])).
      rewrite app_nil_r. split; assumption.
Qed.

Lemma step_keeps_indexes (st st' : Store) :
  indexes_hold st -> step st st' -> indexes_hold st'.
Proof.
  intros Hinv Hstep. destruct Hstep as [st a st' Hsave | st keep | st st' Heq].
  - exact (save_keeps_indexes st st' a Hinv Hsave).
  - destruct Hinv as [Hid Hord]. split; cbn [set_applications applications];
      apply NoDup_map_filter; assumption.
  - unfold indexes_hold in *. rewrite Heq. exact Hinv.
Qed.

Lemma reachable_indexes (st : Store) : reachable st -> indexes_hold st.
Proof.
  induction 1 as [| st st' _ IH Hstep].
  - split; constructor.
  - exact (step_keeps_indexes st st' IH Hstep).
Qed.

Lemma next_pk_fresh (apps : list Application.t) (a : Application.t) :
  In a apps -> Application.id a < next_pk apps.
Proof.
  unfold next_pk. induction apps as [| x apps IH]; intros H; [destruct H |].
  cbn [map fold_right]. destruct H as [-> | H]; [lia |].
  specialize (IH H). lia.
Qed.

Lemma save_second_raises (st : Store) (first a : Application.t) :
  In first (applications st) ->
  Application.order a = Application.order first ->
  Application.id a <> Application.id first ->
  save_application st a = Raise IntegrityError.
Proof.
  intros Hin Hord Hid. unfold save_application.
  assert (Hex :
    existsb (fun a' => Application.order a' =? Application.order a)
            (filter (fun a' => negb (Application.id a' =? Application.id a))
                    (applications st)) = true).
  { apply existsb_exists. exists first. split.
    - apply filter_In. split; [exact Hin |].
      apply negb_true_iff, Z.eqb_neq. congruence.
    - apply Z.eqb_eq. congruence. }
  unfold conflicts. rewrite Hex.
  cbn [application_order_field is_unique andb].
  rewrite orb_true_r. reflexivity.
Qed.

(** C9. In every store that writes can reach from the empty one, an order
    has at most one application: the [OneToOneField] makes the column
    unique.  Creating a second application for an order that has one, or
    saving another application onto that order, raises [IntegrityError]
    and yields no new store, so the first application stays as it was. *)
Theorem one_application_per_order (st : Store) (Hreach : reachable st) :
  (forall o : Order.t,
      (List.length
         (filter (fun a => (Application.order a =? Order.id o)%Z)
                 (applications st)) <= 1)%nat)
  /\ (forall a a', In a (applications st) -> In a' (applications st) ->
                   Application.order a = Application.order a' -> a = a')
  /\ (forall first order sending status info,
         In first (applications st) -> Application.order first = order ->
         create_application st order sending status info
         = Raise IntegrityError)
  /\ (forall first a,
         In first (applications st) ->
         Application.order a = Application.order first ->
         Application.id a <> Application.id first ->
         save_application st a = Raise IntegrityError).
Proof.
  destruct (reachable_indexes st Hreach) as [_ Hord].
  apply NoDup_nodupb in Hord.
  change (unique_pk Application.order (applications st) = true) in Hord.
  split; [| split; [| split]].
  - intros o.
    change (filter (fun a => Application.order a =? Order.id o)
                   (applications st))
      with (by_pk Application.order (Order.id o) (applications st)).
    destruct (by_pk_cases Application.order (Order.id o) _ Hord)
      as [[-> _] | (r & _ & _ & ->)]; simpl; lia.
  - intros a a' Ha Ha' Heq.
    pose proof (by_pk_unique _ _ _ Hord Ha) as H1.
    pose proof (by_pk_unique _ _ _ Hord Ha') as H2.
    rewrite Heq in H1. congruence.
  - intros first order sending status info Hin Hfirst.
    unfold create_application.
    apply (save_second_raises st first); [exact Hin | simpl; congruence |].
    simpl. pose proof (next_pk_fresh _ _ Hin). lia.
  - intros first a. apply save_second_raises.
Qed.

Lemma shop_reachable : reachable shop.
Proof.
  apply (reachable_step
           (set_applications shop [application_2]) shop).
  - apply (reachable_step (set_applications shop []) _).
    + apply (reachable_step empty_store _); [constructor |].
      apply step_other. reflexivity.
    + apply (step_save _ application_2). reflexivity.
  - apply (step_save _ application_3). reflexivity.
Defined.

Lemma one_application_per_order_witness :
  reachable shop
  /\ create_application shop 2 1 "WAIT" "" = Raise IntegrityError.
Proof.
  split; [exact shop_reachable |].
  apply (proj1 (proj2 (proj2 (one_application_per_order shop shop_reachable)))
           application_2).
  - simpl. tauto.
  - reflexivity.
Defined.

(** ** The receivers on the sample store *)

Lemma need_send_folds_missing_application_witness :
  unique_column application_order_field Application.order
                (applications shop) = true
  /\ (order_application shop order_1 = Raise ObjectDoesNotExist ->
      forall q, need_send shop order_1 q = (Ok true, q)).
Proof.
  split; [reflexivity |].
  exact (proj1 (proj2 (need_send_folds_missing_application
                         shop order_1 eq_refl))).
Defined.

Lemma new_sendings_email_matches_witness :
  integrity shop = true
  /\ In sending_1 (sendings shop)
  /\ forall q,
      new_sendings_email sample_render sample_strip_tags
                         "https://cargo.example" "noreply@cargo.example"
                         shop sending_1 false q
      = (Ok tt, q).
Proof.
  split; [reflexivity |]. split; [left; reflexivity |].
  exact (proj1 (new_sendings_email_matches
                  sample_render sample_strip_tags
                  "https://cargo.example" "noreply@cargo.example"
                  shop sending_1 eq_refl (or_introl eq_refl))).
Defined.

Lemma application_status_notifies_witness :
  integrity shop = true
  /\ In application_3 (applications shop)
  /\ application_status_email sample_render sample_strip_tags
                              "https://cargo.example" "noreply@cargo.example"
                              shop application_3 true []
     = (Ok tt,
        [send_email_celery "Обновлён статус заявки"
                           "<p>emails/application_status.html</p>"
                           "noreply@cargo.example" "alice@example.com"
                           "<p>emails/application_status.html</p>"])
  /\ application_status_email sample_render sample_strip_tags
                              "https://cargo.example" "noreply@cargo.example"
                              shop application_2 true []
     = (Ok tt, []).
Proof.
  split; [reflexivity |]. split; [right; left; reflexivity |].
  exact (proj2 (application_status_notifies
                  sample_render sample_strip_tags
                  "https://cargo.example" "noreply@cargo.example"
                  shop application_3 eq_refl
                  (or_intror (or_introl eq_refl)))).
Defined.

Lemma application_created_broadcast_witness :
  integrity shop = true
  /\ In application_2 (applications shop)
  /\ (forall q,
         application_created_email sample_render sample_strip_tags
                                   "https://cargo.example"
                                   "noreply@cargo.example"
                                   shop application_2 false q
         = (Ok tt, q))
  /\ application_created_email sample_render sample_strip_tags
                               "https://cargo.example" "noreply@cargo.example"
                               shop application_2 true []
     = (Ok tt,
        [send_many_email_celery
           "Появилась новая заявка для вашей компании"
           "<p>emails/application_created.html</p>" "noreply@cargo.example"
           ["desk@carrier.example"; "desk@carrier.example";
            "boss@carrier.example"]
           "<p>emails/application_created.html</p>"]).
Proof.
  split; [reflexivity |]. split; [left; reflexivity |].
  pose proof (application_created_broadcast
                sample_render sample_strip_tags
                "https://cargo.example" "noreply@cargo.example"
                shop application_2 eq_refl (or_introl eq_refl)) as H.
  exact (conj (proj1 H) (proj2 (proj2 H))).
Defined.

(** ** [Application.price] over binary64 *)

(** C8. Under the constraints of the database, [price] of a saved
    application is [round(float(cargo_volume) * float(price_for_m3), 2)]
    over binary64 numbers, for the order and the sending of the
    application: each decimal is converted to a double first, the two
    doubles are multiplied, and the product is rounded to two decimals.
    When [cargo_volume] raises, [price] raises the same exception.  Order 1
    (0.1 m^3) on a sending at 500.00 per m^3 costs the double 50.0.  That
    the conversion comes first shows for 0.001 m^3 at 205.00 per m^3: the
    price is the double 0.21, where the decimal product 0.205, converted
    and rounded after the multiplication, gives the double 0.2. *)
Theorem price_rounds_float_product (st : Store) (self : Application.t)
  (Hst : integrity st = true) (Hin : In self (applications st)) :
  (exists order sending,
      In order (orders st)
      /\ Order.id order = Application.order self
      /\ In sending (sendings st)
      /\ Sending.id sending = Application.sending self
      /\ (forall e, Order.cargo_volume order = Raise e ->
                    price_binary64 st self = Raise e)
      /\ (forall cv, Order.cargo_volume order = Ok cv ->
                     price_binary64 st self
                     = Float.round
                         (Float.mul (Float.of_decimal cv)
                                    (Float.of_decimal
                                       (Sending.price_for_m3 sending)))
                         2))
  /\ (Order.cargo_volume order_1 = Ok (Dec.mk 10 (-2))
      /\ Sending.price_for_m3 sending_1 = Dec.mk 50000 (-2)
      /\ Float.of_decimal (Dec.mk 10 (-2))
         = S754_finite false 7205759403792794 (-56)
      /\ Float.of_decimal (Dec.mk 50000 (-2))
         = S754_finite false 8796093022208000 (-44)
      /\ price_binary64 shop_unlinked application_1
         = Ok (S754_finite false 7036874417766400 (-47))
      /\ (Float.val (S754_finite false 7036874417766400 (-47)) == 50)%Q)
  /\ (Order.cargo_volume order_3 = Ok (Dec.mk 1 (-3))
      /\ Sending.price_for_m3 sending_205 = Dec.mk 20500 (-2)
      /\ price_binary64 shop_205 application_3
         = Ok (S754_finite false 7566047373982433 (-55))
      /\ Float.of_decimal (Dec.mk 21 (-2))
         = S754_finite false 7566047373982433 (-55)
      /\ Float.round
           (Float.of_decimal (Dec.mul (Dec.mk 1 (-3)) (Dec.mk 20500 (-2)))) 2
         = Ok (S754_finite false 7205759403792794 (-55))
      /\ Float.of_decimal (Dec.mk 20 (-2))
         = S754_finite false 7205759403792794 (-55)).
Proof.
  split; [| split; repeat split; vm_compute; reflexivity].
  pose proof (integrity_constraints st Hst) as C.
  destruct (by_pk_found Order.id (Application.order self) (orders st)
              (c_orders st C) (c_application_order st C self Hin))
    as (o & Ho & Hoid & Hosel).
  destruct (by_pk_found Sending.id (Application.sending self) (sendings st)
              (c_sendings st C) (c_application_sending st C self Hin))
    as (s & Hs & Hsid & Hssel).
  exists o, s. repeat split; try assumption.
  - intros e He. unfold price_binary64, price, get_order.
    rewrite Hosel. cbn [get rbind]. rewrite He. reflexivity.
  - intros cv Hcv. unfold price_binary64, price, get_order, get_sending.
    rewrite Hosel. cbn [get rbind]. rewrite Hcv. cbn [rbind].
    rewrite Hssel. reflexivity.
Qed.

Lemma price_rounds_float_product_witness :
  integrity shop_unlinked = true
  /\ In application_1 (applications shop_unlinked)
  /\ price_binary64 shop_unlinked application_1
     = Ok (S754_finite false 7036874417766400 (-47)).
Proof.
  split; [reflexivity |]. split; [left; reflexivity |].
  exact (proj1 (proj2 (proj2 (proj2 (proj2
           (proj1 (proj2 (price_rounds_float_product
                            shop_unlinked application_1 eq_refl
                            (or_introl eq_refl))))))))).
Defined.

(** * Further properties of the models *)

(** ** [Order.cargo_volume] at its edges *)

Lemma round_raises_only (x : Dec.t) (n : Z) (e : exn) :
  Dec.round x n = Raise e -> e = InvalidOperation.
Proof.
  unfold Dec.round, Dec.quantize.
  destruct (Dec.coef x =? 0); [discriminate |].
  destruct (_ >? Dec.prec); [intros H; injection H as <-; reflexivity |].
  destruct (_ >? Dec.prec); [intros H; injection H as <-; reflexivity |].
  discriminate.
Qed.

Lemma cargo_volume_raise_kind (o : Order.t) (e : exn) :
  Order.cargo_volume o = Raise e -> e = InvalidOperation.
Proof.
  unfold Order.cargo_volume, rbind. intros E.
  destruct (Dec.round _ 2) as [r |] eqn:Er.
  - destruct (round_shape _ _ _ Er) as [_ Hc].
    destruct (truediv_million r Hc) as (v & Hv & _). congruence.
  - injection E as <-. exact (round_raises_only _ _ _ Er).
Qed.




Lemma Qabs_hundredths_le (q B : Z) :
  (inject_Z B <= Qabs (inject_Z q * (10 # 1) ^ (-2)))%Q <->
  B * 100 <= Z.abs q.
Proof.
  change ((10 # 1) ^ (-2))%Q with (1 # 100)%Q.
  unfold Qle, Qabs, Qmult, inject_Z. cbn [Qnum Qden].
  rewrite Z.mul_1_r. change (Z.pos (1 * 100)) with 100. lia.
Qed.

Lemma rounded_product (o : Order.t) :
  decimal_field 10 1 (Order.cargo_len o) = true ->
  decimal_field 10 1 (Order.cargo_width o) = true ->
  decimal_field 10 1 (Order.cargo_depth o) = true ->
  (Qround2 (Dec.val (Order.cargo_len o) * Dec.val (Order.cargo_width o)
            * Dec.val (Order.cargo_depth o))
   == inject_Z (Dec.div_half_even (product_milli o) 10)
      * (10 # 1) ^ (-2))%Q.
Proof.
  intros Hl Hw Hd.
  destruct (decimal_field_spec _ _ _ Hl) as [El _].
  destruct (decimal_field_spec _ _ _ Hw) as [Ew _].
  destruct (decimal_field_spec _ _ _ Hd) as [Ed _].
  pose proof (Qround2_scaled _ _ 1 ltac:(lia) (dims_product o El Ew Ed)) as H.
  exact H.
Qed.

(** X2. For dimensions that are values of their columns, [cargo_volume]
    raises [InvalidOperation] exactly when the product, rounded to two
    decimals, reaches 10^26 cm^3, that is when it would take more than 28
    digits. *)
Theorem cargo_volume_raises_iff (o : Order.t)
  (Hlen : decimal_field 10 1 (Order.cargo_len o) = true)
  (Hwidth : decimal_field 10 1 (Order.cargo_width o) = true)
  (Hdepth : decimal_field 10 1 (Order.cargo_depth o) = true) :
  Order.cargo_volume o = Raise InvalidOperation
  <-> (inject_Z (10 ^ 26)
       <= Qabs (Qround2 (Dec.val (Order.cargo_len o)
                         * Dec.val (Order.cargo_width o)
                         * Dec.val (Order.cargo_depth o))))%Q.
Proof.
  rewrite (rounded_product o Hlen Hwidth Hdepth), Qabs_hundredths_le.
  change (10 ^ 26 * 100) with (10 ^ 28). split.
  - intros Hraise.
    destruct (Z_lt_ge_dec (Z.abs (Dec.div_half_even (product_milli o) 10))
                          (10 ^ 28)) as [Hlt | Hge]; [| lia].
    destruct (cargo_volume_exact o Hlen Hwidth Hdepth Hlt) as (v & Hv & _).
    congruence.
  - apply cargo_volume_overflow; assumption.
Qed.

Lemma cargo_volume_raises_iff_witness :
  decimal_field 10 1 (Order.cargo_len order_huge) = true
  /\ decimal_field 10 1 (Order.cargo_width order_huge) = true
  /\ decimal_field 10 1 (Order.cargo_depth order_huge) = true
  /\ (Order.cargo_volume order_huge = Raise InvalidOperation
      <-> (inject_Z (10 ^ 26)
           <= Qabs (Qround2 (Dec.val (Order.cargo_len order_huge)
                             * Dec.val (Order.cargo_width order_huge)
                             * Dec.val (Order.cargo_depth order_huge))))%Q).
Proof.
  repeat (split; [vm_compute; reflexivity |]).
  apply (cargo_volume_raises_iff order_huge); vm_compute; reflexivity.
Defined.

Lemma cargo_volume_of_product (o : Order.t) :
  decimal_field 10 1 (Order.cargo_len o) = true ->
  decimal_field 10 1 (Order.cargo_width o) = true ->
  decimal_field 10 1 (Order.cargo_depth o) = true ->
  Order.cargo_volume o
  = rbind (Dec.round (Dec.fix_ (Dec.mk (product_milli o) (-3))) 2)
          (fun r => Dec.truediv r (Dec.of_int 1000000)).
Proof.
  intros Hl Hw Hd.
  apply decimal_field_spec in Hl, Hw, Hd.
  destruct Hl as [El Hl], Hw as [Ew Hw], Hd as [Ed _].
  assert (Hlw : Dec.mul (Order.cargo_len o) (Order.cargo_width o)
                = Dec.mk (Dec.coef (Order.cargo_len o)
                          * Dec.coef (Order.cargo_width o)) (-2)).
  { unfold Dec.mul. rewrite El, Ew.
    apply fix_id. cbn [Dec.coef]. rewrite Z.abs_mul.
    change (10 ^ 10) with 10000000000 in *.
    change (10 ^ 28) with 10000000000000000000000000000. nia. }
  unfold Order.cargo_volume. rewrite Hlw. unfold Dec.mul, product_milli.
  cbn [Dec.coef Dec.dexp]. rewrite Ed. reflexivity.
Qed.

Lemma product_of_values (o : Order.t) :
  Dec.dexp (Order.cargo_len o) = -1 ->
  Dec.dexp (Order.cargo_width o) = -1 ->
  Dec.dexp (Order.cargo_depth o) = -1 ->
  (inject_Z (product_milli o)
   == Dec.val (Order.cargo_len o) * Dec.val (Order.cargo_width o)
      * Dec.val (Order.cargo_depth o) * 1000)%Q.
Proof.
  intros El Ew Ed. rewrite (dims_product o El Ew Ed).
  change ((10 # 1) ^ (-2 - 1))%Q with (1 # 1000)%Q.
  rewrite <- Qmult_assoc.
  setoid_replace ((1 # 1000) * 1000)%Q with 1%Q by reflexivity.
  ring.
Qed.

(** X3. For dimensions that are values of their columns, what
    [cargo_volume] comes to depends on the product of the three dimensions
    only: two orders with the same product both raise [InvalidOperation],
    or both return, and then the same volume, however the sides are
    assigned to length, width and depth. *)
Theorem cargo_volume_product_only (o o' : Order.t)
  (Hlen : decimal_field 10 1 (Order.cargo_len o) = true)
  (Hwidth : decimal_field 10 1 (Order.cargo_width o) = true)
  (Hdepth : decimal_field 10 1 (Order.cargo_depth o) = true)
  (Hlen' : decimal_field 10 1 (Order.cargo_len o') = true)
  (Hwidth' : decimal_field 10 1 (Order.cargo_width o') = true)
  (Hdepth' : decimal_field 10 1 (Order.cargo_depth o') = true)
  (Hprod : (Dec.val (Order.cargo_len o) * Dec.val (Order.cargo_width o)
            * Dec.val (Order.cargo_depth o)
            == Dec.val (Order.cargo_len o') * Dec.val (Order.cargo_width o')
               * Dec.val (Order.cargo_depth o'))%Q) :
  (Order.cargo_volume o = Raise InvalidOperation
   /\ Order.cargo_volume o' = Raise InvalidOperation)
  \/ (exists v v',
         Order.cargo_volume o = Ok v
         /\ Order.cargo_volume o' = Ok v'
         /\ (Dec.val v == Dec.val v')%Q).
Proof.
  assert (Heq : product_milli o = product_milli o').
  { pose proof (proj1 (decimal_field_spec _ _ _ Hlen)) as E1.
    pose proof (proj1 (decimal_field_spec _ _ _ Hwidth)) as E2.
    pose proof (proj1 (decimal_field_spec _ _ _ Hdepth)) as E3.
    pose proof (proj1 (decimal_field_spec _ _ _ Hlen')) as E1'.
    pose proof (proj1 (decimal_field_spec _ _ _ Hwidth')) as E2'.
    pose proof (proj1 (decimal_field_spec _ _ _ Hdepth')) as E3'.
    apply inject_Z_injective.
    rewrite (product_of_values o E1 E2 E3).
    rewrite (product_of_values o' E1' E2' E3').
    rewrite Hprod. reflexivity. }
  assert (Hsame : Order.cargo_volume o = Order.cargo_volume o').
  { rewrite (cargo_volume_of_product o Hlen Hwidth Hdepth).
    rewrite (cargo_volume_of_product o' Hlen' Hwidth' Hdepth').
    rewrite Heq. reflexivity. }
  destruct (Order.cargo_volume o) as [v | e] eqn:E.
  - right. exists v, v.
    split; [reflexivity |]. split; [symmetry; exact Hsame | reflexivity].
  - left. rewrite <- Hsame.
    rewrite (cargo_volume_raise_kind o e E). split; reflexivity.
Qed.

Lemma cargo_volume_product_only_witness :
  decimal_field 10 1 (Order.cargo_len order_100_50_20) = true
  /\ decimal_field 10 1 (Order.cargo_len order_20_100_50) = true
  /\ (Dec.val (Order.cargo_len order_100_50_20)
      * Dec.val (Order.cargo_width order_100_50_20)
      * Dec.val (Order.cargo_depth order_100_50_20)
      == Dec.val (Order.cargo_len order_20_100_50)
         * Dec.val (Order.cargo_width order_20_100_50)
         * Dec.val (Order.cargo_depth order_20_100_50))%Q
  /\ ((Order.cargo_volume order_100_50_20 = Raise InvalidOperation
       /\ Order.cargo_volume order_20_100_50 = Raise InvalidOperation)
      \/ (exists v v',
             Order.cargo_volume order_100_50_20 = Ok v
             /\ Order.cargo_volume order_20_100_50 = Ok v'
             /\ (Dec.val v == Dec.val v')%Q)).
Proof.
  repeat (split; [vm_compute; reflexivity |]).
  apply (cargo_volume_product_only order_100_50_20 order_20_100_50);
    vm_compute; reflexivity.
Defined.

Lemma dhe10_zero_iff (P : Z) :
  0 <= P -> (Dec.div_half_even P 10 = 0 <-> P <= 5).
Proof.
  intros HP. destruct (Z.eq_dec P 5) as [-> | H5].
  - split; [lia | reflexivity].
  - destruct (dhe_cases P 10 ltac:(lia)) as (Hn & Hr & Hc).
    set (q := P / 10) in *. set (r := P mod 10) in *.
    destruct Hc as [[-> H] | [-> H]]; lia.
Qed.

Lemma dhe_nonneg (n d : Z) : 0 < d -> 0 <= n -> 0 <= Dec.div_half_even n d.
Proof.
  intros Hd Hn. destruct (dhe_cases n d Hd) as (Hnq & Hr & Hc).
  assert (0 <= n / d) by (apply Z.div_pos; lia).
  destruct Hc as [[-> _] | [-> _]]; lia.
Qed.

Lemma Q8_sign (q : Z) :
  ((0 <= inject_Z q * (10 # 1) ^ (-8))%Q <-> 0 <= q)
  /\ ((inject_Z q * (10 # 1) ^ (-8) == 0)%Q <-> q = 0).
Proof.
  change ((10 # 1) ^ (-8))%Q with (1 # 100000000)%Q.
  unfold Qle, Qeq, Qmult, inject_Z. cbn [Qnum Qden]. lia.
Qed.

(** The exact [cargo_volume] of an order known to have one. *)
Lemma cargo_volume_units (o : Order.t) (v : Dec.t) :
  decimal_field 10 1 (Order.cargo_len o) = true ->
  decimal_field 10 1 (Order.cargo_width o) = true ->
  decimal_field 10 1 (Order.cargo_depth o) = true ->
  Order.cargo_volume o = Ok v ->
  exact_at v (-8) (Dec.div_half_even (product_milli o) 10).
Proof.
  intros Hl Hw Hd Hv.
  destruct (Z_lt_ge_dec (Z.abs (Dec.div_half_even (product_milli o) 10))
                        (10 ^ 28)) as [Hlt | Hge].
  - destruct (cargo_volume_exact o Hl Hw Hd Hlt) as (v' & Hv' & Hex).
    congruence.
  - rewrite (cargo_volume_overflow o Hl Hw Hd) in Hv by lia. discriminate.
Qed.

(** X4. For non-negative dimensions that are values of their columns, the
    volume [cargo_volume] returns is never negative, and it is zero exactly
    when the product of the dimensions is at most 0.005 cm^3: the rounding
    to two decimals wipes such a parcel out. *)
Theorem cargo_volume_zero_iff (o : Order.t) (v : Dec.t)
  (Hlen : decimal_field 10 1 (Order.cargo_len o) = true)
  (Hwidth : decimal_field 10 1 (Order.cargo_width o) = true)
  (Hdepth : decimal_field 10 1 (Order.cargo_depth o) = true)
  (Hl0 : 0 <= Dec.coef (Order.cargo_len o))
  (Hw0 : 0 <= Dec.coef (Order.cargo_width o))
  (Hd0 : 0 <= Dec.coef (Order.cargo_depth o))
  (Hv : Order.cargo_volume o = Ok v) :
  (0 <= Dec.val v)%Q
  /\ ((Dec.val v == 0)%Q
      <-> (Dec.val (Order.cargo_len o) * Dec.val (Order.cargo_width o)
           * Dec.val (Order.cargo_depth o) <= 5 # 1000)%Q).
Proof.
  pose proof (cargo_volume_units o v Hlen Hwidth Hdepth Hv) as Hex.
  pose proof (val_exact _ _ _ Hex) as Hval.
  assert (HP : 0 <= product_milli o).
  { unfold product_milli. apply Z.mul_nonneg_nonneg; [| exact Hd0].
    apply Z.mul_nonneg_nonneg; assumption. }
  destruct (Q8_sign (Dec.div_half_even (product_milli o) 10)) as [Hs Hz].
  rewrite Hval. split.
  - apply Hs. apply dhe_nonneg; lia.
  - rewrite Hz, (dhe10_zero_iff _ HP).
    rewrite (dims_product o (proj1 (decimal_field_spec _ _ _ Hlen))
                            (proj1 (decimal_field_spec _ _ _ Hwidth))
                            (proj1 (decimal_field_spec _ _ _ Hdepth))).
    change ((10 # 1) ^ (-2 - 1))%Q with (1 # 1000)%Q.
    unfold Qle, Qmult, inject_Z. cbn [Qnum Qden]. lia.
Qed.

Lemma cargo_volume_zero_iff_witness :
  decimal_field 10 1 (Order.cargo_len order_speck) = true
  /\ 0 <= Dec.coef (Order.cargo_len order_speck)
  /\ Order.cargo_volume order_speck = Ok (Dec.mk 0 (-2))
  /\ (0 <= Dec.val (Dec.mk 0 (-2)))%Q.
Proof.
  repeat (split; [vm_compute; try reflexivity; discriminate |]).
  apply (cargo_volume_zero_iff order_speck (Dec.mk 0 (-2)));
    vm_compute; try reflexivity; discriminate.
Defined.

(** ** [Sending.free_volume] at its edges *)

(** The decimal [free_volume] returns, in hundredths. *)
Lemma free_volume_exact (st : Store) (self : Sending.t) (vs : list Dec.t) :
  decimal_field 10 2 (Sending.total_volume self) = true ->
  cargo_volumes (sending_orders_all st self) = Ok vs ->
  Zsum (map (fun v => Z.abs (units8 v)) vs) < 10 ^ 28 ->
  exists v,
    free_volume st self = Ok v
    /\ exact_at v (-2)
         (Dec.coef (Sending.total_volume self)
          - Dec.div_half_even (Zsum (map units8 vs)) (10 ^ 6)).
Proof.
  intros Htotal Hvs HA.
  pose proof (cargo_volumes_shape _ _ Hvs) as Hshape.
  destruct (decimal_field_spec _ _ _ Htotal) as [Et Ht].
  set (N := Zsum (map units8 vs)).
  assert (HN : Z.abs N < 10 ^ 28).
  { pose proof (Zsum_abs (map units8 vs)) as H.
    rewrite map_map in H. fold N in H. lia. }
  assert (Hsum : exact_at (to_dec (py_sum vs)) (-8) N).
  { replace N with (0 + N) by lia. unfold N, py_sum.
    apply py_sum_exact; [split; simpl; lia | exact Hshape |].
    simpl Z.abs. lia. }
  destruct (py_round_exact _ _ Hsum HN) as (r & Hr & Hrx).
  set (R := Dec.div_half_even N (10 ^ 6)) in *.
  assert (HR : Z.abs R <= 10 ^ 22 + 1).
  { pose proof (dhe_near N (10 ^ 6) ltac:(lia)) as H. fold R in H.
    change (10 ^ 28) with (10 ^ 22 * 10 ^ 6) in HN. lia. }
  exists (Dec.sub (Sending.total_volume self) (to_dec r)). split.
  - unfold free_volume. rewrite Hvs. cbn [rbind]. rewrite Hr. reflexivity.
  - apply sub_exact; [| exact Hrx |].
    + pose proof (exact_at_self (Sending.total_volume self)) as H.
      rewrite Et in H. exact H.
    + change (10 ^ 10) with 10000000000 in Ht.
      change (10 ^ 22) with 10000000000000000000000 in HR.
      change (10 ^ 28) with 10000000000000000000000000000. lia.
Qed.

Lemma fit_of_volumes (vs : list Dec.t) :
  Forall (fun v => -8 <= Dec.dexp v) vs ->
  (Qsum (map (fun v => Qabs (Dec.val v)) vs) < inject_Z (10 ^ 20))%Q ->
  Zsum (map (fun v => Z.abs (units8 v)) vs) < 10 ^ 28.
Proof.
  intros Hshape Hfit. rewrite (Qsum_abs_vals vs Hshape) in Hfit.
  apply Q8_lt in Hfit. exact Hfit.
Qed.

Lemma sending_orders_all_none (st : Store) (self : Sending.t) :
  (forall oid, ~ In (Sending.id self, oid) (sending_orders st)) ->
  sending_orders_all st self = [].
Proof.
  intros Hnone. unfold sending_orders_all.
  induction (sending_orders st) as [| [sid oid] rows IH]; [reflexivity |].
  cbn [flat_map fst snd]. destruct (sid =? Sending.id self) eqn:E.
  - apply Z.eqb_eq in E. subst sid. exfalso.
    apply (Hnone oid). left. reflexivity.
  - cbn [app]. apply IH. intros oid' Hin. apply (Hnone oid'). right. exact Hin.
Qed.

(** X5. A sending with no row in its [orders] relation has its whole
    [total_volume] free: [free_volume] returns the very decimal of the
    column, whatever applications point to the sending. *)
Theorem free_volume_of_unused_sending (st : Store) (self : Sending.t)
  (Htotal : decimal_field 10 2 (Sending.total_volume self) = true)
  (Hnone : forall oid, ~ In (Sending.id self, oid) (sending_orders st)) :
  free_volume st self = Ok (Sending.total_volume self).
Proof.
  unfold free_volume. rewrite (sending_orders_all_none st self Hnone).
  cbn [cargo_volumes rbind py_sum fold_left py_round to_dec].
  destruct (decimal_field_spec _ _ _ Htotal) as [Et Ht].
  destruct (Sending.total_volume self) as [c e]. cbn [Dec.dexp Dec.coef] in *.
  subst e. unfold Dec.sub, Dec.add, Dec.neg, Dec.of_int.
  cbn [Dec.coef Dec.dexp]. change (Z.min (- (2)) 0) with (-2).
  change (- (2) - -2) with 0. change (0 - -2) with 2.
  change (- 0) with 0. rewrite Z.mul_0_l, Z.add_0_r.
  change (10 ^ 0) with 1. rewrite Z.mul_1_r.
  f_equal. apply fix_id. cbn [Dec.coef].
  change (10 ^ 10) with 10000000000 in Ht.
  change (10 ^ 28) with 10000000000000000000000000000. lia.
Qed.

Lemma free_volume_of_unused_sending_witness :
  decimal_field 10 2 (Sending.total_volume sending_1) = true
  /\ (forall oid, ~ In (Sending.id sending_1, oid)
                       (sending_orders shop_unlinked))
  /\ free_volume shop_unlinked sending_1 = Ok (Dec.mk 1000 (-2)).
Proof.
  split; [reflexivity |]. split; [intros oid H; exact H |].
  apply (free_volume_of_unused_sending shop_unlinked sending_1);
    [reflexivity | intros oid H; exact H].
Defined.

Lemma cargo_volumes_raise (os : list Order.t) (o : Order.t) (e : exn) :
  In o os -> Order.cargo_volume o = Raise e ->
  cargo_volumes os = Raise InvalidOperation.
Proof.
  intros Hin Hraise. induction os as [| x os IH]; [destruct Hin |].
  cbn [cargo_volumes]. unfold rbind.
  destruct (Order.cargo_volume x) as [v |] eqn:Ex.
  - destruct Hin as [-> | Hin]; [congruence |].
    rewrite (IH Hin). reflexivity.
  - f_equal. exact (cargo_volume_raise_kind x _ Ex).
Qed.

(** X6. One order in the sending's [orders] relation whose [cargo_volume]
    raises is enough for [free_volume] to raise [InvalidOperation]: the
    sending has no free volume to show. *)
Theorem free_volume_raises_with_order (st : Store) (self : Sending.t)
  (o : Order.t) (e : exn)
  (Hin : In o (sending_orders_all st self))
  (Hraise : Order.cargo_volume o = Raise e) :
  free_volume st self = Raise InvalidOperation.
Proof.
  unfold free_volume.
  rewrite (cargo_volumes_raise _ o e Hin Hraise). reflexivity.
Qed.

Lemma free_volume_raises_with_order_witness :
  In order_huge (sending_orders_all shop_huge sending_1)
  /\ Order.cargo_volume order_huge = Raise InvalidOperation
  /\ free_volume shop_huge sending_1 = Raise InvalidOperation.
Proof.
  split; [right; left; reflexivity |].
  split; [vm_compute; reflexivity |].
  apply (free_volume_raises_with_order shop_huge sending_1 order_huge
           InvalidOperation);
    [right; left; reflexivity | vm_compute; reflexivity].
Defined.

Lemma cargo_volumes_Forall2 (os : list Order.t) :
  forall vs, cargo_volumes os = Ok vs ->
             Forall2 (fun o v => Order.cargo_volume o = Ok v) os vs.
Proof.
  induction os as [| o os IH]; intros vs H; cbn [cargo_volumes] in H.
  - injection H as <-. constructor.
  - unfold rbind in H.
    destruct (Order.cargo_volume o) as [v |] eqn:Ev; [| discriminate].
    destruct (cargo_volumes os) as [vs' |]; [| discriminate].
    injection H as <-. constructor; [exact Ev | apply IH; reflexivity].
Qed.

Lemma cargo_volumes_perm (os os' : list Order.t) :
  Permutation os os' ->
  forall vs, cargo_volumes os = Ok vs ->
             exists vs', cargo_volumes os' = Ok vs' /\ Permutation vs vs'.
Proof.
  induction 1 as [| x l l' _ IH | x y l | l l' l'' _ IH1 _ IH2]; intros vs H.
  - exists vs. split; [exact H | apply Permutation_refl].
  - cbn [cargo_volumes] in *. unfold rbind in *.
    destruct (Order.cargo_volume x) as [v |]; [| discriminate].
    destruct (cargo_volumes l) as [vl |]; [| discriminate].
    injection H as <-. destruct (IH vl eq_refl) as (vl' & -> & Hp).
    exists (v :: vl'). split; [reflexivity | constructor; exact Hp].
  - cbn [cargo_volumes] in *. unfold rbind in *.
    destruct (Order.cargo_volume y) as [vy |]; [| discriminate].
    destruct (Order.cargo_volume x) as [vx |]; [| discriminate].
    destruct (cargo_volumes l) as [vl |]; [| discriminate].
    injection H as <-. exists (vx :: vy :: vl).
    split; [reflexivity | constructor].
  - destruct (IH1 vs H) as (vs' & H' & Hp).
    destruct (IH2 vs' H') as (vs'' & H'' & Hp').
    exists vs''. split; [exact H'' | exact (Permutation_trans Hp Hp')].
Qed.

Lemma Zsum_perm (l l' : list Z) : Permutation l l' -> Zsum l = Zsum l'.
Proof.
  unfold Zsum. induction 1; simpl; lia.
Qed.

(** X7. The rows of the [orders] relation may come in any order: as long
    as the volumes add up to less than 10^20 m^3, [free_volume] returns the
    same decimal for every order of the rows. *)
Theorem free_volume_row_order (st st' : Store) (self : Sending.t)
  (vs : list Dec.t)
  (Horders : orders st' = orders st)
  (Hrows : Permutation (sending_orders st) (sending_orders st'))
  (Htotal : decimal_field 10 2 (Sending.total_volume self) = true)
  (Hvs : cargo_volumes (sending_orders_all st self) = Ok vs)
  (Hfit : (Qsum (map (fun v => Qabs (Dec.val v)) vs) < inject_Z (10 ^ 20))%Q) :
  exists v v',
    free_volume st self = Ok v /\ free_volume st' self = Ok v'
    /\ (Dec.val v == Dec.val v')%Q.
Proof.
  pose proof (fit_of_volumes vs (cargo_volumes_shape _ _ Hvs) Hfit) as HA.
  assert (Hperm : Permutation (sending_orders_all st self)
                              (sending_orders_all st' self)).
  { unfold sending_orders_all. rewrite Horders.
    apply Permutation_flat_map. exact Hrows. }
  destruct (cargo_volumes_perm _ _ Hperm vs Hvs) as (vs' & Hvs' & Hp).
  assert (HA' : Zsum (map (fun v => Z.abs (units8 v)) vs') < 10 ^ 28).
  { rewrite <- (Zsum_perm _ _ (Permutation_map _ Hp)). exact HA. }
  destruct (free_volume_exact st self vs Htotal Hvs HA) as (v & Hv & Hex).
  destruct (free_volume_exact st' self vs' Htotal Hvs' HA') as (v' & Hv' & Hex').
  exists v, v'. split; [exact Hv |]. split; [exact Hv' |].
  rewrite (val_exact _ _ _ Hex), (val_exact _ _ _ Hex').
  rewrite (Zsum_perm _ _ (Permutation_map units8 Hp)). reflexivity.
Qed.

Lemma free_volume_row_order_witness :
  orders shop_reordered = orders shop
  /\ Permutation (sending_orders shop) (sending_orders shop_reordered)
  /\ exists v v',
      free_volume shop sending_1 = Ok v
      /\ free_volume shop_reordered sending_1 = Ok v'
      /\ (Dec.val v == Dec.val v')%Q.
Proof.
  split; [reflexivity |]. split; [apply perm_swap |].
  apply (free_volume_row_order shop shop_reordered sending_1
           [Dec.mk 10 (-2); Dec.mk 20 (-2)]);
    [reflexivity | apply perm_swap | reflexivity | reflexivity
    | vm_compute; reflexivity].
Defined.

Lemma Zsum_nonneg (l : list Z) : Forall (fun x => 0 <= x) l -> 0 <= Zsum l.
Proof.
  unfold Zsum. induction 1; simpl; lia.
Qed.

Lemma volumes_nonneg (os : list Order.t) (vs : list Dec.t) :
  Forall2 (fun o v => Order.cargo_volume o = Ok v) os vs ->
  (forall o, In o os ->
             decimal_field 10 1 (Order.cargo_len o) = true
             /\ decimal_field 10 1 (Order.cargo_width o) = true
             /\ decimal_field 10 1 (Order.cargo_depth o) = true
             /\ 0 <= Dec.coef (Order.cargo_len o)
             /\ 0 <= Dec.coef (Order.cargo_width o)
             /\ 0 <= Dec.coef (Order.cargo_depth o)) ->
  Forall (fun x => 0 <= x) (map units8 vs).
Proof.
  induction 1 as [| o w os ws How _ IH]; intros Hdims; [constructor |].
  cbn [map]. constructor.
  - destruct (Hdims o (or_introl eq_refl))
      as (Hl & Hw & Hd & Hl0 & Hw0 & Hd0).
    destruct (exact_at_units8 w _ (cargo_volume_units o w Hl Hw Hd How))
      as [_ ->].
    apply dhe_nonneg; [lia |]. unfold product_milli.
    apply Z.mul_nonneg_nonneg; [| exact Hd0].
    apply Z.mul_nonneg_nonneg; assumption.
  - apply IH. intros x Hx. apply Hdims. right. exact Hx.
Qed.

(** X8. When every order of the sending's [orders] relation has
    non-negative dimensions that are values of their columns, and the
    volumes add up to less than 10^20 m^3, [free_volume] never exceeds
    [total_volume]. *)
Theorem free_volume_at_most_total (st : Store) (self : Sending.t)
  (vs : list Dec.t) (v : Dec.t)
  (Htotal : decimal_field 10 2 (Sending.total_volume self) = true)
  (Hdims : forall o, In o (sending_orders_all st self) ->
                     decimal_field 10 1 (Order.cargo_len o) = true
                     /\ decimal_field 10 1 (Order.cargo_width o) = true
                     /\ decimal_field 10 1 (Order.cargo_depth o) = true
                     /\ 0 <= Dec.coef (Order.cargo_len o)
                     /\ 0 <= Dec.coef (Order.cargo_width o)
                     /\ 0 <= Dec.coef (Order.cargo_depth o))
  (Hvs : cargo_volumes (sending_orders_all st self) = Ok vs)
  (Hfit : (Qsum (map (fun v => Qabs (Dec.val v)) vs) < inject_Z (10 ^ 20))%Q)
  (Hv : free_volume st self = Ok v) :
  (Dec.val v <= Dec.val (Sending.total_volume self))%Q.
Proof.
  pose proof (fit_of_volumes vs (cargo_volumes_shape _ _ Hvs) Hfit) as HA.
  destruct (free_volume_exact st self vs Htotal Hvs HA) as (v' & Hv' & Hex).
  assert (v' = v) by congruence. subst v'.
  pose proof (volumes_nonneg _ _ (cargo_volumes_Forall2 _ _ Hvs) Hdims)
    as Hpos.
  pose proof (dhe_nonneg _ (10 ^ 6) ltac:(lia) (Zsum_nonneg _ Hpos)) as HR.
  rewrite (val_exact _ _ _ Hex). unfold Dec.val.
  rewrite (proj1 (decimal_field_spec _ _ _ Htotal)).
  change ((10 # 1) ^ (- (2)))%Q with (1 # 100)%Q.
  change ((10 # 1) ^ (-2))%Q with (1 # 100)%Q.
  unfold Qle, Qmult, inject_Z. cbn [Qnum Qden]. lia.
Qed.

Lemma free_volume_at_most_total_witness :
  decimal_field 10 2 (Sending.total_volume sending_1) = true
  /\ cargo_volumes (sending_orders_all shop sending_1)
     = Ok [Dec.mk 10 (-2); Dec.mk 20 (-2)]
  /\ free_volume shop sending_1 = Ok (Dec.mk 970 (-2))
  /\ (Dec.val (Dec.mk 970 (-2)) <= Dec.val (Sending.total_volume sending_1))%Q.
Proof.
  repeat (split; [vm_compute; reflexivity |]).
  apply (free_volume_at_most_total shop sending_1
           [Dec.mk 10 (-2); Dec.mk 20 (-2)] (Dec.mk 970 (-2)));
    [ reflexivity
    | intros o [<- | [<- | []]]; repeat split; discriminate
    | reflexivity
    | vm_compute; reflexivity
    | vm_compute; reflexivity ].
Defined.

(** ** Saving an application, then asking for it *)

Lemma save_application_in (st st' : Store) (a : Application.t) :
  save_application st a = Ok st' -> In a (applications st').
Proof.
  unfold save_application. destruct (conflicts st _ a); [discriminate |].
  destruct (has_pk Application.id (Application.id a) (applications st)) eqn:Eh;
    intros H; injection H as <-; cbn [set_applications applications].
  - destruct (has_pk_in _ _ _ Eh) as (a0 & Ha0 & Hid0).
    apply in_map_iff. exists a0. split; [| exact Ha0].
    rewrite Hid0, Z.eqb_refl. reflexivity.
  - apply in_or_app. right. left. reflexivity.
Qed.

(** X10. Once a save is accepted, [order.application] of the order finds
    the saved row, and [need_send] for that order is decided by the saved
    status alone: saved as CONF, later sendings no longer notify the owner;
    saved with any other status, they still do. *)
Theorem saved_application_decides_need_send (st st' : Store)
  (a : Application.t) (o : Order.t)
  (Hst : integrity st = true) (Hsave : save_application st a = Ok st')
  (Ho : Order.id o = Application.order a) :
  order_application st' o = Ok a
  /\ forall q,
      need_send st' o q
      = (Ok (negb (Application.status a =? "CONF")%string), q).
Proof.
  pose proof (integrity_constraints st Hst) as C.
  assert (Hidx : indexes_hold st).
  { split; apply nodupb_NoDup;
      [exact (c_applications st C) | exact (c_one_to_one st C)]. }
  destruct (save_keeps_indexes st st' a Hidx Hsave) as [_ Hord'].
  apply NoDup_nodupb in Hord'.
  change (unique_pk Application.order (applications st') = true) in Hord'.
  pose proof (save_application_in st st' a Hsave) as Hin.
  pose proof (by_pk_unique _ _ _ Hord' Hin) as Hsel.
  rewrite <- Ho in Hsel.
  assert (Hget : order_application st' o = Ok a).
  { unfold order_application.
    change (filter (fun a0 => Application.order a0 =? Order.id o)
                   (applications st'))
      with (by_pk Application.order (Order.id o) (applications st')).
    rewrite Hsel. reflexivity. }
  split; [exact Hget |].
  intros q. unfold need_send, try_except_else, lift, bind, ret.
  rewrite Hget. reflexivity.
Qed.

Lemma saved_application_decides_need_send_witness :
  integrity (set_applications shop [application_2]) = true
  /\ save_application (set_applications shop [application_2]) application_3
     = Ok shop
  /\ Order.id order_3 = Application.order application_3
  /\ order_application shop order_3 = Ok application_3.
Proof.
  split; [reflexivity |]. split; [reflexivity |]. split; [reflexivity |].
  exact (proj1 (saved_application_decides_need_send
                  (set_applications shop [application_2]) shop
                  application_3 order_3 eq_refl eq_refl eq_refl)).
Defined.

Lemma filter_none {A} (p : A -> bool) (l : list A) :
  (forall x, In x l -> p x = false) -> filter p l = [].
Proof.
  induction l as [| x l IH]; intros H; simpl; [reflexivity |].
  rewrite (H x) by (left; reflexivity).
  apply IH. intros y Hy. apply H. right. exact Hy.
Qed.

(** ** The receivers of [Application], run together *)

Section DispatchProperties.

Variable render_to_string : string -> context -> string.
Variable strip_tags : string -> string.
Variable SITE_URL : string.
Variable DEFAULT_FROM_EMAIL : string.

Local Abbreviation created_email :=
  (application_created_email render_to_string strip_tags SITE_URL
                             DEFAULT_FROM_EMAIL).
Local Abbreviation created_task :=
  (application_created_task render_to_string strip_tags SITE_URL
                            DEFAULT_FROM_EMAIL).
Local Abbreviation status_email :=
  (application_status_email render_to_string strip_tags SITE_URL
                            DEFAULT_FROM_EMAIL).
Local Abbreviation status_task :=
  (application_status_task render_to_string strip_tags SITE_URL
                           DEFAULT_FROM_EMAIL).
Local Abbreviation post_save :=
  (post_save_application render_to_string strip_tags SITE_URL
                         DEFAULT_FROM_EMAIL).

(** X12. Saving an application runs both of its receivers, the status
    mail first: the queue grows by the mail to the owner of the order when
    the status is CONF or DECL, then by the broadcast to the workers of the
    sending's company when the row was created.  An existing application
    saved with another status queues nothing. *)
Theorem post_save_application_tasks (st : Store) (instance : Application.t)
  (Hst : integrity st = true) (Hin : In instance (applications st)) :
  exists order sending u us,
    In order (orders st)
    /\ Order.id order = Application.order instance
    /\ In sending (sendings st)
    /\ Sending.id sending = Application.sending instance
    /\ In u (users st)
    /\ User.id u = Order.user order
    /\ Forall2 (fun w u => In u (users st)
                           /\ User.id u = WorkerProfile.user w)
               (filter (fun w => WorkerProfile.company w
                                 =? Sending.company sending)
                       (workers st))
               us
    /\ forall (created : bool) (q : list task),
        let status_html (label : string) :=
          render_to_string "emails/application_status.html"
            [("status", CStr label); ("order", COrder order);
             ("sending", CSending sending); ("SITE_URL", CStr SITE_URL)] in
        let status_mail (label : string) :=
          send_email_celery "Обновлён статус заявки"
                            (strip_tags (status_html label))
                            DEFAULT_FROM_EMAIL (User.email u)
                            (status_html label) in
        let created_html :=
          render_to_string "emails/application_created.html"
            [("order", COrder order); ("sending", CSending sending);
             ("application", CApplication instance);
             ("SITE_URL", CStr SITE_URL)] in
        let broadcast : list task :=
          if created
          then [send_many_email_celery
                  "Появилась новая заявка для вашей компании"
                  (strip_tags created_html) DEFAULT_FROM_EMAIL
                  (map User.email us) created_html]
          else [] in
        (Application.status instance = "CONF" ->
         post_save st instance created q
         = (Ok tt, (q ++ status_mail "Подтверждено" :: broadcast)%list))
        /\ (Application.status instance = "DECL" ->
            post_save st instance created q
            = (Ok tt, (q ++ status_mail "Отклонено" :: broadcast)%list))
        /\ (Application.status instance <> "CONF" ->
            Application.status instance <> "DECL" ->
            post_save st instance created q = (Ok tt, (q ++ broadcast)%list)).
Proof.
  pose proof (integrity_constraints st Hst) as C.
  destruct (owner_of_application st instance C Hin)
    as (o & u & Ho & Hoid & Hu & Huid & Hgo & Hgu & Hosel).
  destruct (sendings_of_application_one st instance C Hin)
    as (s & Hs & Hsid & Hssel).
  pose proof (workers_of_application_company st instance s C Hin Hs Hsid)
    as Hws.
  destruct (worker_emails_ok st (workers_of_application st instance) C)
    with (emails := @nil string) as (us & Hus & Hrun).
  { intros w Hw. rewrite Hws in Hw. apply filter_In in Hw. tauto. }
  exists o, s, u, us. rewrite <- Hws.
  do 7 (split; [assumption |]).
  intros created q. cbv zeta.
  assert (Hcreated :
    forall q',
      created_email st instance created q'
      = (Ok tt,
         (q' ++ (if created
                 then [send_many_email_celery
                         "Появилась новая заявка для вашей компании"
                         (strip_tags
                            (render_to_string
                               "emails/application_created.html"
                               [("order", COrder o); ("sending", CSending s);
                                ("application", CApplication instance);
                                ("SITE_URL", CStr SITE_URL)]))
                         DEFAULT_FROM_EMAIL (map User.email us)
                         (render_to_string
                            "emails/application_created.html"
                            [("order", COrder o); ("sending", CSending s);
                             ("application", CApplication instance);
                             ("SITE_URL", CStr SITE_URL)])]
                 else []))%list)).
  { intros q'. unfold application_created_email. destruct created.
    - unfold bind, lift, delay. rewrite Hrun, Hosel, Hssel. reflexivity.
    - unfold ret. rewrite app_nil_r. reflexivity. }
  split; [| split].
  - intros Hc. unfold post_save_application, bind at 1.
    unfold application_status_email, status_label.
    rewrite Hc. cbn [String.eqb Ascii.eqb Bool.eqb andb].
    unfold bind, lift, delay. rewrite Hgo, Hgu, Hosel, Hssel. cbn [get].
    rewrite Hcreated, <- app_assoc. reflexivity.
  - intros Hd. unfold post_save_application, bind at 1.
    unfold application_status_email, status_label.
    rewrite Hd. cbn [String.eqb Ascii.eqb Bool.eqb andb].
    unfold bind, lift, delay. rewrite Hgo, Hgu, Hosel, Hssel. cbn [get].
    rewrite Hcreated, <- app_assoc. reflexivity.
  - intros Hc Hd. unfold post_save_application, bind at 1.
    unfold application_status_email, status_label.
    apply String.eqb_neq in Hc, Hd. rewrite Hc, Hd.
    cbn [String.eqb]. unfold ret. apply Hcreated.
Qed.

(** X13. An application for a sending whose company has no worker is
    broadcast all the same: [application_created_email] queues its one
    task with an empty list of recipients. *)
Theorem application_created_without_workers (st : Store)
  (instance : Application.t)
  (Hst : integrity st = true) (Hin : In instance (applications st))
  (Hnone : forall w s, In w (workers st) -> In s (sendings st) ->
                       Sending.id s = Application.sending instance ->
                       WorkerProfile.company w <> Sending.company s) :
  exists order sending,
    In order (orders st)
    /\ Order.id order = Application.order instance
    /\ In sending (sendings st)
    /\ Sending.id sending = Application.sending instance
    /\ forall q,
        created_email st instance true q
        = (Ok tt, (q ++ [created_task order sending instance []])%list).
Proof.
  pose proof (integrity_constraints st Hst) as C.
  destruct (orders_of_application_one st instance C Hin)
    as (o & Ho & Hoid & Hosel).
  destruct (sendings_of_application_one st instance C Hin)
    as (s & Hs & Hsid & Hssel).
  pose proof (workers_of_application_company st instance s C Hin Hs Hsid)
    as Hws.
  assert (Hempty : workers_of_application st instance = []).
  { rewrite Hws. apply filter_none.
    intros w Hw. apply Z.eqb_neq. exact (Hnone w s Hw Hs Hsid). }
  exists o, s. repeat split; try assumption.
  intros q. unfold application_created_email, bind, lift, delay.
  rewrite Hempty. cbn [worker_emails]. rewrite Hosel, Hssel. reflexivity.
Qed.

End DispatchProperties.

Lemma post_save_application_tasks_witness :
  integrity shop = true
  /\ In application_3 (applications shop)
  /\ exists order sending u us,
      In order (orders shop)
      /\ Order.id order = Application.order application_3
      /\ In sending (sendings shop)
      /\ Sending.id sending = Application.sending application_3
      /\ In u (users shop)
      /\ User.id u = Order.user order
      /\ Forall2 (fun w u => In u (users shop)
                             /\ User.id u = WorkerProfile.user w)
                 (filter (fun w => WorkerProfile.company w
                                   =? Sending.company sending)
                         (workers shop))
                 us
      /\ forall (created : bool) (q : list task),
          Application.status application_3 = "CONF" ->
          post_save_application sample_render sample_strip_tags
            "https://cargo.example" "noreply@cargo.example"
            shop application_3 created q
          = (Ok tt,
             (q ++ send_email_celery
                     "Обновлён статус заявки"
                     "<p>emails/application_status.html</p>"
                     "noreply@cargo.example" (User.email u)
                     "<p>emails/application_status.html</p>"
                :: (if created
                    then [send_many_email_celery
                            "Появилась новая заявка для вашей компании"
                            "<p>emails/application_created.html</p>"
                            "noreply@cargo.example" (map User.email us)
                            "<p>emails/application_created.html</p>"]
                    else []))%list).
Proof.
  split; [reflexivity |]. split; [right; left; reflexivity |].
  destruct (post_save_application_tasks
              sample_render sample_strip_tags
              "https://cargo.example" "noreply@cargo.example"
              shop application_3 eq_refl (or_intror (or_introl eq_refl)))
    as (order & sending & u & us & H1 & H2 & H3 & H4 & H5 & H6 & H7 & H).
  exists order, sending, u, us.
  repeat (split; [assumption |]).
  intros created q. exact (proj1 (H created q)).
Defined.

Lemma application_created_without_workers_witness :
  integrity shop_unstaffed = true
  /\ In application_2 (applications shop_unstaffed)
  /\ exists order sending,
      In order (orders shop_unstaffed)
      /\ Order.id order = Application.order application_2
      /\ In sending (sendings shop_unstaffed)
      /\ Sending.id sending = Application.sending application_2
      /\ forall q,
          application_created_email sample_render sample_strip_tags
            "https://cargo.example" "noreply@cargo.example"
            shop_unstaffed application_2 true q
          = (Ok tt,
             (q ++ [application_created_task sample_render sample_strip_tags
                      "https://cargo.example" "noreply@cargo.example"
                      order sending application_2 []])%list).
Proof.
  split; [reflexivity |]. split; [left; reflexivity |].
  apply (application_created_without_workers
           sample_render sample_strip_tags
           "https://cargo.example" "noreply@cargo.example"
           shop_unstaffed application_2 eq_refl (or_introl eq_refl)).
  intros w s [].
Defined.

(** ** [get_status_display] and the labels of the status mail *)

(** X14. The label [application_status_email] puts in its mail is the one
    [get_status_display] shows for the same application.  The display of a
    status of [STATUS_SET] is its label; a status the choices do not list
    is displayed as it is. *)
Theorem status_label_is_display (self : Application.t) :
  (status_label self <> "" -> status_label self = get_status_display self)
  /\ (forall label,
         In (Application.status self, label) Application.STATUS_SET ->
         get_status_display self = label)
  /\ ((forall label,
          ~ In (Application.status self, label) Application.STATUS_SET) ->
      get_status_display self = Application.status self).
Proof.
  unfold status_label, get_status_display, get_display.
  destruct self as [id order sending status info]. cbn [Application.status].
  split; [| split].
  - destruct (status =? "CONF")%string eqn:Ec.
    + apply String.eqb_eq in Ec. subst status. reflexivity.
    + destruct (status =? "DECL")%string eqn:Ed.
      * apply String.eqb_eq in Ed. subst status. reflexivity.
      * intros H. exfalso. apply H. reflexivity.
  - intros label Hin. simpl in Hin.
    destruct Hin as [H | [H | [H | []]]]; injection H as <- <-; reflexivity.
  - intros Hnone. cbn [dict_get Application.STATUS_SET].
    assert (Hw : ("WAIT" =? status)%string = false).
    { apply String.eqb_neq. intros <-. apply (Hnone "Ожидается подтверждение").
      left. reflexivity. }
    assert (Hc : ("CONF" =? status)%string = false).
    { apply String.eqb_neq. intros <-. apply (Hnone "Подтверждено").
      right. left. reflexivity. }
    assert (Hd : ("DECL" =? status)%string = false).
    { apply String.eqb_neq. intros <-. apply (Hnone "Отклонено").
      right. right. left. reflexivity. }
    rewrite Hw, Hc, Hd. reflexivity.
Qed.

(** ** [Application.price] *)

Section PriceProperties.

Variable float : Type.
Variable float_of_decimal : Dec.t -> float.
Variable float_mul : float -> float -> float.
Variable float_round : float -> Z -> result float.

(** X15. Under the constraints of the database the lookups of [price]
    never fail.  If the [cargo_volume] of the application's order raises,
    [price] raises [InvalidOperation] before any floating-point operation;
    otherwise it is the product of the two floats, rounded to two
    decimals. *)
Theorem price_outcomes (st : Store) (self : Application.t)
  (Hst : integrity st = true) (Hin : In self (applications st)) :
  exists order sending,
    In order (orders st)
    /\ Order.id order = Application.order self
    /\ In sending (sendings st)
    /\ Sending.id sending = Application.sending self
    /\ (forall e, Order.cargo_volume order = Raise e ->
                  price float float_of_decimal float_mul float_round st self
                  = Raise InvalidOperation)
    /\ (forall cv, Order.cargo_volume order = Ok cv ->
                   price float float_of_decimal float_mul float_round st self
                   = float_round
                       (float_mul (float_of_decimal cv)
                                  (float_of_decimal
                                     (Sending.price_for_m3 sending)))
                       2).
Proof.
  pose proof (integrity_constraints st Hst) as C.
  destruct (by_pk_found Order.id (Application.order self) (orders st)
              (c_orders st C) (c_application_order st C self Hin))
    as (o & Ho & Hoid & Hosel).
  destruct (by_pk_found Sending.id (Application.sending self) (sendings st)
              (c_sendings st C) (c_application_sending st C self Hin))
    as (s & Hs & Hsid & Hssel).
  exists o, s. repeat split; try assumption.
  - intros e He. unfold price, get_order. rewrite Hosel. cbn [get rbind].
    rewrite He. cbn [rbind]. f_equal. exact (cargo_volume_raise_kind o e He).
  - intros cv Hcv. unfold price, get_order, get_sending.
    rewrite Hosel. cbn [get rbind]. rewrite Hcv. cbn [rbind].
    rewrite Hssel. reflexivity.
Qed.

End PriceProperties.

Lemma price_outcomes_witness :
  integrity shop = true
  /\ In application_2 (applications shop)
  /\ exists order sending,
      In order (orders shop)
      /\ Order.id order = Application.order application_2
      /\ In sending (sendings shop)
      /\ Sending.id sending = Application.sending application_2
      /\ (forall e, Order.cargo_volume order = Raise e ->
                    price Q Dec.val Qmult sample_float_round shop
                          application_2
                    = Raise InvalidOperation)
      /\ (forall cv, Order.cargo_volume order = Ok cv ->
                     price Q Dec.val Qmult sample_float_round shop
                           application_2
                     = sample_float_round
                         (Qmult (Dec.val cv)
                                (Dec.val (Sending.price_for_m3 sending)))
                         2).
Proof.
  split; [reflexivity |]. split; [left; reflexivity |].
  exact (price_outcomes Q Dec.val Qmult sample_float_round shop
           application_2 eq_refl (or_introl eq_refl)).
Defined.

(** ** [Sending.days] and the last two digits *)

Lemma mod10_of_mod100 (n : Z) : (n mod 100) mod 10 = n mod 10.
Proof.
  rewrite (Z.div_mod n 100) at 2 by lia.
  replace (100 * (n / 100) + n mod 100)
    with (n mod 100 + (10 * (n / 100)) * 10) by ring.
  rewrite Z.mod_add by lia. reflexivity.
Qed.

(** X16. The plural form [Sending.days] picks depends on [n % 100] alone,
    a number from 0 to 99 whatever the sign of [n]: a negative count of
    days is declined like its remainder, -38 like 62 and -1 like 99. *)
Theorem days_form_of_remainder (n : Z) :
  0 <= n mod 100 < 100
  /\ Days.plural_index n = Days.plural_index (n mod 100)
  /\ exists form,
      Days.days_label n = str_of_int n ++ " " ++ form
      /\ Days.days_label (n mod 100) = str_of_int (n mod 100) ++ " " ++ form.
Proof.
  assert (H : Days.plural_index n = Days.plural_index (n mod 100)).
  { unfold Days.plural_index.
    rewrite (mod10_of_mod100 n), (Z.mod_mod n 100) by lia. reflexivity. }
  split; [apply Z.mod_pos_bound; lia |]. split; [exact H |].
  exists (nth (Days.plural_index n) Days.days_list "").
  unfold Days.days_label. rewrite <- H. split; reflexivity.
Qed.

(** ** Bigger boxes, fuller sendings *)

Lemma dhe_mono (n m d : Z) :
  0 < d -> n <= m -> Dec.div_half_even n d <= Dec.div_half_even m d.
Proof.
  intros Hd Hnm.
  destruct (dhe_cases n d Hd) as (Hn & Hrn & Hcn).
  destruct (dhe_cases m d Hd) as (Hm & Hrm & Hcm).
  set (qn := n / d) in *. set (rn := n mod d) in *.
  set (qm := m / d) in *. set (rm := m mod d) in *.
  assert (Hq : qn <= qm) by (apply Z.div_le_mono; lia).
  destruct (Z.eq_dec n m) as [-> | Hne]; [lia |].
  destruct (Z.eq_dec qn qm) as [Heq | Hlt].
  - assert (rn < rm) by nia.
    destruct Hcn as [[-> _] | [-> Hn2]], Hcm as [[-> Hm2] | [-> _]]; lia.
  - destruct Hcn as [[-> _] | [-> _]], Hcm as [[-> _] | [-> _]]; lia.
Qed.

Lemma Q8_le (a b : Z) :
  a <= b ->
  (inject_Z a * (10 # 1) ^ (-8) <= inject_Z b * (10 # 1) ^ (-8))%Q.
Proof.
  change ((10 # 1) ^ (-8))%Q with (1 # 100000000)%Q.
  unfold Qle, Qmult, inject_Z. cbn [Qnum Qden]. lia.
Qed.

(** X17. Among orders with non-negative dimensions that are values of
    their columns, a box no smaller in any dimension has no smaller
    [cargo_volume]: the rounding keeps the order of the products. *)
Theorem cargo_volume_monotone (o o' : Order.t) (v v' : Dec.t)
  (Hlen : decimal_field 10 1 (Order.cargo_len o) = true)
  (Hwidth : decimal_field 10 1 (Order.cargo_width o) = true)
  (Hdepth : decimal_field 10 1 (Order.cargo_depth o) = true)
  (Hlen' : decimal_field 10 1 (Order.cargo_len o') = true)
  (Hwidth' : decimal_field 10 1 (Order.cargo_width o') = true)
  (Hdepth' : decimal_field 10 1 (Order.cargo_depth o') = true)
  (Hl : 0 <= Dec.coef (Order.cargo_len o) <= Dec.coef (Order.cargo_len o'))
  (Hw : 0 <= Dec.coef (Order.cargo_width o)
        <= Dec.coef (Order.cargo_width o'))
  (Hd : 0 <= Dec.coef (Order.cargo_depth o)
        <= Dec.coef (Order.cargo_depth o'))
  (Hv : Order.cargo_volume o = Ok v) (Hv' : Order.cargo_volume o' = Ok v') :
  (Dec.val v <= Dec.val v')%Q.
Proof.
  pose proof (cargo_volume_units o v Hlen Hwidth Hdepth Hv) as Hex.
  pose proof (cargo_volume_units o' v' Hlen' Hwidth' Hdepth' Hv') as Hex'.
  rewrite (val_exact _ _ _ Hex), (val_exact _ _ _ Hex').
  apply Q8_le. apply dhe_mono; [lia |]. unfold product_milli.
  apply Z.mul_le_mono_nonneg; [| | lia | lia].
  - apply Z.mul_nonneg_nonneg; lia.
  - apply Z.mul_le_mono_nonneg; lia.
Qed.

Lemma cargo_volume_monotone_witness :
  decimal_field 10 1 (Order.cargo_len order_1) = true
  /\ 0 <= Dec.coef (Order.cargo_len order_1)
          <= Dec.coef (Order.cargo_len order_120_50_20)
  /\ Order.cargo_volume order_1 = Ok (Dec.mk 10 (-2))
  /\ Order.cargo_volume order_120_50_20 = Ok (Dec.mk 12 (-2))
  /\ (Dec.val (Dec.mk 10 (-2)) <= Dec.val (Dec.mk 12 (-2)))%Q.
Proof.
  split; [reflexivity |]. split; [split; discriminate |].
  split; [vm_compute; reflexivity |]. split; [vm_compute; reflexivity |].
  apply (cargo_volume_monotone order_1 order_120_50_20);
    try reflexivity; try (split; discriminate); vm_compute; reflexivity.
Defined.

Lemma cargo_volumes_app (xs ys : list Order.t) :
  forall vs, cargo_volumes (xs ++ ys) = Ok vs ->
             exists vx vy, cargo_volumes xs = Ok vx
                           /\ cargo_volumes ys = Ok vy
                           /\ vs = (vx ++ vy)%list.
Proof.
  induction xs as [| x xs IH]; intros vs H.
  - exists [], vs. repeat split. exact H.
  - cbn [app cargo_volumes] in *. unfold rbind in *.
    destruct (Order.cargo_volume x) as [v |]; [| discriminate].
    destruct (cargo_volumes (xs ++ ys)) as [w |] eqn:E; [| discriminate].
    injection H as <-.
    destruct (IH w eq_refl) as (vx & vy & -> & Hy & ->).
    exists (v :: vx), vy. repeat split. exact Hy.
Qed.

Lemma Zsum_app (l l' : list Z) : Zsum (l ++ l') = Zsum l + Zsum l'.
Proof.
  unfold Zsum. induction l; simpl; lia.
Qed.

Lemma Q2_le (a b : Z) :
  a <= b ->
  (inject_Z a * (10 # 1) ^ (-2) <= inject_Z b * (10 # 1) ^ (-2))%Q.
Proof.
  change ((10 # 1) ^ (-2))%Q with (1 # 100)%Q.
  unfold Qle, Qmult, inject_Z. cbn [Qnum Qden]. lia.
Qed.

(** X18. One more row in the [orders] relation of a sending never raises
    its [free_volume], as long as the orders have non-negative dimensions
    that are values of their columns and the volumes add up to less than
    10^20 m^3. *)
Theorem free_volume_antitone (st st' : Store) (self : Sending.t)
  (row : Z * Z) (vs' : list Dec.t) (v v' : Dec.t)
  (Horders : orders st' = orders st)
  (Hrows : sending_orders st' = row :: sending_orders st)
  (Htotal : decimal_field 10 2 (Sending.total_volume self) = true)
  (Hdims : forall o, In o (sending_orders_all st' self) ->
                     decimal_field 10 1 (Order.cargo_len o) = true
                     /\ decimal_field 10 1 (Order.cargo_width o) = true
                     /\ decimal_field 10 1 (Order.cargo_depth o) = true
                     /\ 0 <= Dec.coef (Order.cargo_len o)
                     /\ 0 <= Dec.coef (Order.cargo_width o)
                     /\ 0 <= Dec.coef (Order.cargo_depth o))
  (Hvs' : cargo_volumes (sending_orders_all st' self) = Ok vs')
  (Hfit : (Qsum (map (fun v => Qabs (Dec.val v)) vs') < inject_Z (10 ^ 20))%Q)
  (Hv : free_volume st self = Ok v) (Hv' : free_volume st' self = Ok v') :
  (Dec.val v' <= Dec.val v)%Q.
Proof.
  pose proof (fit_of_volumes vs' (cargo_volumes_shape _ _ Hvs') Hfit) as HA'.
  assert (Hsplit : exists extra,
             sending_orders_all st' self
             = (extra ++ sending_orders_all st self)%list).
  { unfold sending_orders_all. rewrite Hrows, Horders. cbn [flat_map].
    eexists. reflexivity. }
  destruct Hsplit as (extra & Hsplit). rewrite Hsplit in Hvs', Hdims.
  destruct (cargo_volumes_app _ _ _ Hvs') as (ve & vs & Hve & Hvs & ->).
  pose proof (volumes_nonneg _ _ (cargo_volumes_Forall2 _ _ Hve)
                (fun o Ho => Hdims o (in_or_app _ _ _ (or_introl Ho))))
    as Hpe.
  rewrite map_app, Zsum_app in HA'.
  assert (Hnn : forall l : list Dec.t,
             0 <= Zsum (map (fun v => Z.abs (units8 v)) l)).
  { intros l. apply Zsum_nonneg. apply Forall_forall.
    intros x Hx. apply in_map_iff in Hx. destruct Hx as (y & <- & _). lia. }
  pose proof (Hnn ve). pose proof (Hnn vs).
  destruct (free_volume_exact st self vs Htotal Hvs ltac:(lia))
    as (w & Hw & Hex).
  rewrite <- Hsplit in Hvs'.
  destruct (free_volume_exact st' self (ve ++ vs) Htotal Hvs')
    as (w' & Hw' & Hex').
  { rewrite map_app, Zsum_app. exact HA'. }
  assert (w = v) by congruence. assert (w' = v') by congruence. subst w w'.
  rewrite (val_exact _ _ _ Hex), (val_exact _ _ _ Hex').
  apply Q2_le. rewrite map_app, Zsum_app.
  pose proof (Zsum_nonneg _ Hpe) as He.
  pose proof (dhe_mono (Zsum (map units8 vs))
                (Zsum (map units8 ve) + Zsum (map units8 vs)) (10 ^ 6)
                ltac:(lia) ltac:(lia)).
  lia.
Qed.

Lemma free_volume_antitone_witness :
  orders shop = orders shop_before
  /\ sending_orders shop = (1, 1) :: sending_orders shop_before
  /\ free_volume shop_before sending_1 = Ok (Dec.mk 980 (-2))
  /\ free_volume shop sending_1 = Ok (Dec.mk 970 (-2))
  /\ (Dec.val (Dec.mk 970 (-2)) <= Dec.val (Dec.mk 980 (-2)))%Q.
Proof.
  split; [reflexivity |]. split; [reflexivity |].
  split; [vm_compute; reflexivity |]. split; [vm_compute; reflexivity |].
  apply (free_volume_antitone shop_before shop sending_1 (1, 1)
           [Dec.mk 10 (-2); Dec.mk 20 (-2)]);
    [ reflexivity
    | reflexivity
    | reflexivity
    | intros o [<- | [<- | []]]; repeat split; discriminate
    | reflexivity
    | vm_compute; reflexivity
    | vm_compute; reflexivity
    | vm_compute; reflexivity ].
Defined.
